(** * Kobo upload tool: the template / XML mapping engine of [data_utils.py]

    A shallow embedding of the identifier handling, the schema flattener and
    the row-to-XML encoder, with the properties its specification states.

    Conventions of the embedding.
    - Python [str] is [string]; the whitespace of [str.strip] and [str.split]
      is the ASCII part of [str.isspace] (code points 9-13, 28-31 and 32).
    - A cell of a [pd.Series] / [pd.DataFrame] is a [Cell]: a string, an
      integer, NaN or None.  [pd.notna] is false exactly on the last two.
    - A row ([pd.Series]) is a finite map from column labels to cells.
    - A Python [dict] whose iteration order matters (the schema map) is its
      list of items, in insertion order.
    - A question node of the survey (a [dict] decoded from JSON) is a record
      of the keys that the code reads.  The key [name] is missing, null or a
      string: the code tells a null name from a missing one.  For the keys
      [type] and [select_from_list_name] the code behaves alike on a missing
      key and on null, and [None] stands for both.  The [content] of an
      asset and its [survey] and [choices] are missing or have a value of
      their type; the code raises on a null there, and those inputs are not
      modelled.
    - An [xml.etree.ElementTree.Element] is a tree; a reference to a node of
      the tree under construction is modelled by passing the mutation done
      through that reference as a continuation.  [Element.find] is modelled
      for tags without path syntax (XML names, which the names of a form
      are), and the truth value of an element is the one ElementTree gives
      it: false when it has no children.
    - [uuid.uuid4()] is an extra argument: the text of the identifier drawn
      by that call.
    - [row_to_xml] returns the tree; its serialisation by [ET.tostring] is
      not modelled.
    - A [pd.DataFrame] read from a file is the list of its columns, a label
      and the cells each; its labels are distinct.
    - Of [kobo_api.py], what the servers answer is an input: the records of
      the data API for [fetch_submission_map], the forms that KC lists (or
      the failure of the call) for [resolve_form_id].  Of [app.py], the body
      of the loop of [process_submissions] is modelled up to the call that
      posts the document. *)

From Stdlib Require Import Ascii ZArith Lia Numbers.DecimalString.
From stdpp Require Import gmap strings list.

(* ===================================================================== *)
(** * Python strings                                                      *)
(* ===================================================================== *)

Module PyStr.

(** [c.isspace()], ASCII range. *)
Definition isspace (c : ascii) : bool :=
  let n := nat_of_ascii c in
  ((9 <=? n)%nat && (n <=? 13)%nat) || ((28 <=? n)%nat && (n <=? 32)%nat).

(** [s.lstrip()] *)
Fixpoint lstrip (s : string) : string :=
  match s with
  | "" => ""
  | String c s' => if isspace c then lstrip s' else s
  end.

(** [s.rstrip()] *)
Fixpoint rstrip (s : string) : string :=
  match s with
  | "" => ""
  | String c s' =>
      match rstrip s' with
      | "" => if isspace c then "" else String c ""
      | r => String c r
      end
  end.

(** [s.strip()] *)
Definition strip (s : string) : string := rstrip (lstrip s).

(** [s.startswith(p)] *)
Fixpoint startswith (p s : string) : bool :=
  match p, s with
  | "", _ => true
  | String a p', String b s' => if Ascii.eqb a b then startswith p' s' else false
  | String _ _, "" => false
  end.

(** [s.replace(old, new)] for a non-empty [old]: occurrences are found left
    to right and do not overlap.  [skip] counts the characters of a matched
    occurrence that are still to be dropped. *)
Fixpoint replace_go (old new : string) (skip : nat) (s : string) : string :=
  match s with
  | "" => ""
  | String c s' =>
      match skip with
      | S k => replace_go old new k s'
      | O =>
          if startswith old s
          then new +:+ replace_go old new (String.length old - 1) s'
          else String c (replace_go old new 0 s')
      end
  end.

Definition replace (old new s : string) : string := replace_go old new 0 s.

(** The fields of [s] between separator characters, empty fields
    included; never the empty list. *)
Fixpoint fields (sep : ascii -> bool) (s : string) : list string :=
  match s with
  | "" => [""]
  | String c s' =>
      if sep c then "" :: fields sep s'
      else match fields sep s' with
           | t :: ts => String c t :: ts
           | [] => [String c ""]
           end
  end.

Definition nonempty (s : string) : bool :=
  match s with "" => false | _ => true end.

(** [s.split(sep)] for a one-character separator. *)
Definition split_on (sep : ascii) (s : string) : list string :=
  fields (Ascii.eqb sep) s.

(** [s.split()]: runs of whitespace separate, no empty strings. *)
Definition split (s : string) : list string :=
  filter (fun t => nonempty t = true) (fields isspace s).

(** [sep.join(l)] *)
Fixpoint join (sep : string) (l : list string) : string :=
  match l with
  | [] => ""
  | [t] => t
  | t :: ts => t +:+ sep +:+ join sep ts
  end.

(** A string that does not begin with whitespace. *)
Definition head_nonspace (s : string) : Prop :=
  match s with
  | "" => True
  | String c _ => isspace c = false
  end.

(** [old in s]: [old] occurs somewhere in [s]. *)
Fixpoint occurs (old s : string) : bool :=
  startswith old s
  || match s with
     | "" => false
     | String _ s' => occurs old s'
     end.

(** [s[n:]] *)
Fixpoint drop (n : nat) (s : string) : string :=
  match n, s with
  | S n', String _ s' => drop n' s'
  | _, _ => s
  end.

(** [str(z)] for an integer. *)
Definition of_Z (z : Z) : string := NilZero.string_of_int (Z.to_int z).

End PyStr.

(* ===================================================================== *)
(** * ID handling                                                         *)
(* ===================================================================== *)

(** [ensure_uuid_prefix(x)] *)
Definition ensure_uuid_prefix (x : string) : string :=
  if negb (PyStr.nonempty x) then x
  else
    let s := PyStr.strip x in
    if PyStr.startswith "uuid:" s then s else "uuid:" +:+ s.

(* ===================================================================== *)
(** * Cells, rows and tables                                              *)
(* ===================================================================== *)

Inductive Cell : Type :=
| CStr (s : string)
| CInt (z : Z)
| CNaN
| CNone.

(** [pd.notna(val)] *)
Definition notna (val : Cell) : bool :=
  match val with
  | CStr _ | CInt _ => true
  | CNaN | CNone => false
  end.

(** [str(val)] *)
Definition py_str (val : Cell) : string :=
  match val with
  | CStr s => s
  | CInt z => PyStr.of_Z z
  | CNaN => "nan"
  | CNone => "None"
  end.

(** [a == b] as pandas compares the cells of a column with a scalar: values
    of different types, NaN and None compare unequal. *)
Definition cell_eqb (a b : Cell) : bool :=
  match a, b with
  | CStr s, CStr t => bool_decide (s = t)
  | CInt m, CInt n => bool_decide (m = n)
  | _, _ => false
  end.

(** [row.get(key, default)] *)
Definition row_get (row : gmap string Cell) (key : string) (default : Cell) : Cell :=
  match row !! key with
  | Some val => val
  | None => default
  end.

(** The exceptions that the operations of the code raise. *)
Inductive exn : Type := KeyError | IndexError | TypeError.

Inductive result (A : Type) : Type :=
| Ok (a : A)
| Raise (e : exn).
Arguments Ok {A} a.
Arguments Raise {A} e.

Notation "'try!' x := c 'in' k" :=
  (match c with Ok x => k | Raise e => Raise e end)
  (at level 10, x name, c at level 100, k at level 200).

(** [row[key]] *)
Definition row_getitem (row : gmap string Cell) (key : string) : result Cell :=
  match row !! key with
  | Some val => Ok val
  | None => Raise KeyError
  end.

(** [l.iloc[0]] / [l[0]] *)
Definition iloc0 {A} (l : list A) : result A :=
  match l with
  | x :: _ => Ok x
  | [] => Raise IndexError
  end.

(** [l.pop()]: the list without its last element. *)
Definition py_pop {A} (l : list A) : result (list A) :=
  match l with
  | [] => Raise IndexError
  | _ => Ok (removelast l)
  end.

(** One record of the known-records table, the data frame with columns
    [_id], [_uuid] and [meta/instanceID]. *)
Record Entry : Type := mkEntry {
  e_id : Cell;
  e_uuid : Cell;
  e_instanceID : Cell
}.

(** [build_existing_id_set(id_map_df)]; [None] is Python's [None]. *)
Definition build_existing_id_set (id_map_df : option (list Entry)) : gset string :=
  match id_map_df with
  | None => ∅
  | Some [] => ∅
  | Some df =>
      fold_left
        (fun (ids : gset string) val =>
           let val_str := PyStr.strip (py_str val) in
           ids ∪ {[ ensure_uuid_prefix val_str ]}
               ∪ {[ PyStr.replace "uuid:" "" val_str ]})
        (filter (fun val => notna val = true) (e_instanceID <$> df))
        ∅
  end.

(** The loop [for col in [...]: if pd.notna(val := row.get(col)): return ...]
    of [get_submission_id]: the first listed column whose cell is not
    missing. *)
Fixpoint first_notna (row : gmap string Cell) (cols : list string) : option Cell :=
  match cols with
  | [] => None
  | col :: cols' =>
      let val := row_get row col CNone in
      if notna val then Some val else first_notna row cols'
  end.

(** [get_submission_id(row, id_map_df)]; [Ok None] is the return value
    [None].  The table is looked up when [_id] is not missing and
    [id_map_df] is neither [None] nor empty. *)
Definition get_submission_id (row : gmap string Cell) (id_map_df : option (list Entry))
  : result (option string) :=
  match first_notna row ["meta/instanceID"; "_uuid"] with
  | Some val => Ok (Some (ensure_uuid_prefix (PyStr.strip (py_str val))))
  | None =>
      match id_map_df with
      | Some ((_ :: _) as df) =>
          if notna (row_get row "_id" CNone) then
            try! rid := row_getitem row "_id" in
            let matches := filter (fun e => cell_eqb (e_id e) rid = true) df in
            if (length matches =? 1)%nat then
              try! first := iloc0 matches in
              Ok (Some (ensure_uuid_prefix (py_str (e_instanceID first))))
            else Ok None
          else Ok None
      | _ => Ok None
      end
  end.

(* ===================================================================== *)
(** * Schema processing                                                   *)
(* ===================================================================== *)

(** The key [name] of a node: it is missing, or holds null, or holds a
    string. *)
Inductive NameKey : Type :=
| NoKey
| NullName
| Name (s : string).

(** A question node of the survey: the keys of the dict that the code reads
    ([None] when the key is missing or null, for [q_type] and
    [q_select_from_list_name]).  [q_choice_list] is the key [_choice_list]
    that [flatten_survey] adds to its copy of a select_multiple node;
    [Some v] when the key is set to [v]. *)
Record Question : Type := mkQuestion {
  q_type : option string;
  q_name_key : NameKey;
  q_select_from_list_name : option string;
  q_choice_list : option (option string)
}.

(** [q.get("name")]: [None] for a missing key and for null. *)
Definition q_name (q : Question) : option string :=
  match q_name_key q with
  | Name s => Some s
  | NoKey | NullName => None
  end.

(** [q.get("name", "group")]: the default stands in for a missing key, not
    for null. *)
Definition q_name_or_group (q : Question) : option string :=
  match q_name_key q with
  | Name s => Some s
  | NoKey => Some "group"
  | NullName => None
  end.

(** The strings of a list that holds no [None]. *)
Fixpoint all_str (l : list (option string)) : option (list string) :=
  match l with
  | [] => Some []
  | Some s :: l' => cons s <$> all_str l'
  | None :: _ => None
  end.

(** [sep.join(l)]: a [TypeError] when an item of [l] is [None]. *)
Definition py_join (sep : string) (l : list (option string)) : result string :=
  match all_str l with
  | Some strs => Ok (PyStr.join sep strs)
  | None => Raise TypeError
  end.

Record Choice : Type := mkChoice {
  c_list_name : option string;
  c_children : option (list string)
}.

Definition str_eqb (a b : string) : bool := bool_decide (a = b).

Definition is_group_marker (qtype : string) : bool :=
  str_eqb qtype "begin_group" || str_eqb qtype "end_group"
  || str_eqb qtype "begin_repeat" || str_eqb qtype "end_repeat".

Definition geopoint_suffixes : list string :=
  ["_latitude"; "_longitude"; "_altitude"; "_precision"].

(** The body of [for q in survey] in [flatten_survey], with the two
    accumulators [cols] and [stack].  The stack holds what the open markers
    gave for [q.get("name", "group")], a [None] for a null name; the join
    of the path raises on it. *)
Fixpoint flatten_loop (survey : list Question)
    (cols : list (string * Question)) (stack : list (option string))
  : result (list (string * Question)) :=
  match survey with
  | [] => Ok cols
  | q :: rest =>
      let qtype := default "" (q_type q) in
      if is_group_marker qtype then
        if PyStr.startswith "begin" qtype then
          flatten_loop rest cols (stack ++ [q_name_or_group q])
        else
          match stack with
          | _ :: _ => try! stack' := py_pop stack in flatten_loop rest cols stack'
          | [] => flatten_loop rest cols stack
          end
      else
        match q_name q with
        | None => flatten_loop rest cols stack
        | Some name =>
            if negb (PyStr.nonempty name) || PyStr.startswith "_" name then
              flatten_loop rest cols stack
            else
              try! path := py_join "/" (stack ++ [Some name]) in
              if str_eqb qtype "geopoint" then
                flatten_loop rest
                  (cols ++ ((fun suffix => (path +:+ suffix, q)) <$> geopoint_suffixes))
                  stack
              else if str_eqb qtype "select_multiple" then
                let q_copy := {| q_type := q_type q; q_name_key := q_name_key q;
                                 q_select_from_list_name := q_select_from_list_name q;
                                 q_choice_list := Some (q_select_from_list_name q) |} in
                flatten_loop rest (cols ++ [(path, q_copy)]) stack
              else
                flatten_loop rest (cols ++ [(path, q)]) stack
        end
  end.

(** [flatten_survey(survey, choices)] *)
Definition flatten_survey (survey : list Question) (choices : list Choice)
  : result (list (string * Question)) :=
  let choice_map :=
    omap (fun c => match c_list_name c with
                   | Some n => Some (n, default [] (c_children c))
                   | None => None
                   end) choices in
  flatten_loop survey [] [].

(** [d[k] = v] on a dict kept as its list of items: a new key goes last, a
    present key keeps its place. *)
Fixpoint dict_set {V} (k : string) (v : V) (d : list (string * V)) : list (string * V) :=
  match d with
  | [] => [(k, v)]
  | (k', v') :: d' =>
      if str_eqb k k' then (k, v) :: d' else (k', v') :: dict_set k v d'
  end.

(** [{k: v for k, v in items}] *)
Definition dict_of_items {V} (items : list (string * V)) : list (string * V) :=
  fold_left (fun d kv => dict_set kv.1 kv.2 d) items [].

Record Content : Type := mkContent {
  survey : option (list Question);
  choices : option (list Choice)
}.

Record Asset : Type := mkAsset {
  content : option Content
}.

Definition system_columns : list string := ["meta/instanceID"; "_uuid"; "_id"].

(** [for col in [...]: if col not in template.columns: template[col] = None]
    on the column list of the (row-less) template. *)
Definition add_system_columns (columns : list string) : list string :=
  fold_left
    (fun (cols : list string) col =>
       if bool_decide (col ∈ cols) then cols else cols ++ [col])
    system_columns columns.

(** [build_template_df(asset)]: the columns of the template and the schema
    map. *)
Definition build_template_df (asset : Asset)
  : result (list string * list (string * Question)) :=
  let content := default {| survey := None; choices := None |} (content asset) in
  let survey := default [] (survey content) in
  let choices := default [] (choices content) in
  try! flattened := flatten_survey survey choices in
  let headers := fst <$> flattened in
  let schema_map := dict_of_items flattened in
  Ok (add_system_columns headers, schema_map).

(* ===================================================================== *)
(** * XML generation                                                      *)
(* ===================================================================== *)

(** An [ET.Element]: tag, attributes, text and the list of its children. *)
#[warnings="-register-all"]
Inductive Element : Type :=
| Elem (tag : string) (attrib : list (string * string))
       (text : option string) (children : list Element).

Definition tag (e : Element) : string :=
  match e with Elem t _ _ _ => t end.
Definition attrib (e : Element) : list (string * string) :=
  match e with Elem _ a _ _ => a end.
Definition text (e : Element) : option string :=
  match e with Elem _ _ x _ => x end.
Definition children (e : Element) : list Element :=
  match e with Elem _ _ _ cs => cs end.

Definition set_children (e : Element) (cs : list Element) : Element :=
  match e with Elem t a x _ => Elem t a x cs end.

(** [e.text = value] *)
Definition set_text (value : string) (e : Element) : Element :=
  match e with Elem t a _ cs => Elem t a (Some value) cs end.

(** [bool(e)]: an element is true when it has children. *)
Definition truthy (e : Element) : bool :=
  match children e with [] => false | _ => true end.

(** The first element of [cs] with tag [p]. *)
Fixpoint find_first (p : string) (cs : list Element) : option Element :=
  match cs with
  | [] => None
  | c :: cs' => if str_eqb (tag c) p then Some c else find_first p cs'
  end.

(** [node.find(p)] for a plain tag name [p]: the first child with that tag,
    or [None]. *)
Definition find (node : Element) (p : string) : option Element :=
  find_first p (children node).

(** What a mutation [k], done through the reference that [find] returned,
    does to the list of children: it changes the first child with tag
    [p] in place. *)
Fixpoint alter_first (p : string) (k : Element -> Element) (cs : list Element)
  : list Element :=
  match cs with
  | [] => []
  | c :: cs' => if str_eqb (tag c) p then k c :: cs' else c :: alter_first p k cs'
  end.

(** [child = ET.SubElement(node, p)], then the work [k] of the caller on
    [child]: the new element is appended to the children of [node]. *)
Definition sub_element (p : string) (k : Element -> Element) (node : Element) : Element :=
  set_children node (children node ++ [k (Elem p [] None [])]).

(** [ensure_nested(root, path)], then the work [k] of the caller on the
    node it returns. *)
Fixpoint ensure_nested (path : list string) (k : Element -> Element) (node : Element)
  : Element :=
  match path with
  | [] => k node
  | p :: path' =>
      match find node p with
      | Some _ => set_children node (alter_first p (ensure_nested path' k) (children node))
      | None => sub_element p (ensure_nested path' k) node
      end
  end.

(** The value that the body of the loop of [row_to_xml] computes for one
    item [(path, q_info)] of the schema map; [None] is Python's [None]. *)
Definition field_value (row : gmap string Cell) (path : string) (q_info : Question)
  : option string :=
  let qtype := q_type q_info in
  if bool_decide (qtype = Some "geopoint") then
    let lat := PyStr.strip (py_str (row_get row (path +:+ "_latitude") (CStr ""))) in
    let lon := PyStr.strip (py_str (row_get row (path +:+ "_longitude") (CStr ""))) in
    if PyStr.nonempty lat && PyStr.nonempty lon then
      let alt := PyStr.strip (py_str (row_get row (path +:+ "_altitude") (CStr "0"))) in
      let acc := PyStr.strip (py_str (row_get row (path +:+ "_precision") (CStr "0.0"))) in
      Some (lat +:+ " " +:+ lon +:+ " " +:+ alt +:+ " " +:+ acc)
    else None
  else if bool_decide (qtype = Some "select_multiple") then
    match row !! path with
    | Some (CStr s) =>
        let tokens :=
          PyStr.strip <$>
            filter (fun t => PyStr.nonempty (PyStr.strip t) = true)
                   (PyStr.split (PyStr.replace "," " " s)) in
        match tokens with
        | [] => None
        | _ => Some (PyStr.join " " tokens)
        end
    | _ => None
    end
  else
    match row !! path with
    | Some val =>
        if notna val then
          let val_str := PyStr.strip (py_str val) in
          if PyStr.nonempty val_str then Some val_str else None
        else None
    | None => None
    end.

(** One turn of the loop of [row_to_xml]. *)
Definition encode_field (row : gmap string Cell) (root : Element)
    (item : string * Question) : Element :=
  match field_value row item.1 item.2 with
  | Some value =>
      let parts := PyStr.split_on "/" item.1 in
      ensure_nested (removelast parts)
        (sub_element (List.last parts "") (set_text value)) root
  | None => root
  end.

(** [x = node.find(p) or ET.SubElement(node, p)], then the work [k] of the
    caller on [x]: a found element that is false (no children) is passed
    over by [or], and a new one is made. *)
Definition find_or_sub_element (p : string) (k : Element -> Element) (node : Element)
  : Element :=
  match find node p with
  | Some child =>
      if truthy child then set_children node (alter_first p k (children node))
      else sub_element p k node
  | None => sub_element p k node
  end.

(** What [row_to_xml] does with [meta]: the instance ID and, for an update,
    the deprecated ID. *)
Definition fill_meta (deprecated_id : option string) (uuid4 : string) (meta : Element)
  : Element :=
  let meta := find_or_sub_element "instanceID" (set_text ("uuid:" +:+ uuid4)) meta in
  match deprecated_id with
  | Some d =>
      if PyStr.nonempty d
      then sub_element "deprecatedID" (set_text (ensure_uuid_prefix d)) meta
      else meta
  | None => meta
  end.

(** The loop of [row_to_xml] over the items of the schema map. *)
Definition encode_fields (row : gmap string Cell) (schema_map : list (string * Question))
    (root : Element) : Element :=
  fold_left (encode_field row) schema_map root.

(** [row_to_xml(row, form_id, schema_map, deprecated_id)]: the tree that
    [ET.tostring] serialises.  [uuid4] is the text of [uuid.uuid4()]. *)
Definition row_to_xml (row : gmap string Cell) (form_id : string)
    (schema_map : list (string * Question)) (deprecated_id : option string)
    (uuid4 : string) : Element :=
  let root := Elem form_id [("id", form_id)] None [] in
  let root := encode_fields row schema_map root in
  find_or_sub_element "meta" (fill_meta deprecated_id uuid4) root.

(* ===================================================================== *)
(** * Data normalization and file reading ([data_utils.py])               *)
(* ===================================================================== *)

(** [bool(val)] *)
Definition cell_truthy (val : Cell) : bool :=
  match val with
  | CStr s => PyStr.nonempty s
  | CInt z => negb (z =? 0)%Z
  | CNaN => true
  | CNone => false
  end.

(** [ensure_uuid_prefix(x)] on a cell of any type, as [Series.apply] calls
    it on the values of a column: a false value is returned as it is, any
    other goes through [str]. *)
Definition ensure_uuid_prefix_cell (x : Cell) : Cell :=
  if negb (cell_truthy x) then x
  else
    let s := PyStr.strip (py_str x) in
    CStr (if PyStr.startswith "uuid:" s then s else "uuid:" +:+ s).

#[global] Instance Cell_eq_dec : EqDecision Cell.
Proof. solve_decision. Defined.

(** A [pd.DataFrame] is the list of its columns, in order, each a label
    and the cells of the column.  The labels of a frame are taken to be
    distinct where a column is read or written by label.

    [df[label]]: the column with that label. *)
Fixpoint frame_get (label : string) (df : list (string * list Cell)) : option (list Cell) :=
  match df with
  | [] => None
  | (c, data) :: df' => if str_eqb label c then Some data else frame_get label df'
  end.

(** The row [i] of the frame, as [df.iterrows()] yields it: a series
    indexed by the labels. *)
Definition frame_row (df : list (string * list Cell)) (i : nat) : gmap string Cell :=
  list_to_map (omap (fun col => (fun val => (col.1, val)) <$> col.2 !! i) df).

(** The column names that [normalize_update_ids] tries, in order. *)
Definition id_candidates : list string :=
  ["meta_instanceID"; "meta/instanceid"; "instanceID"; "instance_id";
   "_uuid"; "__uuid"; "uuid"; "submission_uuid"; "_submission__uuid"].

(** The loop [for cand in candidates: if cand in df.columns: ...; break]:
    the first candidate that is a label. *)
Fixpoint first_candidate (cands labels : list string) : option string :=
  match cands with
  | [] => None
  | cand :: cands' =>
      if bool_decide (cand ∈ labels) then Some cand else first_candidate cands' labels
  end.

Record NormInfo : Type := mkNormInfo {
  created_from_uuid : bool;
  standardized_prefix : bool
}.

(** [normalize_update_ids(df)]: the frame and the info dict. *)
Definition normalize_update_ids (df : list (string * list Cell)) : list (string * list Cell) * NormInfo :=
  (* df.columns = [c.strip() for c in df.columns] *)
  let df := (fun col => (PyStr.strip col.1, col.2)) <$> df in
  (* Create meta/instanceID if missing *)
  let created :=
    if bool_decide ("meta/instanceID" ∈ df.*1) then (df, false)
    else
      match first_candidate id_candidates df.*1 with
      | Some cand =>
          (dict_set "meta/instanceID"
             ((fun x => if notna x then ensure_uuid_prefix_cell x else x)
                <$> default [] (frame_get cand df))
             df,
           true)
      | None => (df, false)
      end in
  (* Standardize prefix *)
  let df := created.1 in
  if bool_decide ("meta/instanceID" ∈ df.*1) then
    (dict_set "meta/instanceID"
       (ensure_uuid_prefix_cell <$> default [] (frame_get "meta/instanceID" df)) df,
     mkNormInfo created.2 true)
  else (df, mkNormInfo created.2 false).

(** [filter_cols(df)] of [read_table]: with a non-empty [expected_cols], the
    columns whose label is expected; otherwise the frame as it is. *)
Definition filter_cols (expected_cols : option (list string)) (df : list (string * list Cell)) : list (string * list Cell) :=
  match expected_cols with
  | Some ((_ :: _) as expected) => filter (fun col => col.1 ∈ expected) df
  | _ => df
  end.

(* ===================================================================== *)
(** * URL helpers and form resolution ([kobo_api.py])                     *)
(* ===================================================================== *)

(** [s.lstrip(ch)] for a one-character set. *)
Fixpoint lstrip_char (ch : ascii) (s : string) : string :=
  match s with
  | "" => ""
  | String c s' => if Ascii.eqb c ch then lstrip_char ch s' else s
  end.

(** [s.rstrip(ch)] for a one-character set. *)
Fixpoint rstrip_char (ch : ascii) (s : string) : string :=
  match s with
  | "" => ""
  | String c s' =>
      match rstrip_char ch s' with
      | "" => if Ascii.eqb c ch then "" else String c ""
      | r => String c r
      end
  end.

(** [kf_join(base, path)] *)
Definition kf_join (base path : string) : string :=
  rstrip_char "/" base +:+ "/" +:+ lstrip_char "/" path.

(** A form as KC lists it: the keys that [resolve_form_id] reads. *)
Record KcForm : Type := mkKcForm {
  f_title : option string;
  f_id_string : option string
}.

(** What the call [list_kc_forms(kc_base, token)] does: it returns the list
    of forms, or raises. *)
Inductive KcReply : Type :=
| KcForms (forms : list KcForm)
| KcRaises.

(** The outcome of [resolve_form_id]: a return value, or the exception of
    [list_kc_forms] passed on. *)
Inductive FormId : Type :=
| Returned (form_id : option string)
| Raised.

(** [x.get(key)] is true: the key holds a non-empty string. *)
Definition opt_truthy (x : option string) : bool :=
  match x with
  | Some s => PyStr.nonempty s
  | None => false
  end.

(** [resolve_form_id(asset, kc_base, token)].  [id_string] is
    [asset["content"]["settings"]["id_string"]] and [name] is
    [asset["name"]], each [None] when the key is missing; [reply] is what
    [list_kc_forms] does when it is called. *)
Definition resolve_form_id (id_string name : option string) (reply : KcReply) : FormId :=
  let form_id := id_string in
  let asset_name := default "(untitled)" name in
  if negb (opt_truthy form_id) then
    match reply with
    | KcRaises => Raised
    | KcForms forms =>
        let matches :=
          filter (fun f => f_title f = Some asset_name /\ opt_truthy (f_id_string f) = true)
                 forms in
        match matches with
        | [f] => Returned (f_id_string f)
        | _ =>
            match forms with
            | [f] => if opt_truthy (f_id_string f) then Returned (f_id_string f)
                     else Returned None
            | _ => Returned None
            end
        end
    end
  else
    (* try: ... if form_id in kc_ids: return form_id; except Exception: pass *)
    match reply with
    | KcForms forms =>
        if bool_decide (form_id ∈ f_id_string <$> filter (fun f => opt_truthy (f_id_string f) = true) forms)
        then Returned form_id
        else Returned form_id
    | KcRaises => Returned form_id
    end.

(** [a or b] on cells. *)
Definition cell_or (a b : Cell) : Cell :=
  if cell_truthy a then a else b.

(** [df.drop_duplicates(subset=["meta/instanceID"])]: of the records with
    the same instance ID the first is kept.  [seen] holds the IDs of the
    records kept so far. *)
Fixpoint drop_duplicates (seen : list Cell) (df : list Entry) : list Entry :=
  match df with
  | [] => []
  | e :: df' =>
      if bool_decide (e_instanceID e ∈ seen) then drop_duplicates seen df'
      else e :: drop_duplicates (e_instanceID e :: seen) df'
  end.

(** What [pd.DataFrame(rows)] holds for a value of a record.  A string or
    a number is kept.  A [None] is kept in a column of Python objects and
    becomes NaN in a column to which pandas gives another dtype (so for a
    column of strings under pandas 3): [na] is the cell that the column
    holds for it. *)
Definition frame_cell (na : Cell) (c : Cell) : Cell :=
  match c with
  | CNone => na
  | CStr _ | CInt _ | CNaN => c
  end.

(** [fetch_submission_map], from the records that the pages of the data API
    returned ([results], each with [rec.get] of the three keys, [None] when
    missing) to the frame it returns.  [na col] is the cell that the frame
    built by [pd.DataFrame(rows)] holds in the column [col] for a [None]. *)
Definition fetch_submission_map (na : string -> Cell) (results : list Entry) : list Entry :=
  let rows :=
    (fun rec => mkEntry (e_id rec) (e_uuid rec)
                  (cell_or (e_instanceID rec) (e_uuid rec))) <$> results in
  match rows with
  | [] => []
  | _ =>
      let df :=
        (fun e => mkEntry (frame_cell (na "_id") (e_id e))
                    (frame_cell (na "_uuid") (e_uuid e))
                    (frame_cell (na "meta/instanceID") (e_instanceID e))) <$> rows in
      drop_duplicates []
        ((fun e => mkEntry (e_id e) (e_uuid e) (ensure_uuid_prefix_cell (e_instanceID e)))
           <$> df)
  end.

(* ===================================================================== *)
(** * Processing a row ([app.py])                                         *)
(* ===================================================================== *)

(** [s[:n]] *)
Fixpoint py_take (n : nat) (s : string) : string :=
  match n, s with
  | S n', String c s' => String c (py_take n' s')
  | _, _ => ""
  end.

(** What the body of the loop of [process_submissions] does with a row
    before it posts: it skips the row with a detail, or it has a document
    to post, or an exception makes the row an error. *)
Inductive RowAction : Type :=
| Skipped (detail : string)
| Post (xml : Element)
| RowError.

(** The body of [for i, row in df.iterrows()] in [process_submissions], up
    to the call of [post_submission]. *)
Definition process_row (is_edit : bool) (row : gmap string Cell)
    (id_map : option (list Entry)) (existing_ids : gset string)
    (form_id : string) (schema_map : list (string * Question)) (uuid4 : string)
  : RowAction :=
  if is_edit then
    match get_submission_id row id_map with
    | Raise _ => RowError
    | Ok deprecated_id =>
        match deprecated_id with
        | Some d =>
            if negb (PyStr.nonempty d) then Skipped "No target ID"
            else if bool_decide (d ∈ existing_ids) then
              Post (row_to_xml row form_id schema_map deprecated_id uuid4)
            else
              Skipped ("ID not found: "
                       +:+ py_take 8 (List.last (PyStr.split_on ":" d) "") +:+ "...")
        | None => Skipped "No target ID"
        end
    end
  else Post (row_to_xml row form_id schema_map None uuid4).

(* ===================================================================== *)
(** * The vocabulary of the specification                                 *)
(* ===================================================================== *)

(** A name that makes a question a column: present, not empty and not
    reserved by a leading underscore. *)
Definition column_name (name : string) : bool :=
  PyStr.nonempty name && negb (PyStr.startswith "_" name).



(** The bare form of an identifier: its token, without the leading
    "uuid:". *)
Definition bare_form (s : string) : string :=
  if PyStr.startswith "uuid:" s then PyStr.drop 5 s else s.

(** A blank cell: a missing one, or one whose text is nothing but
    whitespace. *)
Definition blank (val : Cell) : bool :=
  negb (notna val) || negb (PyStr.nonempty (PyStr.strip (py_str val))).

(** The value of a cell of a row: its trimmed text, and nothing when the
    column is absent or the cell is blank. *)
Definition cell_text (cell : option Cell) : option string :=
  match cell with
  | Some val => if blank val then None else Some (PyStr.strip (py_str val))
  | None => None
  end.

(** Update-target resolution in the words of the specification: the first
    non-blank of [meta/instanceID] and [_uuid], normalized; else the
    canonical ID of the one known record with the [_id] of the row; else
    unresolved. *)
Definition spec_get_submission_id (row : gmap string Cell)
    (id_map_df : option (list Entry)) : option string :=
  let direct :=
    filter (fun val => blank val = false)
           ((fun col => row_get row col CNone) <$> ["meta/instanceID"; "_uuid"]) in
  match direct with
  | val :: _ => Some (ensure_uuid_prefix (py_str val))
  | [] =>
      let rid := row_get row "_id" CNone in
      match filter (fun e => cell_eqb (e_id e) rid = true) (default [] id_map_df) with
      | [e] => if notna rid then Some (ensure_uuid_prefix (py_str (e_instanceID e))) else None
      | _ => None
      end
  end.

(** The text of a geopoint in the words of the specification: latitude and
    longitude are required, a missing altitude is "0" and a missing
    precision is "0.0". *)
Definition spec_geopoint (row : gmap string Cell) (path : string) : option string :=
  match cell_text (row !! (path +:+ "_latitude")),
        cell_text (row !! (path +:+ "_longitude")) with
  | Some lat, Some lon =>
      Some (lat +:+ " " +:+ lon
            +:+ " " +:+ default "0" (cell_text (row !! (path +:+ "_altitude")))
            +:+ " " +:+ default "0.0" (cell_text (row !! (path +:+ "_precision"))))
  | _, _ => None
  end.

(** No character of the string is a separator. *)
Fixpoint free_of (sep : ascii -> bool) (s : string) : Prop :=
  match s with
  | "" => True
  | String c s' => sep c = false /\ free_of sep s'
  end.

(** Every character of the string is whitespace. *)
Fixpoint all_space (s : string) : Prop :=
  match s with
  | "" => True
  | String c s' => PyStr.isspace c = true /\ all_space s'
  end.

(** A separator of a select_multiple cell: a comma or whitespace. *)
Definition is_separator (c : ascii) : bool :=
  Ascii.eqb c "," || PyStr.isspace c.

(** The text of a select_multiple cell in the words of the specification:
    split on comma and whitespace, trim each token, drop the empty ones,
    join with single spaces. *)
Definition spec_select_multiple (s : string) : option string :=
  let tokens :=
    filter (fun t => PyStr.nonempty t = true)
           (PyStr.strip <$> PyStr.fields is_separator s) in
  match tokens with
  | [] => None
  | _ => Some (PyStr.join " " tokens)
  end.

(** [root.findall("p1/p2")]: the children tagged [p2] of the children of
    the root tagged [p1], in document order. *)
Definition findall2 (root : Element) (p1 p2 : string) : list Element :=
  filter (fun e => tag e = p1) (children root)
    ≫= (fun m => filter (fun e => tag e = p2) (children m)).

(** [if deprecated_id:] *)
Definition supplied (deprecated_id : option string) : bool :=
  match deprecated_id with
  | Some d => PyStr.nonempty d
  | None => false
  end.


(** The [deprecatedID] element of an update: there is one when a
    deprecated ID is given and is not the empty string. *)
Definition deprecated_element (deprecated_id : option string) : list Element :=
  match deprecated_id with
  | Some d =>
      if PyStr.nonempty d
      then [Elem "deprecatedID" [] (Some (ensure_uuid_prefix d)) []]
      else []
  | None => []
  end.

(** The tags of the children of a node, in document order. *)
Definition child_tags (node : Element) : list string :=
  tag <$> children node.

(** The number of children of a node with tag [p]. *)
Definition count_tag (p : string) (node : Element) : nat :=
  length (filter (fun t => t = p) (child_tags node)).

(** A mutation that leaves the tag of the element alone. *)
Definition tag_preserving (k : Element -> Element) : Prop :=
  forall e, tag (k e) = tag e.

(** The element that the group path [pre] resolves to, following at each
    segment the child that [find] returns, has a child with tag [a]. *)
Fixpoint holds_leaf (pre : list string) (a : string) (node : Element) : Prop :=
  match pre with
  | [] => a ∈ child_tags node
  | s :: rest =>
      match find node s with
      | Some c => holds_leaf rest a c
      | None => False
      end
  end.

(** The element that [path] resolves to, following at each segment the
    child that [find] returns. *)
Fixpoint descend (path : list string) (node : Element) : option Element :=
  match path with
  | [] => Some node
  | s :: rest =>
      match find node s with
      | Some c => descend rest c
      | None => None
      end
  end.

(** Along the group path [pre], each segment names at most one child of
    the element reached so far. *)
Fixpoint chain_le1 (pre : list string) (node : Element) : Prop :=
  match pre with
  | [] => True
  | s :: rest =>
      count_tag s node <= 1 /\
      match find node s with
      | Some c => chain_le1 rest c
      | None => True
      end
  end.

(** Along the group path [pre], each segment names exactly one child of
    the element reached so far: one element for each segment of the
    prefix. *)
Fixpoint unique_chain (pre : list string) (node : Element) : Prop :=
  match pre with
  | [] => True
  | s :: rest =>
      count_tag s node = 1 /\
      match find node s with
      | Some c => unique_chain rest c
      | None => False
      end
  end.

(** Two shapes of the effect of a mutation on a node.  [altered]: the first
    child with tag [p] is changed by [f] in place.  [appended]: a new last
    child [e] with tag [p] is added. *)
Definition altered (p : string) (f : Element -> Element) (node node' : Element) : Prop :=
  exists c,
    find node p = Some c /\
    child_tags node' = child_tags node /\
    find node' p = Some (f c) /\
    forall s, s <> p -> find node' s = find node s.

Definition appended (p : string) (e : Element) (node node' : Element) : Prop :=
  child_tags node' = child_tags node ++ [p] /\
  forall s, find node' s =
              match find node s with
              | Some c => Some c
              | None => if str_eqb p s then Some e else None
              end.

(** An open marker whose name is null. *)
Definition opens_null_group (q : Question) : bool :=
  is_group_marker (default "" (q_type q))
  && PyStr.startswith "begin" (default "" (q_type q))
  && match q_name_key q with
     | NullName => true
     | NoKey | Name _ => false
     end.

(** The number of columns that one node of the survey gives: none for a
    group marker or a node without a column name, four for a geopoint, one
    for any other question. *)
Definition columns_of (q : Question) : nat :=
  let qtype := default "" (q_type q) in
  if is_group_marker qtype then 0
  else
    match q_name q with
    | Some name =>
        if column_name name then (if str_eqb qtype "geopoint" then 4 else 1) else 0
    | None => 0
    end.

(** [d.get(k)] on a dict kept as its list of items. *)
Fixpoint dict_get {V} (k : string) (d : list (string * V)) : option V :=
  match d with
  | [] => None
  | (k', v) :: d' => if str_eqb k k' then Some v else dict_get k d'
  end.

(** Neither "_uuid" nor "_id": the two system columns that no survey path
    can spell. *)
Definition not_reserved_path (path : string) : Prop :=
  path <> "_uuid" /\ path <> "_id".

(** The column that [normalize_update_ids] takes the IDs from: the column
    "meta/instanceID" when the frame has one, else the first candidate
    that is a label. *)
Definition id_source (labels : list string) : option string :=
  if bool_decide ("meta/instanceID" ∈ labels) then Some "meta/instanceID"
  else first_candidate id_candidates labels.

(** The frame with its labels trimmed. *)
Definition strip_labels (df : list (string * list Cell)) : list (string * list Cell) :=
  (fun col => (PyStr.strip col.1, col.2)) <$> df.

(** A value of a JSON record that is a string, or null or not there. *)
Definition text_or_missing (c : Cell) : Prop :=
  match c with
  | CStr _ | CNone => True
  | CInt _ | CNaN => False
  end.

(** The record that [fetch_submission_map] makes of a record of the data
    API, before duplicates are dropped: the instance ID, or else the UUID,
    as the frame holds it, normalized. *)
Definition normalized_record (na : string -> Cell) (rec : Entry) : Entry :=
  mkEntry (frame_cell (na "_id") (e_id rec))
    (frame_cell (na "_uuid") (e_uuid rec))
    (ensure_uuid_prefix_cell
       (frame_cell (na "meta/instanceID") (cell_or (e_instanceID rec) (e_uuid rec)))).

(** The record of the data API has an ID: its instance ID, or else its
    UUID, is a text that is not empty. *)
Definition has_id (rec : Entry) : Prop :=
  exists s, cell_or (e_instanceID rec) (e_uuid rec) = CStr s /\ s <> "".

(** [e'] is [e] with other children: the same tag, attributes and text. *)
Definition same_shell (e e' : Element) : Prop :=
  tag e' = tag e /\ attrib e' = attrib e /\ text e' = text e.

(** The column yields a value for the row. *)
Definition valued (row : gmap string Cell) (item : string * Question) : Prop :=
  is_Some (field_value row item.1 item.2).

(** The item of the schema map is not of type geopoint. *)
Definition not_geopoint (item : string * Question) : Prop :=
  q_type item.2 <> Some "geopoint".

(** A cell of a file read with [dtype=str]: a text that is not empty, or
    NaN for an empty cell. *)
Definition file_cell (c : Cell) : Prop :=
  match c with
  | CStr s => s <> ""
  | CNaN => True
  | CInt _ | CNone => False
  end.

(* ===================================================================== *)
(** * Facts about Python strings                                          *)
(* ===================================================================== *)

Module PyStrFacts.
Import PyStr.

Lemma nonempty_true s : nonempty s = true <-> s <> "".
Proof. destruct s; simpl; split; intros; congruence. Qed.

Lemma nonempty_false s : nonempty s = false <-> s = "".
Proof. destruct s; simpl; split; intros; congruence. Qed.

Lemma app_cons c s t : String c s +:+ t = String c (s +:+ t).
Proof. reflexivity. Qed.

Lemma app_empty_l t : "" +:+ t = t.
Proof. reflexivity. Qed.

Lemma app_length s t : String.length (s +:+ t) = String.length s + String.length t.
Proof. induction s as [|c s IH]; [reflexivity|]. rewrite app_cons. simpl. lia. Qed.

Lemma lstrip_head s : head_nonspace (lstrip s).
Proof.
  induction s as [|c s IH]; simpl; [exact I|].
  destruct (isspace c) eqn:Hc; [exact IH | exact Hc].
Qed.

Lemma lstrip_id s : head_nonspace s -> lstrip s = s.
Proof. destruct s as [|c s]; simpl; [reflexivity|]. intros ->. reflexivity. Qed.

Lemma lstrip_length s : String.length (lstrip s) <= String.length s.
Proof.
  induction s as [|c s IH]; simpl; [lia|].
  destruct (isspace c); simpl; lia.
Qed.

Lemma rstrip_cons_nonspace c s :
  isspace c = false -> rstrip (String c s) = String c (rstrip s).
Proof. intros Hc. simpl. rewrite Hc. destruct (rstrip s); reflexivity. Qed.

Lemma rstrip_cons_cases c s :
  rstrip (String c s) = "" \/ rstrip (String c s) = String c (rstrip s).
Proof.
  simpl. destruct (rstrip s) eqn:Hr; [|right; reflexivity].
  destruct (isspace c); [left|right]; reflexivity.
Qed.

Lemma rstrip_cons_space c s :
  isspace c = true ->
  rstrip (String c s) = match rstrip s with "" => "" | r => String c r end.
Proof. intros Hc. simpl. rewrite Hc. reflexivity. Qed.

Lemma rstrip_idem s : rstrip (rstrip s) = rstrip s.
Proof.
  induction s as [|c s IH]; [reflexivity|].
  simpl. destruct (rstrip s) as [|d r] eqn:Hr.
  - destruct (isspace c) eqn:Hc; [reflexivity|].
    simpl. rewrite Hc. reflexivity.
  - change (rstrip (String c (String d r))) with
      (match rstrip (String d r) with
       | "" => if isspace c then "" else String c ""
       | r' => String c r'
       end).
    rewrite IH. reflexivity.
Qed.

Lemma rstrip_length s : String.length (rstrip s) <= String.length s.
Proof.
  induction s as [|c s IH]; simpl; [lia|].
  destruct (rstrip s); [destruct (isspace c)|]; simpl in *; lia.
Qed.

(** Trimming on the left and on the right commute. *)
Lemma rstrip_lstrip s : rstrip (lstrip s) = lstrip (rstrip s).
Proof.
  induction s as [|c s IH]; [reflexivity|].
  destruct (isspace c) eqn:Hc.
  - rewrite (rstrip_cons_space _ _ Hc). simpl lstrip at 1. rewrite Hc, IH.
    destruct (rstrip s) eqn:Hr; [reflexivity|].
    simpl. rewrite Hc. reflexivity.
  - rewrite (rstrip_cons_nonspace _ _ Hc). simpl. rewrite Hc.
    apply rstrip_cons_nonspace, Hc.
Qed.

Lemma strip_head s : head_nonspace (strip s).
Proof. unfold strip. rewrite rstrip_lstrip. apply lstrip_head. Qed.

Lemma strip_idem s : strip (strip s) = strip s.
Proof.
  unfold strip. rewrite (lstrip_id (rstrip (lstrip s))).
  - apply rstrip_idem.
  - apply strip_head.
Qed.

Lemma strip_rstrip s : rstrip (strip s) = strip s.
Proof. apply rstrip_idem. Qed.

Lemma strip_length s : String.length (strip s) <= String.length (rstrip s).
Proof. unfold strip. rewrite rstrip_lstrip. apply lstrip_length. Qed.

Lemma startswith_app p s : startswith p (p +:+ s) = true.
Proof.
  induction p as [|a p IH]; [reflexivity|].
  rewrite app_cons. simpl. rewrite Ascii.eqb_refl. exact IH.
Qed.

Lemma startswith_true p s : startswith p s = true <-> exists r, s = p +:+ r.
Proof.
  revert s. induction p as [|a p IH]; intros s.
  - split; [intros _; exists s; reflexivity | reflexivity].
  - destruct s as [|b s]; simpl.
    + split; [discriminate | intros [r Hr]; discriminate].
    + destruct (Ascii.eqb a b) eqn:Hab.
      * apply Ascii.eqb_eq in Hab as ->. rewrite IH.
        split; intros [r Hr]; exists r.
        -- rewrite app_cons. congruence.
        -- rewrite app_cons in Hr. congruence.
      * split; [discriminate|]. intros [r Hr].
        rewrite app_cons in Hr. injection Hr as -> _.
        rewrite Ascii.eqb_refl in Hab. discriminate.
Qed.

(** What begins the trimmed string begins the string: [rstrip] keeps a
    prefix. *)
Lemma startswith_rstrip p s : startswith p (rstrip s) = true -> startswith p s = true.
Proof.
  revert p. induction s as [|c s IH]; intros p; [exact id|].
  destruct p as [|a p]; [reflexivity|].
  destruct (rstrip_cons_cases c s) as [-> | ->]; [discriminate|].
  simpl. destruct (Ascii.eqb a c); [apply IH | exact id].
Qed.

End PyStrFacts.

(* ===================================================================== *)
(** * ID normalization                                                    *)
(* ===================================================================== *)

Section IdNormalization.
Import PyStr PyStrFacts.

Lemma uuid_app t :
  "uuid:" +:+ t = String "u" (String "u" (String "i" (String "d" (String ":" t)))).
Proof. reflexivity. Qed.

Lemma strip_uuid_app t : strip ("uuid:" +:+ t) = "uuid:" +:+ rstrip t.
Proof.
  unfold strip. rewrite !uuid_app. simpl lstrip.
  rewrite !rstrip_cons_nonspace by reflexivity. reflexivity.
Qed.

Lemma ensure_uuid_prefix_empty : ensure_uuid_prefix "" = "".
Proof. reflexivity. Qed.

(** On a non-empty string the result carries the prefix. *)
Lemma ensure_uuid_prefix_nonempty x :
  x <> "" ->
  ensure_uuid_prefix x =
    if startswith "uuid:" (strip x) then strip x else "uuid:" +:+ strip x.
Proof.
  intros Hx. unfold ensure_uuid_prefix.
  apply nonempty_true in Hx. rewrite Hx. reflexivity.
Qed.

Lemma ensure_uuid_prefix_prefixed x :
  x <> "" -> startswith "uuid:" (ensure_uuid_prefix x) = true.
Proof.
  intros Hx. rewrite ensure_uuid_prefix_nonempty by exact Hx.
  destruct (startswith "uuid:" (strip x)) eqn:Hs; [exact Hs|].
  apply startswith_app.
Qed.

(** A string that is trimmed and carries the prefix is left alone. *)
Lemma ensure_uuid_prefix_fixed s :
  strip s = s -> startswith "uuid:" s = true -> ensure_uuid_prefix s = s.
Proof.
  intros Hs Hp. unfold ensure_uuid_prefix. rewrite Hs, Hp.
  destruct s; reflexivity.
Qed.

Lemma ensure_uuid_prefix_uuid_app t :
  ensure_uuid_prefix ("uuid:" +:+ t) = "uuid:" +:+ rstrip t.
Proof.
  unfold ensure_uuid_prefix. rewrite strip_uuid_app, startswith_app.
  reflexivity.
Qed.

Lemma ensure_uuid_prefix_idempotent t :
  ensure_uuid_prefix (ensure_uuid_prefix t) = ensure_uuid_prefix t.
Proof.
  destruct (decide (t = "")) as [-> | Ht]; [reflexivity|].
  rewrite (ensure_uuid_prefix_nonempty t Ht).
  destruct (startswith "uuid:" (strip t)) eqn:Hs.
  - apply ensure_uuid_prefix_fixed; [apply strip_idem | exact Hs].
  - rewrite ensure_uuid_prefix_uuid_app, strip_rstrip. reflexivity.
Qed.

(** When prefixing a token by hand agrees with normalizing it. *)
Lemma ensure_uuid_prefix_uuid_app_iff t :
  ensure_uuid_prefix ("uuid:" +:+ t) = ensure_uuid_prefix t <->
  t <> "" /\ startswith "uuid:" (strip t) = false /\ rstrip t = strip t.
Proof.
  rewrite ensure_uuid_prefix_uuid_app.
  destruct (decide (t = "")) as [-> | Ht].
  { split; [discriminate | intros [H _]; congruence]. }
  rewrite (ensure_uuid_prefix_nonempty t Ht).
  destruct (startswith "uuid:" (strip t)) eqn:Hs.
  - split; [|intros (_ & H & _); discriminate].
    intros H. apply (f_equal String.length) in H.
    rewrite app_length in H. pose proof (strip_length t). simpl in H. lia.
  - split.
    + intros H. apply (inj (String.app "uuid:")) in H. auto.
    + intros (_ & _ & ->). reflexivity.
Qed.

End IdNormalization.

(** C1 (as amended). Normalization is idempotent on every token; prefixing a
    token with "uuid:" before normalizing gives the same result as
    normalizing the token itself exactly when the token is non-empty, its
    trimmed text does not already begin with "uuid:", and trimming it on the
    right alone already trims it (it has no leading whitespace, or is all
    whitespace). *)
Theorem ensure_uuid_prefix_roundtrip :
  (forall t, ensure_uuid_prefix (ensure_uuid_prefix t) = ensure_uuid_prefix t) /\
  (forall t,
     ensure_uuid_prefix ("uuid:" +:+ t) = ensure_uuid_prefix t <->
     t <> "" /\ PyStr.startswith "uuid:" (PyStr.strip t) = false
     /\ PyStr.rstrip t = PyStr.strip t).
Proof.
  split.
  - apply ensure_uuid_prefix_idempotent.
  - apply ensure_uuid_prefix_uuid_app_iff.
Qed.

(** C1, counterexample: on the empty token, on a token with leading
    whitespace and on a token that already carries the prefix, prefixing by
    hand changes the normal form. *)
Lemma ensure_uuid_prefix_roundtrip_counterexample :
  ensure_uuid_prefix ("uuid:" +:+ "") <> ensure_uuid_prefix "" /\
  ensure_uuid_prefix ("uuid:" +:+ " abc") <> ensure_uuid_prefix " abc" /\
  ensure_uuid_prefix ("uuid:" +:+ "uuid:abc") <> ensure_uuid_prefix "uuid:abc".
Proof. repeat split; vm_compute; discriminate. Qed.

(* ===================================================================== *)
(** * The existing-ID set                                                 *)
(* ===================================================================== *)

Section ExistingIds.
Import PyStr PyStrFacts.

(** Nothing is replaced in a string in which [old] does not occur. *)
Lemma replace_no_occurrence old new s :
  occurs old s = false -> replace old new s = s.
Proof.
  unfold replace. induction s as [|c s IH]; [reflexivity|].
  simpl. intros H. apply orb_false_iff in H as [H1 H2].
  simpl in H1. rewrite H1. f_equal. apply IH, H2.
Qed.

Lemma replace_uuid_app t : replace "uuid:" "" ("uuid:" +:+ t) = replace "uuid:" "" t.
Proof. reflexivity. Qed.

Lemma bare_form_uuid_app s :
  startswith "uuid:" s = true -> s = "uuid:" +:+ bare_form s.
Proof.
  intros H. unfold bare_form. rewrite H.
  apply startswith_true in H as [r ->]. reflexivity.
Qed.

(** The bare form is what [replace] leaves when the token holds no
    further "uuid:". *)
Lemma replace_bare_form s :
  occurs "uuid:" (bare_form s) = false -> replace "uuid:" "" s = bare_form s.
Proof.
  intros H. destruct (startswith "uuid:" s) eqn:Hs.
  - rewrite (bare_form_uuid_app s Hs) at 1.
    rewrite replace_uuid_app. apply replace_no_occurrence, H.
  - unfold bare_form in *. rewrite Hs in *. apply replace_no_occurrence, H.
Qed.

(** What the loop of [build_existing_id_set] adds to [ids]. *)
Lemma elem_of_id_fold (vals : list Cell) (ids : gset string) x :
  x ∈ fold_left
        (fun (ids : gset string) val =>
           let val_str := strip (py_str val) in
           ids ∪ {[ ensure_uuid_prefix val_str ]} ∪ {[ replace "uuid:" "" val_str ]})
        vals ids
  <-> x ∈ ids \/
      exists val, val ∈ vals /\
        (x = ensure_uuid_prefix (strip (py_str val))
         \/ x = replace "uuid:" "" (strip (py_str val))).
Proof.
  revert ids. induction vals as [|v vals IH]; intros ids; simpl.
  - split; [auto | intros [H | (val & H & _)]; [exact H | inversion H]].
  - rewrite IH. split.
    + intros [H | (val & Hin & H)].
      * apply elem_of_union in H as [H | H].
        -- apply elem_of_union in H as [H | H]; [left; exact H|].
           apply elem_of_singleton in H. right. exists v.
           split; [left | left; exact H].
        -- apply elem_of_singleton in H. right. exists v.
           split; [left | right; exact H].
      * right. exists val. split; [right; exact Hin | exact H].
    + intros [H | (val & Hin & H)].
      * left. apply elem_of_union. left. apply elem_of_union. left. exact H.
      * apply elem_of_cons in Hin as [-> | Hin].
        -- left. destruct H as [-> | ->].
           ++ apply elem_of_union. left. apply elem_of_union. right.
              apply elem_of_singleton. reflexivity.
           ++ apply elem_of_union. right. apply elem_of_singleton. reflexivity.
        -- right. exists val. auto.
Qed.

Lemma elem_of_build_existing_id_set df x :
  x ∈ build_existing_id_set (Some df) <->
  exists e, e ∈ df /\ notna (e_instanceID e) = true /\
    (x = ensure_uuid_prefix (strip (py_str (e_instanceID e)))
     \/ x = replace "uuid:" "" (strip (py_str (e_instanceID e)))).
Proof.
  unfold build_existing_id_set. destruct df as [|e0 df'].
  { split; [intros H; set_solver | intros (e & H & _); inversion H]. }
  rewrite elem_of_id_fold. split.
  - intros [H | (val & Hin & H)]; [set_solver|].
    apply list_elem_of_filter in Hin as [Hna Hin].
    apply list_elem_of_fmap in Hin as (e & -> & He).
    exists e. auto.
  - intros (e & He & Hna & H). right. exists (e_instanceID e). split; [|exact H].
    apply list_elem_of_filter. split; [exact Hna|].
    apply list_elem_of_fmap. exists e. auto.
Qed.

End ExistingIds.

(** Where the code does what the claim says.  For every record of the
    known-records table whose meta/instanceID is not missing, with [s] the
    trimmed text of that ID: the set holds the prefixed form of [s], and it
    holds the bare form of [s] whenever "uuid:" does not occur again inside
    that bare form. *)
Lemma build_existing_id_set_forms (df : list Entry) (e : Entry) :
  e ∈ df -> notna (e_instanceID e) = true ->
  let s := PyStr.strip (py_str (e_instanceID e)) in
  ensure_uuid_prefix s ∈ build_existing_id_set (Some df) /\
  (PyStr.occurs "uuid:" (bare_form s) = false ->
   bare_form s ∈ build_existing_id_set (Some df)).
Proof.
  intros He Hna s. split.
  - apply elem_of_build_existing_id_set. exists e. auto.
  - intros Hocc. apply elem_of_build_existing_id_set. exists e.
    split; [exact He|]. split; [exact Hna|]. right.
    symmetry. apply replace_bare_form, Hocc.
Qed.

(** C9, the code at the failing input.  For the canonical ID
    "uuid:a-uuid:b", whose bare form is "a-uuid:b", the set holds the
    prefixed form and "a-b", and nothing else: [val_str.replace("uuid:", "")]
    takes every occurrence of "uuid:" away, not the prefix alone, so the
    bare form is not in the set and a lookup with it fails.  From the
    canonical ID "uuid:xyz" of the claim the set holds "uuid:xyz" and
    "xyz". *)
Theorem build_existing_id_set_inner_prefix :
  let df := [mkEntry (CInt 7) (CStr "a-uuid:b") (CStr "uuid:a-uuid:b")] in
  bare_form "uuid:a-uuid:b" = "a-uuid:b" /\
  (forall x, x ∈ build_existing_id_set (Some df) <-> x = "uuid:a-uuid:b" \/ x = "a-b") /\
  ("a-uuid:b" ∉ build_existing_id_set (Some df)) /\
  (forall x, x ∈ build_existing_id_set
                 (Some [mkEntry (CInt 8) (CStr "xyz") (CStr "uuid:xyz")])
             <-> x = "uuid:xyz" \/ x = "xyz").
Proof.
  intros df.
  assert (Hset : forall x, x ∈ build_existing_id_set (Some df)
                           <-> x = "uuid:a-uuid:b" \/ x = "a-b").
  { intros x. rewrite elem_of_build_existing_id_set. split.
    - intros (e & He & _ & H). apply list_elem_of_singleton in He as ->. exact H.
    - intros H. exists (mkEntry (CInt 7) (CStr "a-uuid:b") (CStr "uuid:a-uuid:b")).
      split; [apply list_elem_of_here|]. split; [reflexivity | exact H]. }
  split; [reflexivity|]. split; [exact Hset|]. split.
  - intros H. apply Hset in H as [H | H]; discriminate.
  - intros x. rewrite elem_of_build_existing_id_set. split.
    + intros (e & He & _ & H). apply list_elem_of_singleton in He as ->. exact H.
    + intros H. exists (mkEntry (CInt 8) (CStr "xyz") (CStr "uuid:xyz")).
      split; [apply list_elem_of_here|]. split; [reflexivity | exact H].
Qed.

(* ===================================================================== *)
(** * Update-target resolution                                            *)
(* ===================================================================== *)

Section Resolution.
Import PyStr PyStrFacts.

Lemma blank_false val :
  blank val = false <-> notna val = true /\ strip (py_str val) <> "".
Proof.
  unfold blank. rewrite orb_false_iff, !negb_false_iff, nonempty_true. tauto.
Qed.

Lemma strip_nonempty s : strip s <> "" -> s <> "".
Proof. intros H ->. apply H. reflexivity. Qed.

(** Trimming first does not change the normal form of a text that is not
    blank. *)
Lemma ensure_uuid_prefix_strip s :
  strip s <> "" -> ensure_uuid_prefix (strip s) = ensure_uuid_prefix s.
Proof.
  intros H. rewrite (ensure_uuid_prefix_nonempty _ H).
  rewrite (ensure_uuid_prefix_nonempty _ (strip_nonempty _ H)).
  rewrite strip_idem. reflexivity.
Qed.

Lemma get_submission_id_direct row id_map_df val :
  first_notna row ["meta/instanceID"; "_uuid"] = Some val ->
  get_submission_id row id_map_df = Ok (Some (ensure_uuid_prefix (strip (py_str val)))).
Proof. intros H. unfold get_submission_id. rewrite H. reflexivity. Qed.

Lemma row_getitem_get row key :
  notna (row_get row key CNone) = true ->
  row_getitem row key = Ok (row_get row key CNone).
Proof.
  unfold row_get, row_getitem. destruct (row !! key); [reflexivity | discriminate].
Qed.

(** Without a direct ID the result is decided by the lookup of [_id]. *)
Lemma get_submission_id_lookup row id_map_df :
  first_notna row ["meta/instanceID"; "_uuid"] = None ->
  get_submission_id row id_map_df =
    Ok (let rid := row_get row "_id" CNone in
        match filter (fun e => cell_eqb (e_id e) rid = true) (default [] id_map_df) with
        | [e] => if notna rid then Some (ensure_uuid_prefix (py_str (e_instanceID e)))
                 else None
        | _ => None
        end).
Proof.
  intros H. unfold get_submission_id. rewrite H.
  destruct id_map_df as [[|e0 df]|]; [reflexivity| |reflexivity].
  change (default [] (Some (e0 :: df))) with (e0 :: df).
  generalize (e0 :: df). clear e0 df. intros df.
  destruct (notna (row_get row "_id" CNone)) eqn:Hid.
  - rewrite (row_getitem_get _ _ Hid). cbv beta iota zeta.
    destruct (filter (fun e => cell_eqb (e_id e) (row_get row "_id" CNone) = true) df)
      as [|e [|e' l]]; reflexivity.
  - cbv beta iota zeta.
    destruct (filter (fun e => cell_eqb (e_id e) (row_get row "_id" CNone) = true) df)
      as [|e [|e' l]]; reflexivity.
Qed.

End Resolution.

(** C2 (as amended). The direct columns are tried on "not missing"
    ([pd.notna]), not on "not blank": a meta/instanceID that is not missing,
    else a _uuid that is not missing, decides the result, which is its
    trimmed text normalized - the prefixed form when the cell is not blank,
    the empty string when it holds only whitespace.  When both are missing,
    the result is the canonical ID of the one known record with the _id of
    the row, and [None] when _id is missing or the number of such records
    is not one.  No case raises. *)
Theorem get_submission_id_order (row : gmap string Cell) (id_map_df : option (list Entry)) :
  let mi := row_get row "meta/instanceID" CNone in
  let uu := row_get row "_uuid" CNone in
  let rid := row_get row "_id" CNone in
  let matches := filter (fun e => cell_eqb (e_id e) rid = true) (default [] id_map_df) in
  let norm val := ensure_uuid_prefix (PyStr.strip (py_str val)) in
  (notna mi = true -> get_submission_id row id_map_df = Ok (Some (norm mi))) /\
  (notna mi = false -> notna uu = true ->
   get_submission_id row id_map_df = Ok (Some (norm uu))) /\
  (notna mi = false -> notna uu = false ->
   (forall e, notna rid = true -> matches = [e] ->
      get_submission_id row id_map_df
        = Ok (Some (ensure_uuid_prefix (py_str (e_instanceID e))))) /\
   (notna rid = false \/ length matches <> 1 ->
      get_submission_id row id_map_df = Ok None)) /\
  (forall val, blank val = false ->
     norm val = ensure_uuid_prefix (py_str val) /\
     PyStr.startswith "uuid:" (norm val) = true) /\
  (forall val, notna val = true -> blank val = true -> norm val = "") /\
  (exists r, get_submission_id row id_map_df = Ok r).
Proof.
  intros mi uu rid matches norm.
  assert (Hfirst : first_notna row ["meta/instanceID"; "_uuid"] =
                   if notna mi then Some mi else if notna uu then Some uu else None).
  { reflexivity. }
  subst mi uu rid matches norm. cbv beta.
  split; [|split; [|split; [|split; [|split]]]].
  - intros Hmi. rewrite Hmi in Hfirst. apply get_submission_id_direct, Hfirst.
  - intros Hmi Huu. rewrite Hmi, Huu in Hfirst.
    apply get_submission_id_direct, Hfirst.
  - intros Hmi Huu. rewrite Hmi, Huu in Hfirst.
    rewrite (get_submission_id_lookup _ _ Hfirst). cbv zeta. split.
    + intros e Hrid ->. rewrite Hrid. reflexivity.
    + intros [Hrid | Hlen].
      * rewrite Hrid. destruct (filter _ _) as [|e [|e' l]]; reflexivity.
      * destruct (filter _ _) as [|e [|e' l]]; [reflexivity | | reflexivity].
        exfalso. apply Hlen. reflexivity.
  - intros val Hval. apply blank_false in Hval as [_ Hne]. split.
    + apply ensure_uuid_prefix_strip, Hne.
    + apply ensure_uuid_prefix_prefixed, Hne.
  - intros val Hna Hbl. unfold blank in *. rewrite Hna in Hbl. simpl in Hbl.
    apply negb_true_iff, PyStrFacts.nonempty_false in Hbl. rewrite Hbl. reflexivity.
  - destruct (first_notna row ["meta/instanceID"; "_uuid"]) as [val|] eqn:Hf.
    + eexists. apply get_submission_id_direct, Hf.
    + eexists. apply get_submission_id_lookup, Hf.
Qed.

(** C2, witness: a direct ID; a missing meta/instanceID with a _uuid; both
    missing with one known record for the _id; and nothing at all. *)
Lemma get_submission_id_order_witness :
  get_submission_id (<["meta/instanceID" := CStr " abc "]> ∅) None = Ok (Some "uuid:abc") /\
  get_submission_id (<["meta/instanceID" := CNaN]> (<["_uuid" := CStr "k2"]> ∅)) None
    = Ok (Some "uuid:k2") /\
  get_submission_id (<["meta/instanceID" := CNaN]> (<["_id" := CInt 5]> ∅))
      (Some [mkEntry (CInt 5) (CStr "k1") (CStr "uuid:k1");
             mkEntry (CInt 6) (CStr "k3") (CStr "uuid:k3")])
    = Ok (Some "uuid:k1") /\
  get_submission_id ∅ (Some [mkEntry (CInt 5) (CStr "k1") (CStr "uuid:k1")]) = Ok None.
Proof.
  split; [|split; [|split]].
  - exact (proj1 (get_submission_id_order (<["meta/instanceID" := CStr " abc "]> ∅) None)
             eq_refl).
  - exact (proj1 (proj2 (get_submission_id_order
             (<["meta/instanceID" := CNaN]> (<["_uuid" := CStr "k2"]> ∅)) None))
             eq_refl eq_refl).
  - exact (proj1 (proj1 (proj2 (proj2 (get_submission_id_order
             (<["meta/instanceID" := CNaN]> (<["_id" := CInt 5]> ∅))
             (Some [mkEntry (CInt 5) (CStr "k1") (CStr "uuid:k1");
                    mkEntry (CInt 6) (CStr "k3") (CStr "uuid:k3")]))))
             eq_refl eq_refl) (mkEntry (CInt 5) (CStr "k1") (CStr "uuid:k1"))
             eq_refl eq_refl).
  - exact (proj2 (proj1 (proj2 (proj2 (get_submission_id_order ∅
             (Some [mkEntry (CInt 5) (CStr "k1") (CStr "uuid:k1")]))))
             eq_refl eq_refl) (or_introl eq_refl)).
Defined.

(** C2, counterexample: a row whose meta/instanceID holds one space and
    whose _uuid is absent has both direct IDs blank, and its _id names
    exactly one known record; the resolution order of the specification
    gives that record's ID, the code returns the empty string, which is
    neither that ID, nor in prefixed form, nor [None]. *)
Lemma get_submission_id_order_counterexample :
  let row : gmap string Cell := <["meta/instanceID" := CStr " "]> (<["_id" := CInt 5]> ∅) in
  let id_map_df := Some [mkEntry (CInt 5) (CStr "k1") (CStr "uuid:k1")] in
  blank (row_get row "meta/instanceID" CNone) = true /\
  blank (row_get row "_uuid" CNone) = true /\
  spec_get_submission_id row id_map_df = Some "uuid:k1" /\
  get_submission_id row id_map_df = Ok (Some "") /\
  get_submission_id row id_map_df <> Ok (spec_get_submission_id row id_map_df).
Proof. repeat split; vm_compute; discriminate. Qed.

(* ===================================================================== *)
(** * The value of a select_multiple cell                                 *)
(* ===================================================================== *)

Section SelectMultiple.
Import PyStr PyStrFacts.

Lemma fields_nonnil sep s : fields sep s <> [].
Proof.
  destruct s as [|c s]; simpl; [discriminate|].
  destruct (sep c); [discriminate|]. destruct (fields sep s); discriminate.
Qed.

(** The fields hold no separator. *)
Lemma fields_free sep s : Forall (free_of sep) (fields sep s).
Proof.
  induction s as [|c s IH]; simpl.
  - constructor; [exact I | constructor].
  - destruct (sep c) eqn:Hc.
    + constructor; [exact I | exact IH].
    + destruct (fields sep s) as [|t ts]; [constructor; [split; [exact Hc|exact I]|constructor]|].
      inversion IH; subst. constructor; [split; assumption | assumption].
Qed.

Lemma free_of_weaken (sep sep' : ascii -> bool) s :
  (forall c, sep' c = true -> sep c = true) -> free_of sep s -> free_of sep' s.
Proof.
  intros H. induction s as [|c s IH]; simpl; [auto|].
  intros [Hc Hs]. split; [|auto].
  destruct (sep' c) eqn:E; [|reflexivity]. rewrite (H _ E) in Hc. discriminate.
Qed.

Lemma rstrip_free s : free_of isspace s -> rstrip s = s.
Proof.
  induction s as [|c s IH]; [reflexivity|]. intros [Hc Hs].
  rewrite (rstrip_cons_nonspace _ _ Hc), (IH Hs). reflexivity.
Qed.

(** Trimming leaves a string without whitespace as it is. *)
Lemma strip_free s : free_of isspace s -> strip s = s.
Proof.
  intros H. unfold strip. rewrite lstrip_id.
  - apply rstrip_free, H.
  - destruct s; [exact I | apply H].
Qed.

Lemma is_separator_space c : isspace c = true -> is_separator c = true.
Proof. unfold is_separator. intros ->. apply orb_true_r. Qed.

(** Replacing the commas by spaces and splitting at whitespace, or
    splitting at commas and whitespace: the same fields. *)
Lemma fields_replace_comma s :
  fields isspace (replace "," " " s) = fields is_separator s.
Proof.
  unfold replace. induction s as [|c s IH]; [reflexivity|].
  cbn [replace_go startswith fields]. unfold is_separator at 1.
  rewrite (Ascii.eqb_sym c ","). destruct (Ascii.eqb "," c) eqn:Hc.
  - rewrite app_cons, app_empty_l. change (String.length "," - 1) with 0.
    cbn [fields orb]. change (isspace " ") with true. cbn iota.
    f_equal. exact IH.
  - cbn [fields orb]. rewrite IH. reflexivity.
Qed.

(** The comprehension [[t.strip() for t in l if t.strip()]] on strings that
    trimming leaves alone, after the empty ones were dropped. *)
Lemma strip_filter_fixed (l : list string) :
  Forall (fun t => strip t = t) l ->
  strip <$> filter (fun t => nonempty (strip t) = true)
              (filter (fun t => nonempty t = true) l)
  = filter (fun t => nonempty t = true) (strip <$> l).
Proof.
  induction 1 as [|t l Ht Hl IH]; [reflexivity|].
  rewrite fmap_cons, !filter_cons, Ht.
  destruct (decide (nonempty t = true)) as [Hn|Hn]; [|exact IH].
  rewrite filter_cons, Ht. destruct (decide (nonempty t = true)); [|contradiction].
  rewrite fmap_cons, Ht, IH. reflexivity.
Qed.

Lemma rstrip_empty_all_space s : rstrip s = "" -> all_space s.
Proof.
  induction s as [|c s IH]; [intros; exact I|].
  simpl. destruct (rstrip s) eqn:Hr; [|discriminate].
  destruct (isspace c) eqn:Hc; [|discriminate]. auto.
Qed.

Lemma lstrip_all_space s : all_space (lstrip s) -> all_space s.
Proof.
  induction s as [|c s IH]; [auto|]. simpl.
  destruct (isspace c) eqn:Hc; [auto|]. simpl. rewrite Hc. intros [H _]. discriminate.
Qed.

Lemma strip_empty_all_space s : strip s = "" -> all_space s.
Proof. intros H. apply lstrip_all_space, rstrip_empty_all_space, H. Qed.

Lemma fields_all_space s :
  all_space s -> filter (fun t => nonempty t = true) (strip <$> fields is_separator s) = [].
Proof.
  induction s as [|c s IH]; [reflexivity|]. intros [Hc Hs].
  simpl. rewrite (is_separator_space _ Hc). apply (IH Hs).
Qed.

(** The value computed by the code is the one the specification words. *)
Lemma field_value_select_multiple row path q_info :
  q_type q_info = Some "select_multiple" ->
  field_value row path q_info =
    match row !! path with
    | Some (CStr s) => spec_select_multiple s
    | _ => None
    end.
Proof.
  intros Hq. unfold field_value. rewrite Hq.
  rewrite bool_decide_eq_false_2 by discriminate.
  rewrite bool_decide_eq_true_2 by reflexivity.
  destruct (row !! path) as [[s| | |]|]; try reflexivity.
  unfold spec_select_multiple, split. rewrite fields_replace_comma.
  rewrite strip_filter_fixed; [reflexivity|].
  eapply Forall_impl; [apply fields_free|].
  intros t Ht. apply strip_free. eapply free_of_weaken; [|exact Ht].
  apply is_separator_space.
Qed.

End SelectMultiple.

(** C6. For a select_multiple column path, the value encoded for a cell
    that is a string is the one obtained by splitting it on commas and
    whitespace, trimming the tokens, dropping the empty ones and joining
    the rest, in order, with single spaces ("a, b,c" gives "a b c"); a
    leaf element with that text is appended under the nested parent of
    the path.  A cell that is absent, not a string, empty or blank gives
    no value, and the tree is left as it is. *)
Theorem select_multiple_encoding (row : gmap string Cell) (root : Element)
    (path : string) (q_info : Question) :
  q_type q_info = Some "select_multiple" ->
  let value :=
    match row !! path with
    | Some (CStr s) => spec_select_multiple s
    | _ => None
    end in
  field_value row path q_info = value /\
  encode_field row root (path, q_info) =
    match value with
    | Some v =>
        ensure_nested (removelast (PyStr.split_on "/" path))
          (fun parent =>
             set_children parent
               (children parent
                  ++ [Elem (List.last (PyStr.split_on "/" path) "") [] (Some v) []]))
          root
    | None => root
    end /\
  spec_select_multiple "a, b,c" = Some "a b c" /\
  (forall s, PyStr.strip s = "" -> spec_select_multiple s = None).
Proof.
  intros Hq value. split; [|split; [|split]].
  - apply field_value_select_multiple, Hq.
  - unfold encode_field. cbn [fst snd].
    rewrite (field_value_select_multiple _ _ _ Hq). fold value.
    destruct value; reflexivity.
  - reflexivity.
  - intros s Hs. unfold spec_select_multiple.
    rewrite (fields_all_space s); [reflexivity|].
    apply strip_empty_all_space, Hs.
Qed.

(** C6, witness: the cell "a, b,c" of the column "grp/sel". *)
Lemma select_multiple_encoding_witness :
  field_value (<["grp/sel" := CStr "a, b,c"]> ∅) "grp/sel"
    (mkQuestion (Some "select_multiple") (Name "sel") (Some "l1") (Some (Some "l1")))
  = Some "a b c".
Proof.
  exact (proj1 (select_multiple_encoding (<["grp/sel" := CStr "a, b,c"]> ∅)
                  (Elem "form" [] None []) "grp/sel"
                  (mkQuestion (Some "select_multiple") (Name "sel") (Some "l1")
                     (Some (Some "l1")))
                  eq_refl)).
Defined.

(* ===================================================================== *)
(** * The value of a geopoint                                             *)
(* ===================================================================== *)

Section Geopoint.
Import PyStr PyStrFacts.

(** The text the code reads from a coordinate cell, against the value of
    the cell: they agree on an absent cell and on a cell that is not
    missing. *)
Lemma coordinate_text row key :
  match row !! key with Some val => notna val = true | None => True end ->
  cell_text (row !! key) =
    let s := strip (py_str (row_get row key (CStr ""))) in
    if nonempty s then Some s else None.
Proof.
  unfold row_get, cell_text, blank. destruct (row !! key) as [val|]; [|reflexivity].
  intros ->. simpl. destruct (nonempty (strip (py_str val))); reflexivity.
Qed.

Lemma optional_text row key d :
  match row !! key with Some val => blank val = false | None => True end ->
  default d (cell_text (row !! key)) = strip (py_str (row_get row key (CStr d))) \/
  row !! key = None.
Proof.
  unfold row_get, cell_text. destruct (row !! key) as [val|]; [|auto].
  intros ->. left. reflexivity.
Qed.

(** Where the code agrees with the specification's geopoint: latitude and
    longitude absent or not missing, altitude and precision absent or not
    blank. *)
Lemma field_value_geopoint row path q_info :
  q_type q_info = Some "geopoint" ->
  match row !! (path +:+ "_latitude") with Some v => notna v = true | None => True end ->
  match row !! (path +:+ "_longitude") with Some v => notna v = true | None => True end ->
  match row !! (path +:+ "_altitude") with Some v => blank v = false | None => True end ->
  match row !! (path +:+ "_precision") with Some v => blank v = false | None => True end ->
  field_value row path q_info = spec_geopoint row path.
Proof.
  intros Hq Hlat Hlon Halt Hacc. unfold field_value, spec_geopoint.
  rewrite Hq, bool_decide_eq_true_2 by reflexivity.
  rewrite (coordinate_text _ _ Hlat), (coordinate_text _ _ Hlon). cbv zeta.
  destruct (nonempty (strip (py_str (row_get row (path +:+ "_latitude") (CStr "")))));
    [|reflexivity].
  destruct (nonempty (strip (py_str (row_get row (path +:+ "_longitude") (CStr "")))));
    [|reflexivity].
  cbn [andb].
  assert (Ha : default "0" (cell_text (row !! (path +:+ "_altitude")))
               = strip (py_str (row_get row (path +:+ "_altitude") (CStr "0")))).
  { destruct (optional_text row (path +:+ "_altitude") "0" Halt) as [H | H]; [exact H|].
    unfold row_get. rewrite H. reflexivity. }
  assert (Hp : default "0.0" (cell_text (row !! (path +:+ "_precision")))
               = strip (py_str (row_get row (path +:+ "_precision") (CStr "0.0")))).
  { destruct (optional_text row (path +:+ "_precision") "0.0" Hacc) as [H | H]; [exact H|].
    unfold row_get. rewrite H. reflexivity. }
  rewrite Ha, Hp. reflexivity.
Qed.

End Geopoint.

(** C3, the code at the failing inputs.  For the geopoint path "loc": a row
    with latitude "1" and longitude "2" whose altitude and precision cells
    are empty (NaN) is encoded as "1 2 nan nan", where the specification
    gives "1 2 0 0.0"; with a whitespace altitude the text is "1 2  0.0";
    and a row whose four cells are all empty is encoded as
    "nan nan nan nan", where the specification emits no element. *)
Theorem geopoint_missing_cells :
  let geo := mkQuestion (Some "geopoint") (Name "loc") None None in
  let row1 : gmap string Cell :=
    <["loc_latitude" := CStr "1"]> (<["loc_longitude" := CStr "2"]>
      (<["loc_altitude" := CNaN]> (<["loc_precision" := CNaN]> ∅))) in
  let row2 : gmap string Cell :=
    <["loc_latitude" := CStr "1"]> (<["loc_longitude" := CStr "2"]>
      (<["loc_altitude" := CStr " "]> ∅)) in
  let row3 : gmap string Cell :=
    <["loc_latitude" := CNaN]> (<["loc_longitude" := CNaN]>
      (<["loc_altitude" := CNaN]> (<["loc_precision" := CNaN]> ∅))) in
  (spec_geopoint row1 "loc" = Some "1 2 0 0.0" /\
   field_value row1 "loc" geo = Some "1 2 nan nan") /\
  (spec_geopoint row2 "loc" = Some "1 2 0 0.0" /\
   field_value row2 "loc" geo = Some "1 2  0.0") /\
  (spec_geopoint row3 "loc" = None /\
   field_value row3 "loc" geo = Some "nan nan nan nan" /\
   forall uuid4,
     row_to_xml row3 "form" [("loc", geo)] None uuid4 =
       Elem "form" [("id", "form")] None
         [Elem "loc" [] (Some "nan nan nan nan") [];
          Elem "meta" [] None [Elem "instanceID" [] (Some ("uuid:" +:+ uuid4)) []]]).
Proof. repeat split. Qed.

(* ===================================================================== *)
(** * The schema flattener                                                *)
(* ===================================================================== *)

Section Flattener.
Import PyStr PyStrFacts.


(** ** Stacks of names *)

Lemma all_str_app l1 l2 :
  all_str (l1 ++ l2)
  = match all_str l1, all_str l2 with
    | Some s1, Some s2 => Some (s1 ++ s2)
    | _, _ => None
    end.
Proof.
  induction l1 as [|[s|] l1 IH]; cbn [all_str app].
  - destruct (all_str l2); reflexivity.
  - rewrite IH. destruct (all_str l1), (all_str l2); reflexivity.
  - reflexivity.
Qed.

Lemma all_str_fmap_Some (names : list string) : all_str (Some <$> names) = Some names.
Proof.
  induction names as [|s names IH]; [reflexivity|].
  rewrite fmap_cons. cbn [all_str]. rewrite IH. reflexivity.
Qed.

Lemma all_str_Some l names : all_str l = Some names -> l = Some <$> names.
Proof.
  revert names. induction l as [|[s|] l IH]; intros names; cbn [all_str].
  - intros [= <-]. reflexivity.
  - destruct (all_str l) as [names'|]; [|discriminate].
    intros [= <-]. rewrite (IH names' eq_refl). reflexivity.
  - discriminate.
Qed.

(** The path of a leaf under groups that all have a name. *)
Lemma py_join_names sep stack names name :
  all_str stack = Some names ->
  py_join sep (stack ++ [Some name]) = Ok (join sep (names ++ [name])).
Proof. intros H. unfold py_join. rewrite all_str_app, H. reflexivity. Qed.

(** The path of a leaf under a group whose name is null. *)
Lemma py_join_null sep stack name :
  all_str stack = None -> py_join sep (stack ++ [Some name]) = Raise TypeError.
Proof. intros H. unfold py_join. rewrite all_str_app, H. reflexivity. Qed.

(** What the join of a path returns, when it returns. *)
Lemma py_join_Ok sep stack name path :
  py_join sep (stack ++ [Some name]) = Ok path ->
  exists names, all_str stack = Some names /\ path = join sep (names ++ [name]).
Proof.
  unfold py_join. rewrite all_str_app.
  destruct (all_str stack) as [names|]; [|discriminate].
  intros [= <-]. eauto.
Qed.

(** The name that an open marker pushes, when it is not null. *)
Lemma q_name_or_group_not_null q :
  q_name_key q <> NullName -> q_name_or_group q = Some (default "group" (q_name q)).
Proof.
  unfold q_name_or_group, q_name. destruct (q_name_key q); [reflexivity | contradiction
                                                           | reflexivity].
Qed.

(** An open marker pushes the name of the group. *)
Lemma flatten_loop_begin q rest cols stack :
  is_group_marker (default "" (q_type q)) = true ->
  startswith "begin" (default "" (q_type q)) = true ->
  flatten_loop (q :: rest) cols stack
  = flatten_loop rest cols (stack ++ [q_name_or_group q]).
Proof. intros H1 H2. cbn [flatten_loop]. rewrite H1, H2. reflexivity. Qed.


(** A close marker with no open group does nothing. *)
Lemma flatten_loop_end_empty q rest cols :
  is_group_marker (default "" (q_type q)) = true ->
  startswith "begin" (default "" (q_type q)) = false ->
  flatten_loop (q :: rest) cols [] = flatten_loop rest cols [].
Proof. intros H1 H2. cbn [flatten_loop]. rewrite H1, H2. reflexivity. Qed.

(** A node without a name is skipped. *)
Lemma flatten_loop_unnamed q rest cols stack :
  is_group_marker (default "" (q_type q)) = false ->
  q_name q = None ->
  flatten_loop (q :: rest) cols stack = flatten_loop rest cols stack.
Proof. intros H1 H2. cbn [flatten_loop]. rewrite H1, H2. reflexivity. Qed.

(** A node with an empty or reserved name is skipped. *)
Lemma flatten_loop_reserved q rest cols stack name :
  is_group_marker (default "" (q_type q)) = false ->
  q_name q = Some name -> column_name name = false ->
  flatten_loop (q :: rest) cols stack = flatten_loop rest cols stack.
Proof.
  intros H1 H2 H3. cbn [flatten_loop]. rewrite H1, H2.
  unfold column_name in H3.
  destruct (nonempty name); [|reflexivity].
  destruct (startswith "_" name); [reflexivity | discriminate].
Qed.

Lemma column_name_test name :
  column_name name = true ->
  negb (nonempty name) || startswith "_" name = false.
Proof.
  unfold column_name. intros H. apply andb_true_iff in H as [-> H].
  apply negb_true_iff in H as ->. reflexivity.
Qed.




(** A leaf with a column name under a group whose name is null: the join
    of its path raises. *)
Lemma flatten_loop_null_group q rest cols stack name :
  all_str stack = None ->
  is_group_marker (default "" (q_type q)) = false ->
  q_name q = Some name -> column_name name = true ->
  flatten_loop (q :: rest) cols stack = Raise TypeError.
Proof.
  intros Hs H1 H2 H3. cbn [flatten_loop]. rewrite H1, H2.
  rewrite (column_name_test _ H3), (py_join_null _ _ _ Hs). reflexivity.
Qed.

Lemma all_str_removelast stack names :
  all_str stack = Some names -> all_str (removelast stack) = Some (removelast names).
Proof.
  intros H. apply all_str_Some in H as ->.
  assert (E : removelast (Some <$> names) = Some <$> removelast names).
  { induction names as [|s [|s' names] IH]; [reflexivity | reflexivity|].
    change (removelast (Some <$> s :: s' :: names))
      with (Some s :: removelast (Some <$> s' :: names)).
    rewrite IH. reflexivity. }
  rewrite E. apply all_str_fmap_Some.
Qed.

(** The loop returns when no open marker has a null name: every name on
    the stack is then a string. *)
Lemma flatten_loop_total survey :
  Forall (fun q => opens_null_group q = false) survey ->
  forall cols stack names,
    all_str stack = Some names -> exists r, flatten_loop survey cols stack = Ok r.
Proof.
  induction 1 as [|q rest Hq _ IH]; intros cols stack names Hs; [eexists; reflexivity|].
  cbn [flatten_loop]. unfold opens_null_group in Hq.
  destruct (is_group_marker (default "" (q_type q))).
  - destruct (startswith "begin" (default "" (q_type q))).
    + cbn [andb] in Hq.
      apply (IH cols _ (names ++ [default "group" (q_name q)])).
      rewrite all_str_app, Hs, q_name_or_group_not_null; [reflexivity|].
      intros E. rewrite E in Hq. discriminate.
    + destruct stack as [|g stack]; [apply (IH cols [] []); reflexivity|].
      cbn [py_pop]. apply (IH cols _ (removelast names)).
      apply all_str_removelast, Hs.
  - destruct (q_name q) as [name|]; [|apply (IH cols stack names Hs)].
    destruct (negb (nonempty name) || startswith "_" name);
      [apply (IH cols stack names Hs)|].
    rewrite (py_join_names _ _ _ _ Hs).
    destruct (str_eqb (default "" (q_type q)) "geopoint"); [apply (IH _ stack names Hs)|].
    destruct (str_eqb (default "" (q_type q)) "select_multiple");
      apply (IH _ stack names Hs).
Qed.

(** ** The dict of the schema map *)

Lemma elem_of_dict_set_keys {V} (k : string) (v : V) d x :
  x ∈ (dict_set k v d).*1 <-> x = k \/ x ∈ d.*1.
Proof.
  induction d as [|[k' v'] d IH]; simpl.
  - rewrite elem_of_cons. reflexivity.
  - unfold str_eqb. destruct (bool_decide_reflect (k = k')) as [<- | Hne]; simpl.
    + rewrite !elem_of_cons. tauto.
    + rewrite !elem_of_cons, IH. tauto.
Qed.

Lemma elem_of_dict_fold_keys {V} (items d : list (string * V)) x :
  x ∈ (fold_left (fun d kv => dict_set kv.1 kv.2 d) items d).*1
  <-> x ∈ d.*1 \/ x ∈ items.*1.
Proof.
  revert d. induction items as [|[k v] items IH]; intros d; simpl.
  - split; [auto | intros [H | H]; [exact H | inversion H]].
  - rewrite IH, elem_of_dict_set_keys, elem_of_cons. tauto.
Qed.

(** The keys of the dict are the keys of its items. *)
Lemma elem_of_dict_of_items_keys {V} (items : list (string * V)) x :
  x ∈ (dict_of_items items).*1 <-> x ∈ items.*1.
Proof.
  unfold dict_of_items. rewrite elem_of_dict_fold_keys. simpl.
  split; [intros [H | H]; [inversion H | exact H] | auto].
Qed.




(** ** The columns of the template *)

(** The system columns that are not yet columns are appended, in order. *)
Lemma add_system_columns_spec (columns : list string) :
  add_system_columns columns
  = columns ++ filter (fun col => col ∉ columns) system_columns.
Proof.
  unfold add_system_columns, system_columns. cbn [fold_left].
  rewrite !filter_cons, filter_nil.
  destruct (decide ("meta/instanceID" ∉ columns)) as [H1|H1];
  destruct (decide ("_uuid" ∉ columns)) as [H2|H2];
  destruct (decide ("_id" ∉ columns)) as [H3|H3];
  repeat match goal with
    | H : ¬ (_ ∉ _) |- _ => apply dec_stable in H
    | |- context [bool_decide (?x ∈ ?l)] =>
        first [ rewrite (bool_decide_eq_true_2 (x ∈ l))
                  by (repeat (rewrite elem_of_app); auto)
              | rewrite (bool_decide_eq_false_2 (x ∈ l))
                  by (repeat (rewrite elem_of_app); rewrite ?elem_of_cons, ?elem_of_nil;
                      intros Hx; decompose [or] Hx; try contradiction; discriminate) ]
    end;
  rewrite <- ?app_assoc, ?app_nil_r; reflexivity.
Qed.

Lemma system_columns_in_template columns col :
  col ∈ system_columns -> col ∈ add_system_columns columns.
Proof.
  intros H. rewrite add_system_columns_spec, elem_of_app.
  destruct (decide (col ∈ columns)) as [Hc|Hc]; [left; exact Hc|].
  right. apply list_elem_of_filter. auto.
Qed.

End Flattener.

Section FlattenerColumns.
Import PyStr PyStrFacts.

Lemma column_name_head name s t :
  column_name name = true -> name +:+ s <> String "_" t.
Proof.
  unfold column_name. destruct name as [|c name]; [discriminate|].
  simpl. rewrite app_cons. intros H E. injection E as -> _.
  discriminate.
Qed.

Lemma column_name_not_reserved name t :
  column_name name = true -> name <> String "_" t.
Proof.
  unfold column_name. destruct name as [|c name]; [discriminate|].
  simpl. intros H E. injection E as -> _. discriminate.
Qed.

Lemma slash_app_not_free g n : ~ free_of (Ascii.eqb "/") (g +:+ "/" +:+ n).
Proof.
  induction g as [|c g IH]; simpl.
  - intros [H _]. discriminate.
  - rewrite app_cons. intros [_ H]. exact (IH H).
Qed.

Lemma slash_app_neq g n x : free_of (Ascii.eqb "/") x -> g +:+ "/" +:+ n <> x.
Proof. intros Hx E. subst x. exact (slash_app_not_free _ _ Hx). Qed.

End FlattenerColumns.



(** C10, the code at the failing input.  A survey with an open marker
    whose name is null, followed by a question: [q.get("name", "group")]
    gives [None] for the null name - the default stands in for a missing
    key only -, [None] is pushed on the stack, and the join of the path of
    the question raises a [TypeError]; so does [build_template_df].  With
    the name missing, the same survey gives the column "group/a".

    Where the code does what the claim says: the flattener returns for
    every survey in which no open marker has a null name; a close marker
    met with no open group changes nothing; a node that is not a group
    marker and has no name, a null or an empty name, or a name that begins
    with an underscore is skipped; and an asset without content or without
    survey gives a template with the system columns alone and an empty
    schema map. *)
Theorem flatten_survey_null_group :
  let q := mkQuestion (Some "text") (Name "a") None None in
  let nodes := [mkQuestion (Some "begin_group") NullName None None; q] in
  (forall choice_lists, flatten_survey nodes choice_lists = Raise TypeError) /\
  build_template_df (mkAsset (Some (mkContent (Some nodes) None))) = Raise TypeError /\
  (forall choice_lists,
     flatten_survey [mkQuestion (Some "begin_group") NoKey None None; q] choice_lists
     = Ok [("group/a", q)]) /\
  (forall nodes' choice_lists,
     Forall (fun q => opens_null_group q = false) nodes' ->
     exists cols, flatten_survey nodes' choice_lists = Ok cols) /\
  (forall q rest cols,
     is_group_marker (default "" (q_type q)) = true ->
     PyStr.startswith "begin" (default "" (q_type q)) = false ->
     flatten_loop (q :: rest) cols [] = flatten_loop rest cols []) /\
  (forall q rest cols stack,
     is_group_marker (default "" (q_type q)) = false ->
     match q_name q with
     | None => True
     | Some name => name = "" \/ PyStr.startswith "_" name = true
     end ->
     flatten_loop (q :: rest) cols stack = flatten_loop rest cols stack) /\
  (forall asset,
     default [] (survey (default (mkContent None None) (content asset))) = [] ->
     build_template_df asset = Ok (system_columns, [])).
Proof.
  intros q nodes. split; [|split; [|split; [|split; [|split; [|split]]]]].
  - intros choice_lists. unfold flatten_survey, nodes.
    rewrite flatten_loop_begin by reflexivity.
    apply (flatten_loop_null_group _ _ _ _ "a"); reflexivity.
  - reflexivity.
  - intros choice_lists. reflexivity.
  - intros nodes' choice_lists Hnodes.
    apply (flatten_loop_total nodes' Hnodes [] [] []). reflexivity.
  - intros q' rest cols. apply flatten_loop_end_empty.
  - intros q' rest cols stack Hm Hn.
    destruct (q_name q') as [name|] eqn:Hq.
    + apply (flatten_loop_reserved _ _ _ _ name Hm Hq).
      unfold column_name. destruct Hn as [-> | ->]; [reflexivity|].
      apply andb_false_r.
    + apply flatten_loop_unnamed; assumption.
  - intros asset H. unfold build_template_df, flatten_survey.
    rewrite H. reflexivity.
Qed.

(* ===================================================================== *)
(** * The tree under construction                                         *)
(* ===================================================================== *)

Section Tree.

Implicit Types (p q s a : string) (cs : list Element) (k : Element -> Element).

Lemma str_eqb_true a b : str_eqb a b = true <-> a = b.
Proof. unfold str_eqb. apply bool_decide_eq_true. Qed.

Lemma str_eqb_refl a : str_eqb a a = true.
Proof. apply str_eqb_true. reflexivity. Qed.

Lemma str_eqb_neq a b : a <> b -> str_eqb a b = false.
Proof. unfold str_eqb. apply bool_decide_eq_false_2. Qed.

Lemma find_first_app p cs l :
  find_first p (cs ++ l) =
    match find_first p cs with
    | Some c => Some c
    | None => find_first p l
    end.
Proof.
  induction cs as [|c cs IH]; [reflexivity|]. simpl.
  destruct (str_eqb (tag c) p); [reflexivity | exact IH].
Qed.

Lemma find_first_tag p cs c : find_first p cs = Some c -> tag c = p.
Proof.
  induction cs as [|c' cs IH]; [discriminate|]. simpl. unfold str_eqb.
  destruct (bool_decide_reflect (tag c' = p)) as [E|E]; [|exact IH].
  intros [= <-]. exact E.
Qed.

Lemma find_first_None p cs : find_first p cs = None <-> p ∉ tag <$> cs.
Proof.
  induction cs as [|c cs IH]; simpl.
  - split; [intros _ H; inversion H | reflexivity].
  - unfold str_eqb. rewrite not_elem_of_cons.
    destruct (bool_decide_reflect (tag c = p)) as [E|E].
    + split; [discriminate | intros [H _]; congruence].
    + rewrite IH. split; [intros H; split; [congruence | exact H] | tauto].
Qed.

Lemma tags_alter_first p k cs :
  tag_preserving k -> tag <$> alter_first p k cs = tag <$> cs.
Proof.
  intros Hk. induction cs as [|c cs IH]; [reflexivity|]. cbn [alter_first].
  destruct (str_eqb (tag c) p); rewrite !fmap_cons; [rewrite Hk | rewrite IH]; reflexivity.
Qed.

(** The element that [find] returns is the one that is changed. *)
Lemma find_first_alter_same p k cs :
  tag_preserving k -> find_first p (alter_first p k cs) = k <$> find_first p cs.
Proof.
  intros Hk. induction cs as [|c cs IH]; [reflexivity|]. simpl.
  destruct (str_eqb (tag c) p) eqn:E; simpl.
  - rewrite Hk, E. reflexivity.
  - rewrite E. exact IH.
Qed.

Lemma find_first_alter_other p q k cs :
  q <> p -> tag_preserving k -> find_first p (alter_first q k cs) = find_first p cs.
Proof.
  intros Hne Hk. induction cs as [|c cs IH]; [reflexivity|]. cbn [alter_first].
  destruct (str_eqb (tag c) q) eqn:Eq; cbn [find_first].
  - apply str_eqb_true in Eq. rewrite Hk.
    rewrite (str_eqb_neq (tag c) p) by congruence. reflexivity.
  - destruct (str_eqb (tag c) p); [reflexivity | exact IH].
Qed.

Lemma children_set_children e cs : children (set_children e cs) = cs.
Proof. destruct e; reflexivity. Qed.

Lemma tag_set_children e cs : tag (set_children e cs) = tag e.
Proof. destruct e; reflexivity. Qed.

Lemma children_set_text v e : children (set_text v e) = children e.
Proof. destruct e; reflexivity. Qed.

Lemma text_set_text v e : text (set_text v e) = Some v.
Proof. destruct e; reflexivity. Qed.

Lemma set_text_tag_preserving v : tag_preserving (set_text v).
Proof. intros []; reflexivity. Qed.

Lemma sub_element_tag_preserving p k : tag_preserving (sub_element p k).
Proof. intros e. apply tag_set_children. Qed.

Lemma ensure_nested_tag_preserving path k :
  tag_preserving k -> tag_preserving (ensure_nested path k).
Proof.
  intros Hk e. destruct path as [|p path]; simpl; [apply Hk|].
  destruct (find e p); [apply tag_set_children | apply sub_element_tag_preserving].
Qed.

Lemma find_or_sub_element_tag_preserving p k : tag_preserving (find_or_sub_element p k).
Proof.
  intros e. unfold find_or_sub_element.
  destruct (find e p) as [c|]; [destruct (truthy c)|];
    first [apply tag_set_children | apply sub_element_tag_preserving].
Qed.

Lemma fill_meta_tag_preserving dep u : tag_preserving (fill_meta dep u).
Proof.
  intros e. unfold fill_meta.
  destruct dep as [d|]; [destruct (PyStr.nonempty d)|];
    rewrite ?sub_element_tag_preserving; apply find_or_sub_element_tag_preserving.
Qed.

(** ** How one mutation changes the children of a node *)

Lemma child_tags_sub_element p k node :
  tag_preserving k -> child_tags (sub_element p k node) = child_tags node ++ [p].
Proof.
  intros Hk. unfold child_tags, sub_element.
  rewrite children_set_children, fmap_app. simpl. rewrite Hk. reflexivity.
Qed.

Lemma find_sub_element p k node s :
  tag_preserving k ->
  find (sub_element p k node) s =
    match find node s with
    | Some c => Some c
    | None => if str_eqb p s then Some (k (Elem p [] None [])) else None
    end.
Proof.
  intros Hk. unfold find, sub_element.
  rewrite children_set_children, find_first_app. simpl. rewrite Hk. reflexivity.
Qed.

Lemma sub_element_appended p k node :
  tag_preserving k -> appended p (k (Elem p [] None [])) node (sub_element p k node).
Proof.
  intros Hk. split.
  - apply child_tags_sub_element, Hk.
  - intros s. apply find_sub_element, Hk.
Qed.

Lemma alter_first_altered p k node c :
  tag_preserving k -> find node p = Some c ->
  altered p k node (set_children node (alter_first p k (children node))).
Proof.
  intros Hk Hc. exists c. split; [exact Hc|]. split; [|split].
  - unfold child_tags. rewrite children_set_children. apply tags_alter_first, Hk.
  - unfold find in *. rewrite children_set_children, find_first_alter_same, Hc by exact Hk.
    reflexivity.
  - intros s Hs. unfold find. rewrite children_set_children.
    apply find_first_alter_other; [congruence | exact Hk].
Qed.

(** A step of [ensure_nested] goes through the first child with the tag of
    the segment, and makes that child when there is none. *)
Lemma ensure_nested_step p path k node :
  tag_preserving k ->
  let node' := ensure_nested (p :: path) k node in
  altered p (ensure_nested path k) node node' \/
  (find node p = None /\
   appended p (ensure_nested path k (Elem p [] None [])) node node').
Proof.
  intros Hk. pose proof (ensure_nested_tag_preserving path k Hk) as Hk'.
  simpl. destruct (find node p) as [c|] eqn:Hc.
  - left. apply (alter_first_altered _ _ _ c Hk' Hc).
  - right. split; [reflexivity|]. apply sub_element_appended, Hk'.
Qed.

(** [find(p) or SubElement(p)] goes through the first child with tag [p]
    when it has children, and through a new last child otherwise. *)
Lemma find_or_sub_element_step p k node :
  tag_preserving k ->
  let node' := find_or_sub_element p k node in
  (altered p k node node' /\ exists c, find node p = Some c /\ truthy c = true) \/
  (appended p (k (Elem p [] None [])) node node' /\
   forall c, find node p = Some c -> truthy c = false).
Proof.
  intros Hk. unfold find_or_sub_element.
  destruct (find node p) as [c|] eqn:Hc; [destruct (truthy c) eqn:Ht|].
  - left. split; [apply (alter_first_altered _ _ _ c Hk Hc) | eauto].
  - right. split; [apply sub_element_appended, Hk|].
    intros c' [= <-]. exact Ht.
  - right. split; [apply sub_element_appended, Hk | discriminate].
Qed.

End Tree.

(* ===================================================================== *)
(** * Shared group elements                                               *)
(* ===================================================================== *)

Section SharedGroups.

Implicit Types (p s a : string) (pre : list string) (k f : Element -> Element).

Lemma count_tag_same s node node' :
  child_tags node' = child_tags node -> count_tag s node' = count_tag s node.
Proof. unfold count_tag. intros ->. reflexivity. Qed.

Lemma count_tag_appended s p node node' :
  child_tags node' = child_tags node ++ [p] ->
  count_tag s node' = count_tag s node + (if str_eqb p s then 1 else 0).
Proof.
  unfold count_tag. intros ->. rewrite filter_app, length_app. f_equal.
  rewrite filter_cons, filter_nil. unfold str_eqb.
  destruct (decide (p = s)) as [E|E].
  - rewrite bool_decide_eq_true_2 by exact E. reflexivity.
  - rewrite bool_decide_eq_false_2 by exact E. reflexivity.
Qed.

Lemma count_tag_find_None s node : find node s = None -> count_tag s node = 0.
Proof.
  unfold find, count_tag, child_tags. intros H. apply find_first_None in H.
  induction (tag <$> children node) as [|t l IH]; [reflexivity|].
  apply not_elem_of_cons in H as [Hne H]. rewrite filter_cons.
  destruct (decide (t = s)); [congruence | apply IH, H].
Qed.

Lemma count_tag_find_Some s node c : find node s = Some c -> 1 <= count_tag s node.
Proof.
  unfold find, count_tag, child_tags. intros H.
  assert (Hin : s ∈ tag <$> children node).
  { destruct (decide (s ∈ tag <$> children node)) as [Hi|Hi]; [exact Hi|].
    apply find_first_None in Hi. congruence. }
  induction (tag <$> children node) as [|t l IH]; [inversion Hin|].
  rewrite filter_cons. destruct (decide (t = s)); [simpl; lia|].
  apply IH. apply elem_of_cons in Hin as [E | Hin]; [congruence | exact Hin].
Qed.

Lemma chain_le1_leaf pre t at_ x : chain_le1 pre (Elem t at_ x []).
Proof. destruct pre; simpl; [exact I|]. split; [unfold count_tag; simpl; lia | exact I]. Qed.

Lemma chain_le1_children pre e e' :
  children e' = children e -> chain_le1 pre e -> chain_le1 pre e'.
Proof.
  intros H. destruct pre as [|s rest]; [auto|]. simpl.
  unfold count_tag, child_tags, find. rewrite H. auto.
Qed.

Lemma holds_leaf_children pre a e e' :
  children e' = children e -> holds_leaf pre a e -> holds_leaf pre a e'.
Proof.
  intros H. destruct pre as [|s rest]; simpl; unfold child_tags, find; rewrite H; auto.
Qed.

(** An element that holds a leaf below it has children. *)
Lemma holds_leaf_truthy pre a e : holds_leaf pre a e -> truthy e = true.
Proof.
  unfold truthy. destruct pre as [|s rest]; simpl; unfold child_tags, find.
  - destruct (children e); [intros H; inversion H | reflexivity].
  - destruct (children e); [simpl; contradiction | reflexivity].
Qed.

(** ** The two invariants under the two shapes of a mutation *)

Lemma chain_altered p f pre node node' :
  altered p f node node' ->
  (forall rest c, pre = p :: rest -> find node p = Some c ->
     chain_le1 rest c -> chain_le1 rest (f c)) ->
  chain_le1 pre node -> chain_le1 pre node'.
Proof.
  intros (c & Hc & Htags & Hp & Hs) Hf. destruct pre as [|s rest]; [auto|].
  simpl. intros [Hcount Hchain]. rewrite (count_tag_same _ _ _ Htags).
  split; [exact Hcount|].
  destruct (decide (s = p)) as [-> | Hne].
  - rewrite Hp. rewrite Hc in Hchain. apply (Hf rest c eq_refl Hc Hchain).
  - rewrite (Hs _ Hne). exact Hchain.
Qed.

Lemma chain_appended p e pre node node' :
  appended p e node node' ->
  (forall rest, pre = p :: rest -> find node p = None /\ chain_le1 rest e) ->
  chain_le1 pre node -> chain_le1 pre node'.
Proof.
  intros [Htags Hfind] He. destruct pre as [|s rest]; [auto|].
  simpl. intros [Hcount Hchain]. rewrite (count_tag_appended _ _ _ _ Htags), Hfind.
  destruct (decide (p = s)) as [-> | Hne].
  - destruct (He rest eq_refl) as [Hnone Hce].
    rewrite str_eqb_refl, Hnone, (count_tag_find_None _ _ Hnone). auto.
  - rewrite (str_eqb_neq _ _ Hne), Nat.add_0_r. split; [exact Hcount|].
    destruct (find node s); [exact Hchain | exact I].
Qed.

Lemma leaf_altered p f pre a node node' :
  altered p f node node' ->
  (forall rest c, pre = p :: rest -> find node p = Some c ->
     holds_leaf rest a c -> holds_leaf rest a (f c)) ->
  holds_leaf pre a node -> holds_leaf pre a node'.
Proof.
  intros (c & Hc & Htags & Hp & Hs) Hf. destruct pre as [|s rest]; simpl.
  - rewrite Htags. auto.
  - destruct (decide (s = p)) as [-> | Hne].
    + rewrite Hp, Hc. apply (Hf rest c eq_refl Hc).
    + rewrite (Hs _ Hne). auto.
Qed.

Lemma leaf_appended p e pre a node node' :
  appended p e node node' -> holds_leaf pre a node -> holds_leaf pre a node'.
Proof.
  intros [Htags Hfind]. destruct pre as [|s rest]; simpl.
  - rewrite Htags, elem_of_app. auto.
  - rewrite Hfind. destruct (find node s); [auto | contradiction].
Qed.

(** ** Writing a leaf *)

Lemma not_prefix_cons (q : string) (l pre : list string) :
  ~ (q :: l) `prefix_of` (q :: pre) -> ~ l `prefix_of` pre.
Proof. intros H [t ->]. apply H. exists t. reflexivity. Qed.

Lemma descend_leaf path t at_ x :
  is_Some (descend path (Elem t at_ x [])) -> path = [].
Proof. destruct path as [|s rest]; [reflexivity|]. simpl. intros [? ?]. discriminate. Qed.

(** Writing a leaf keeps the elements of the group path single when the
    path of the leaf is not a leading part of the group path, or when no
    element stands yet where the leaf goes. *)
Lemma chain_write qs leaf v pre node :
  ~ (qs ++ [leaf]) `prefix_of` pre \/ descend (qs ++ [leaf]) node = None ->
  chain_le1 pre node ->
  chain_le1 pre (ensure_nested qs (sub_element leaf (set_text v)) node).
Proof.
  revert pre node. induction qs as [|q qs IH]; intros pre node Hpre Hchain.
  - simpl. eapply chain_appended;
      [apply sub_element_appended, set_text_tag_preserving | | exact Hchain].
    intros rest ->. destruct Hpre as [Hpre | Hnone].
    + exfalso. apply Hpre. exists rest. reflexivity.
    + split; [|apply chain_le1_leaf]. simpl in Hnone.
      destruct (find node leaf); [discriminate | reflexivity].
  - assert (Hk : tag_preserving (sub_element leaf (set_text v)))
      by apply sub_element_tag_preserving.
    destruct (ensure_nested_step q qs _ node Hk) as [Halt | [Hnone Happ]].
    + eapply chain_altered; [exact Halt | | exact Hchain].
      intros rest c -> Hq Hc. apply IH; [|exact Hc].
      destruct Hpre as [Hpre | Hd].
      * left. apply (not_prefix_cons q), Hpre.
      * right. simpl in Hd. rewrite Hq in Hd. exact Hd.
    + eapply chain_appended; [exact Happ | | exact Hchain].
      intros rest ->. split; [exact Hnone|].
      apply IH; [|apply chain_le1_leaf].
      right. destruct (qs ++ [leaf]) eqn:E; [destruct qs; discriminate|].
      reflexivity.
Qed.

(** An element stands at [path] after a leaf was written only if it stood
    there before, or [path] leads to the leaf. *)
Lemma descend_write qs leaf v path node :
  is_Some (descend path (ensure_nested qs (sub_element leaf (set_text v)) node)) ->
  is_Some (descend path node) \/ path `prefix_of` (qs ++ [leaf]).
Proof.
  revert path node. induction qs as [|q qs IH]; intros path node.
  - destruct path as [|s rest]; [left; eexists; reflexivity|].
    cbn [ensure_nested descend app].
    rewrite find_sub_element by apply set_text_tag_preserving.
    destruct (find node s) as [c|]; [auto|].
    destruct (str_eqb leaf s) eqn:E; [|intros [? ?]; discriminate].
    apply str_eqb_true in E as ->. intros H. apply descend_leaf in H as ->.
    right. exists []. reflexivity.
  - destruct path as [|s rest]; [left; eexists; reflexivity|].
    assert (Hk : tag_preserving (sub_element leaf (set_text v)))
      by apply sub_element_tag_preserving.
    cbn [descend].
    destruct (ensure_nested_step q qs _ node Hk) as [Halt | [Hnone Happ]].
    + destruct Halt as (c & Hc & _ & Hq & Hother).
      destruct (decide (s = q)) as [-> | Hne].
      * rewrite Hq, Hc. intros H. apply IH in H as [H | [t Ht]]; [auto|].
        right. exists t. simpl. rewrite Ht. reflexivity.
      * rewrite (Hother _ Hne). auto.
    + destruct Happ as [_ Hfind]. rewrite Hfind.
      destruct (find node s) as [c|]; [auto|].
      destruct (str_eqb q s) eqn:E; [|intros [? ?]; discriminate].
      apply str_eqb_true in E as ->. intros H.
      apply IH in H as [H | [t Ht]].
      * apply descend_leaf in H as ->. right. exists (qs ++ [leaf]). reflexivity.
      * right. exists t. simpl. rewrite Ht. reflexivity.
Qed.

(** A leaf that is there stays there. *)
Lemma leaf_write_preserved qs k pre a node :
  tag_preserving k ->
  (forall rest e, holds_leaf rest a e -> holds_leaf rest a (k e)) ->
  holds_leaf pre a node -> holds_leaf pre a (ensure_nested qs k node).
Proof.
  intros Hk Hall. revert pre node.
  induction qs as [|q qs IH]; intros pre node Hleaf; [apply Hall, Hleaf|].
  destruct (ensure_nested_step q qs k node Hk) as [Halt | [Hnone Happ]].
  - eapply leaf_altered; [exact Halt | | exact Hleaf].
    intros rest c _ _ Hc. apply IH, Hc.
  - eapply leaf_appended; [exact Happ | exact Hleaf].
Qed.

Lemma sub_element_leaf_preserved p k pre a node :
  tag_preserving k -> holds_leaf pre a node -> holds_leaf pre a (sub_element p k node).
Proof. intros Hk. apply leaf_appended with (1 := sub_element_appended p k node Hk). Qed.

(** Writing the leaf [a] under the group path [pre] puts it under the
    element that [pre] resolves to. *)
Lemma leaf_write_new pre a v node :
  holds_leaf pre a (ensure_nested pre (sub_element a (set_text v)) node).
Proof.
  revert node. induction pre as [|s rest IH]; intros node.
  - simpl. rewrite child_tags_sub_element by apply set_text_tag_preserving.
    apply elem_of_app. right. apply list_elem_of_here.
  - assert (Hk : tag_preserving (sub_element a (set_text v)))
      by apply sub_element_tag_preserving.
    destruct (ensure_nested_step s rest _ node Hk) as [Halt | [Hnone Happ]].
    + destruct Halt as (c & Hc & _ & Hp & _).
      cbn [holds_leaf]. rewrite Hp. apply IH.
    + destruct Happ as [_ Hfind]. cbn [holds_leaf].
      rewrite Hfind, Hnone, str_eqb_refl. apply IH.
Qed.

Lemma unique_chain_intro pre a node :
  chain_le1 pre node -> holds_leaf pre a node -> unique_chain pre node.
Proof.
  revert node. induction pre as [|s rest IH]; intros node; [auto|].
  simpl. intros [Hcount Hchain] Hleaf.
  destruct (find node s) as [c|] eqn:Hc; [|contradiction].
  pose proof (count_tag_find_Some _ _ _ Hc). split; [lia | auto].
Qed.

(** ** The loop over the schema map *)

Lemma split_on_parts sep path :
  PyStr.split_on sep path
  = removelast (PyStr.split_on sep path) ++ [List.last (PyStr.split_on sep path) ""].
Proof. apply app_removelast_last, fields_nonnil. Qed.

Lemma encode_field_chain row pre root item :
  (forall v, field_value row item.1 item.2 = Some v ->
     ~ PyStr.split_on "/" item.1 `prefix_of` pre
     \/ descend (PyStr.split_on "/" item.1) root = None) ->
  chain_le1 pre root -> chain_le1 pre (encode_field row root item).
Proof.
  intros Hpre Hchain. unfold encode_field.
  destruct (field_value row item.1 item.2) as [v|]; [|exact Hchain].
  apply chain_write; [|exact Hchain].
  rewrite <- split_on_parts. apply (Hpre v eq_refl).
Qed.

Lemma encode_field_descend row path root item :
  is_Some (descend path (encode_field row root item)) ->
  is_Some (descend path root) \/
  exists v, field_value row item.1 item.2 = Some v
            /\ path `prefix_of` PyStr.split_on "/" item.1.
Proof.
  unfold encode_field.
  destruct (field_value row item.1 item.2) as [v|]; [|auto].
  intros H. apply descend_write in H as [H | H]; [auto|].
  rewrite <- split_on_parts in H. eauto.
Qed.

Lemma encode_field_leaf_preserved row pre a root item :
  holds_leaf pre a root -> holds_leaf pre a (encode_field row root item).
Proof.
  intros Hleaf. unfold encode_field.
  destruct (field_value row item.1 item.2) as [v|]; [|exact Hleaf].
  apply leaf_write_preserved; [apply sub_element_tag_preserving | | exact Hleaf].
  intros rest e. apply sub_element_leaf_preserved, set_text_tag_preserving.
Qed.

Lemma encode_field_leaf_new row pre a root path q v :
  PyStr.split_on "/" path = pre ++ [a] -> field_value row path q = Some v ->
  holds_leaf pre a (encode_field row root (path, q)).
Proof.
  intros Hparts Hv. unfold encode_field. cbn [fst snd].
  rewrite Hv, Hparts, removelast_last, last_last. apply leaf_write_new.
Qed.

Lemma encode_fields_snoc row schema item root :
  encode_fields row (schema ++ [item]) root
  = encode_field row (encode_fields row schema root) item.
Proof. unfold encode_fields. rewrite fold_left_app. reflexivity. Qed.

(** An element stands at [path] after the loop only if a column that
    yields a value lies at or under [path]. *)
Lemma encode_fields_descend row schema path t at_ x :
  is_Some (descend path (encode_fields row schema (Elem t at_ x []))) ->
  path = [] \/
  exists col q v, (col, q) ∈ schema /\ field_value row col q = Some v
                  /\ path `prefix_of` PyStr.split_on "/" col.
Proof.
  induction schema as [|[col q] schema IH] using rev_ind.
  - intros H. left. apply (descend_leaf _ _ _ _ H).
  - rewrite encode_fields_snoc. intros H.
    apply encode_field_descend in H as [H | (v & Hv & Hp)].
    + destruct (IH H) as [-> | (col' & q' & v & Hin & Hv & Hp)]; [auto|].
      right. exists col', q', v. split; [|auto]. apply elem_of_app. auto.
    + right. exists col, q, v. split; [|auto].
      apply elem_of_app. right. apply list_elem_of_here.
Qed.

(** The order that keeps the group path single: a column whose path is a
    leading part of the group path yields its value before every column at
    or under that path does. *)
Lemma encode_fields_chain row pre schema t at_ x :
  (forall l1 path q l2 v,
     schema = l1 ++ (path, q) :: l2 -> field_value row path q = Some v ->
     PyStr.split_on "/" path `prefix_of` pre ->
     forall path' q' v', (path', q') ∈ l1 -> field_value row path' q' = Some v' ->
       ~ PyStr.split_on "/" path `prefix_of` PyStr.split_on "/" path') ->
  chain_le1 pre (encode_fields row schema (Elem t at_ x [])).
Proof.
  induction schema as [|[path q] schema IH] using rev_ind; intros Horder.
  - apply chain_le1_leaf.
  - rewrite encode_fields_snoc. apply encode_field_chain.
    + cbn [fst snd]. intros v Hv.
      destruct (decide (PyStr.split_on "/" path `prefix_of` pre)) as [Hp|Hp]; [|auto].
      right. destruct (descend _ _) eqn:Hd; [|reflexivity]. exfalso.
      destruct (encode_fields_descend row schema (PyStr.split_on "/" path) t at_ x)
        as [Hnil | (col & q' & v' & Hin & Hv' & Hpp)].
      * rewrite Hd. eauto.
      * revert Hnil. apply fields_nonnil.
      * apply (Horder schema path q [] v eq_refl Hv Hp col q' v' Hin Hv' Hpp).
    + apply IH. intros l1 path' q' l2 v Hs. apply (Horder l1 path' q' (l2 ++ [(path, q)]) v).
      rewrite Hs, <- app_assoc. reflexivity.
Qed.

Lemma encode_fields_leaf_preserved row pre a schema root :
  holds_leaf pre a root -> holds_leaf pre a (encode_fields row schema root).
Proof.
  unfold encode_fields. revert root.
  induction schema as [|item schema IH]; intros root Hleaf; [exact Hleaf|].
  simpl. apply IH, encode_field_leaf_preserved, Hleaf.
Qed.

Lemma encode_fields_leaf_new row pre a schema root path q v :
  (path, q) ∈ schema ->
  PyStr.split_on "/" path = pre ++ [a] -> field_value row path q = Some v ->
  holds_leaf pre a (encode_fields row schema root).
Proof.
  intros Hin Hparts Hv. revert root.
  induction schema as [|item schema IH]; intros root; [inversion Hin|].
  apply elem_of_cons in Hin as [<- | Hin].
  - apply (encode_fields_leaf_preserved row pre a schema).
    apply (encode_field_leaf_new _ _ _ _ _ _ v Hparts Hv).
  - apply (IH Hin).
Qed.

(** ** The meta element *)

Lemma find_or_sub_element_leaf p k pre a node :
  tag_preserving k ->
  (forall rest c, pre = p :: rest -> holds_leaf rest a c -> holds_leaf rest a (k c)) ->
  holds_leaf pre a node -> holds_leaf pre a (find_or_sub_element p k node).
Proof.
  intros Hk Hf Hleaf.
  destruct (find_or_sub_element_step p k node Hk) as [[Halt _] | [Happ _]].
  - eapply leaf_altered; [exact Halt | | exact Hleaf].
    intros rest c Hpre _. apply Hf, Hpre.
  - eapply leaf_appended; [exact Happ | exact Hleaf].
Qed.

Lemma find_or_sub_element_chain p k pre a node :
  tag_preserving k ->
  (forall rest c, pre = p :: rest -> chain_le1 rest c -> holds_leaf rest a c ->
     chain_le1 rest (k c)) ->
  chain_le1 pre node -> holds_leaf pre a node ->
  chain_le1 pre (find_or_sub_element p k node).
Proof.
  intros Hk Hf Hchain Hleaf.
  destruct (find_or_sub_element_step p k node Hk) as [[Halt _] | [Happ Hfalse]].
  - eapply chain_altered; [exact Halt | | exact Hchain].
    intros rest c -> Hc Hcc. apply (Hf rest c eq_refl Hcc).
    cbn [holds_leaf] in Hleaf. rewrite Hc in Hleaf. exact Hleaf.
  - eapply chain_appended; [exact Happ | | exact Hchain].
    intros rest ->. exfalso.
    cbn [holds_leaf] in Hleaf. destruct (find node p) as [c|] eqn:Hc; [|contradiction].
    pose proof (holds_leaf_truthy _ _ _ Hleaf) as Ht.
    rewrite (Hfalse c eq_refl) in Ht. discriminate.
Qed.

Lemma fill_meta_leaf dep u pre a meta :
  holds_leaf pre a meta -> holds_leaf pre a (fill_meta dep u meta).
Proof.
  intros Hleaf. unfold fill_meta.
  assert (H1 : holds_leaf pre a
                 (find_or_sub_element "instanceID" (set_text ("uuid:" +:+ u)) meta)).
  { apply find_or_sub_element_leaf; [apply set_text_tag_preserving | | exact Hleaf].
    intros rest c _. apply holds_leaf_children, children_set_text. }
  destruct dep as [d|]; [destruct (PyStr.nonempty d)|]; try exact H1.
  apply sub_element_leaf_preserved; [apply set_text_tag_preserving | exact H1].
Qed.

Lemma fill_meta_chain dep u pre a meta :
  (supplied dep = true -> ~ ["deprecatedID"] `prefix_of` pre) ->
  chain_le1 pre meta -> holds_leaf pre a meta ->
  chain_le1 pre (fill_meta dep u meta).
Proof.
  intros Hdep Hchain Hleaf. unfold fill_meta.
  assert (H1 : chain_le1 pre
                 (find_or_sub_element "instanceID" (set_text ("uuid:" +:+ u)) meta)).
  { apply (find_or_sub_element_chain _ _ _ a);
      [apply set_text_tag_preserving | | exact Hchain | exact Hleaf].
    intros rest c _ Hc _. revert Hc. apply chain_le1_children, children_set_text. }
  destruct dep as [d|]; [destruct (PyStr.nonempty d) eqn:Hd|]; try exact H1.
  eapply chain_appended;
    [apply sub_element_appended, set_text_tag_preserving | | exact H1].
  intros rest ->. exfalso. apply Hdep; [exact Hd|]. exists rest. reflexivity.
Qed.

End SharedGroups.

(* ===================================================================== *)
(** * The meta element                                                    *)
(* ===================================================================== *)

Section Meta.

Implicit Types (p s a : string) (k : Element -> Element).

(** The child that [alter_first] changes, and the children around it. *)
Lemma alter_first_split p cs c :
  find_first p cs = Some c ->
  exists l1 l2, cs = l1 ++ c :: l2 /\ forall k, alter_first p k cs = l1 ++ k c :: l2.
Proof.
  induction cs as [|c' cs IH]; [discriminate|]. simpl.
  destruct (str_eqb (tag c') p).
  - intros [= <-]. exists [], cs. split; [reflexivity | intros; reflexivity].
  - intros H. destruct (IH H) as (l1 & l2 & -> & Hk).
    exists (c' :: l1), l2. split; [reflexivity|].
    intros k. rewrite Hk. reflexivity.
Qed.

Lemma fill_meta_children dep u meta :
  children (fill_meta dep u meta)
  = children (fill_meta None u meta) ++ deprecated_element dep.
Proof.
  unfold fill_meta, deprecated_element.
  destruct dep as [d|]; [destruct (PyStr.nonempty d)|]; rewrite ?app_nil_r; try reflexivity.
  unfold sub_element. rewrite children_set_children. reflexivity.
Qed.

Lemma fill_meta_not_supplied dep u meta :
  supplied dep = false -> fill_meta dep u meta = fill_meta None u meta.
Proof.
  unfold fill_meta, supplied. destruct dep as [d|]; [|reflexivity].
  intros ->. reflexivity.
Qed.

Lemma filter_deprecated_element dep :
  filter (fun e => tag e = "deprecatedID") (deprecated_element dep)
  = deprecated_element dep.
Proof.
  unfold deprecated_element.
  destruct dep as [d|]; [destruct (PyStr.nonempty d)|]; reflexivity.
Qed.

(** Two mutations of the element that [find(p1) or SubElement(p1)] gives,
    of which the first adds [extra] to the children tagged [p2] that the
    second gives: the documents differ by [extra]. *)
Lemma findall2_find_or_sub_element p1 p2 k1 k2 extra root :
  tag_preserving k1 -> tag_preserving k2 ->
  (forall m, filter (fun e => tag e = p2) (children (k1 m))
             = filter (fun e => tag e = p2) (children (k2 m)) ++ extra) ->
  findall2 (find_or_sub_element p1 k1 root) p1 p2
  ≡ₚ findall2 (find_or_sub_element p1 k2 root) p1 p2 ++ extra.
Proof.
  intros Hk1 Hk2 Hextra. unfold findall2, find_or_sub_element, find.
  destruct (find_first p1 (children root)) as [c|] eqn:Hc;
    [destruct (truthy c)|].
  - destruct (alter_first_split _ _ _ Hc) as (l1 & l2 & _ & Halter).
    pose proof (find_first_tag _ _ _ Hc) as Htag.
    rewrite !children_set_children, !Halter, !filter_app, !filter_cons.
    rewrite Hk1, Hk2. destruct (decide (tag c = p1)); [|contradiction].
    rewrite !bind_app, !bind_cons, Hextra.
    rewrite <- !app_assoc. f_equiv. f_equiv. apply Permutation_app_comm.
  - unfold sub_element. rewrite !children_set_children, !filter_app, !filter_cons.
    rewrite Hk1, Hk2. cbn [tag]. destruct (decide (p1 = p1)); [|contradiction].
    rewrite filter_nil, !bind_app, !bind_singleton, Hextra, <- app_assoc. reflexivity.
  - unfold sub_element. rewrite !children_set_children, !filter_app, !filter_cons.
    rewrite Hk1, Hk2. cbn [tag]. destruct (decide (p1 = p1)); [|contradiction].
    rewrite filter_nil, !bind_app, !bind_singleton, Hextra, <- app_assoc. reflexivity.
Qed.

(** The element that [find(p) or SubElement(p)] gives to [k] is a child,
    with tag [p], of the result. *)
Lemma find_or_sub_element_child p k node :
  tag_preserving k ->
  exists m, k m ∈ children (find_or_sub_element p k node) /\ tag m = p.
Proof.
  intros Hk. unfold find_or_sub_element, find.
  destruct (find_first p (children node)) as [c|] eqn:Hc; [destruct (truthy c)|].
  - destruct (alter_first_split _ _ _ Hc) as (l1 & l2 & _ & Halter).
    exists c. rewrite children_set_children, Halter. split.
    + apply elem_of_app. right. apply list_elem_of_here.
    + apply (find_first_tag _ _ _ Hc).
  - exists (Elem p [] None []). unfold sub_element. rewrite children_set_children.
    split; [|reflexivity]. apply elem_of_app. right. apply list_elem_of_here.
  - exists (Elem p [] None []). unfold sub_element. rewrite children_set_children.
    split; [|reflexivity]. apply elem_of_app. right. apply list_elem_of_here.
Qed.

(** Whatever [meta] held, it holds afterwards an [instanceID] with the
    fresh identifier as text. *)
Lemma fill_meta_instanceID dep u meta :
  exists e, e ∈ children (fill_meta dep u meta)
            /\ tag e = "instanceID" /\ text e = Some ("uuid:" +:+ u).
Proof.
  destruct (find_or_sub_element_child "instanceID" (set_text ("uuid:" +:+ u)) meta
              (set_text_tag_preserving _)) as (m & Hin & Htag).
  exists (set_text ("uuid:" +:+ u) m). split; [|split].
  - rewrite fill_meta_children. apply elem_of_app. left. exact Hin.
  - rewrite set_text_tag_preserving. exact Htag.
  - apply text_set_text.
Qed.

(** ** A schema map that writes nothing under [meta] *)

Lemma child_tags_write qs leaf v node t :
  t ∈ child_tags (ensure_nested qs (sub_element leaf (set_text v)) node) ->
  t ∈ child_tags node \/ head (qs ++ [leaf]) = Some t.
Proof.
  destruct qs as [|q qs].
  - simpl. rewrite child_tags_sub_element by apply set_text_tag_preserving.
    rewrite elem_of_app, list_elem_of_singleton. intros [H | ->]; auto.
  - assert (Hk : tag_preserving (sub_element leaf (set_text v)))
      by apply sub_element_tag_preserving.
    destruct (ensure_nested_step q qs _ node Hk) as [Halt | [_ Happ]].
    + destruct Halt as (_ & _ & -> & _). auto.
    + destruct Happ as [-> _].
      rewrite elem_of_app, list_elem_of_singleton. intros [H | ->]; auto.
Qed.

Lemma child_tags_encode_fields row schema root t :
  t ∈ child_tags (encode_fields row schema root) ->
  t ∈ child_tags root \/
  exists path q v, (path, q) ∈ schema /\ field_value row path q = Some v
                   /\ head (PyStr.split_on "/" path) = Some t.
Proof.
  unfold encode_fields. revert root.
  induction schema as [|[path q] schema IH]; intros root; [auto|].
  simpl. intros H. destruct (IH _ H) as [Ht | (path' & q' & v & Hin & Hv & Hh)].
  - unfold encode_field in Ht. cbn [fst snd] in Ht.
    destruct (field_value row path q) as [v|] eqn:Hv; [|auto].
    apply child_tags_write in Ht as [Ht | Ht]; [auto|].
    rewrite <- split_on_parts in Ht. right. exists path, q, v.
    split; [left | auto].
  - right. exists path', q', v. split; [right; exact Hin | auto].
Qed.

(** When no column that yields a value lies under [meta], the document is
    the tree of the fields followed by one [meta] element, which holds the
    [instanceID] and, for an update, the [deprecatedID]. *)
Lemma row_to_xml_fresh_meta row form_id schema dep u :
  (forall path q v, (path, q) ∈ schema -> field_value row path q = Some v ->
     head (PyStr.split_on "/" path) <> Some "meta") ->
  let root := encode_fields row schema (Elem form_id [("id", form_id)] None []) in
  ("meta" ∉ child_tags root) /\
  row_to_xml row form_id schema dep u
  = set_children root
      (children root
       ++ [Elem "meta" [] None
             (Elem "instanceID" [] (Some ("uuid:" +:+ u)) [] :: deprecated_element dep)]).
Proof.
  intros Hschema root.
  assert (Hno : "meta" ∉ child_tags root).
  { intros H. apply child_tags_encode_fields in H as [H | (path & q & v & Hin & Hv & Hh)].
    - inversion H.
    - exact (Hschema path q v Hin Hv Hh). }
  split; [exact Hno|].
  unfold row_to_xml. fold root. unfold find_or_sub_element, find.
  apply find_first_None in Hno. rewrite Hno.
  unfold sub_element. do 4 f_equal.
  unfold fill_meta, deprecated_element.
  destruct dep as [d|]; [destruct (PyStr.nonempty d)|]; reflexivity.
Qed.

End Meta.

(* ===================================================================== *)
(** * The claims on the encoded document                                  *)
(* ===================================================================== *)

(** C4, the code at the failing inputs.  A leaf "meta/instanceID" written
    from the row has no children, so [meta.find("instanceID") or ...] passes
    it over and a second [instanceID] is added under [meta]; a leaf "meta"
    written from the row is passed over in the same way, and a second
    [meta] element is added to the root. *)
Theorem instanceID_not_reused :
  let txt := mkQuestion (Some "text") NoKey None None in
  forall uuid4,
    row_to_xml (<["meta/instanceID" := CStr "uuid:old"]> ∅) "form"
      [("meta/instanceID", txt)] None uuid4
    = Elem "form" [("id", "form")] None
        [Elem "meta" [] None
           [Elem "instanceID" [] (Some "uuid:old") [];
            Elem "instanceID" [] (Some ("uuid:" +:+ uuid4)) []]]
    /\
    row_to_xml (<["meta" := CStr "x"]> ∅) "form" [("meta", txt)] None uuid4
    = Elem "form" [("id", "form")] None
        [Elem "meta" [] (Some "x") [];
         Elem "meta" [] None [Elem "instanceID" [] (Some ("uuid:" +:+ uuid4)) []]].
Proof. intros txt uuid4. split; reflexivity. Qed.

(** C5 (as amended). A [deprecatedID] is added under [meta] exactly when a
    deprecated ID is given and is not the empty string: the
    meta/deprecatedID elements of the document are those of the document
    encoded as a create, and the one new element whose text is the given
    ID normalized ("uuid:abc" for "abc"); without a deprecated ID, or with
    the empty string, the document is the one of a create.  In every case
    a meta/instanceID with the fresh identifier is there. *)
Theorem row_to_xml_deprecatedID (row : gmap string Cell) (form_id : string)
    (schema_map : list (string * Question)) (deprecated_id : option string)
    (uuid4 : string) :
  let doc := row_to_xml row form_id schema_map deprecated_id uuid4 in
  let create := row_to_xml row form_id schema_map None uuid4 in
  (supplied deprecated_id = false -> doc = create) /\
  findall2 doc "meta" "deprecatedID"
    ≡ₚ findall2 create "meta" "deprecatedID" ++ deprecated_element deprecated_id /\
  (exists e, e ∈ findall2 doc "meta" "instanceID"
             /\ text e = Some ("uuid:" +:+ uuid4)) /\
  deprecated_element (Some "abc") = [Elem "deprecatedID" [] (Some "uuid:abc") []] /\
  deprecated_element (Some "") = [] /\
  deprecated_element None = [].
Proof.
  intros doc create. split; [|split; [|split; [|repeat split]]].
  - intros H. unfold doc, create, row_to_xml, find_or_sub_element.
    destruct (find _ "meta") as [c|]; [destruct (truthy c)|];
      unfold sub_element; rewrite ?(fill_meta_not_supplied _ _ _ H); try reflexivity.
    f_equal. clear -H. induction (children _) as [|e cs IH]; [reflexivity|].
    simpl. destruct (str_eqb (tag e) "meta");
      [rewrite (fill_meta_not_supplied _ _ _ H) | rewrite IH]; reflexivity.
  - apply findall2_find_or_sub_element; try apply fill_meta_tag_preserving.
    intros m. rewrite fill_meta_children, filter_app, filter_deprecated_element.
    reflexivity.
  - destruct (find_or_sub_element_child "meta" (fill_meta deprecated_id uuid4)
                (encode_fields row schema_map (Elem form_id [("id", form_id)] None []))
                (fill_meta_tag_preserving _ _)) as (m & Hin & Htag).
    destruct (fill_meta_instanceID deprecated_id uuid4 m) as (e & He & Hte & Htx).
    exists e. split; [|exact Htx].
    unfold findall2. apply list_elem_of_bind.
    exists (fill_meta deprecated_id uuid4 m). split.
    + apply list_elem_of_filter. auto.
    + apply list_elem_of_filter. split; [|exact Hin].
      rewrite fill_meta_tag_preserving. exact Htag.
Qed.

(** C5, witness: on a form with one text column, the document encoded
    with the empty string as deprecated ID is the document of a create. *)
Lemma row_to_xml_deprecatedID_witness :
  row_to_xml (<["name" := CStr "Ann"]> ∅) "form"
    [("name", mkQuestion (Some "text") (Name "name") None None)] (Some "") "0"
  = row_to_xml (<["name" := CStr "Ann"]> ∅) "form"
      [("name", mkQuestion (Some "text") (Name "name") None None)] None "0".
Proof.
  exact (proj1 (row_to_xml_deprecatedID (<["name" := CStr "Ann"]> ∅) "form"
                  [("name", mkQuestion (Some "text") (Name "name") None None)]
                  (Some "") "0") eq_refl).
Defined.

(** C5, counterexample: a deprecated ID that is the empty string is
    supplied, and no deprecatedID is emitted; and a pure create whose
    schema map has the column "meta/deprecatedID" shows a deprecatedID
    element. *)
Lemma row_to_xml_deprecatedID_counterexample :
  findall2 (row_to_xml ∅ "form" [] (Some "") "0") "meta" "deprecatedID" = [] /\
  findall2
    (row_to_xml (<["meta/deprecatedID" := CStr "zzz"]> ∅) "form"
       [("meta/deprecatedID", mkQuestion (Some "text") NoKey None None)] None "0")
    "meta" "deprecatedID"
  = [Elem "deprecatedID" [] (Some "zzz") []].
Proof. split; reflexivity. Qed.

(** C8 (as amended). Let two columns with the paths [pre/a] and [pre/b]
    both yield a value.  If every column that yields a value and whose
    path is [pre] itself or one of its leading parts (a leaf named like
    the group) comes, in the order of the schema map, before every column
    that yields a value at or under that path, and if, for an update,
    [pre] does not lie under meta/deprecatedID, then in the encoded
    document every segment of [pre] names exactly one child of the element
    reached so far, and the element that [pre] resolves to has a child [a]
    and a child [b]. *)
Theorem shared_group_prefix (row : gmap string Cell) (form_id : string)
    (schema_map : list (string * Question)) (deprecated_id : option string)
    (uuid4 : string) (pre : list string) (a b pa pb : string) (qa qb : Question)
    (va vb : string) :
  (pa, qa) ∈ schema_map -> PyStr.split_on "/" pa = pre ++ [a] ->
  field_value row pa qa = Some va ->
  (pb, qb) ∈ schema_map -> PyStr.split_on "/" pb = pre ++ [b] ->
  field_value row pb qb = Some vb ->
  (forall l1 path q l2 v,
     schema_map = l1 ++ (path, q) :: l2 -> field_value row path q = Some v ->
     PyStr.split_on "/" path `prefix_of` pre ->
     forall path' q' v', (path', q') ∈ l1 -> field_value row path' q' = Some v' ->
       ~ PyStr.split_on "/" path `prefix_of` PyStr.split_on "/" path') ->
  (supplied deprecated_id = true -> ~ ["meta"; "deprecatedID"] `prefix_of` pre) ->
  let doc := row_to_xml row form_id schema_map deprecated_id uuid4 in
  unique_chain pre doc /\ holds_leaf pre a doc /\ holds_leaf pre b doc.
Proof.
  intros Hina Hpa Hva Hinb Hpb Hvb Horder Hdep doc.
  set (root := encode_fields row schema_map (Elem form_id [("id", form_id)] None [])).
  assert (Hchain : chain_le1 pre root) by apply (encode_fields_chain _ _ _ _ _ _ Horder).
  assert (Ha : holds_leaf pre a root)
    by apply (encode_fields_leaf_new _ _ _ _ _ _ _ _ Hina Hpa Hva).
  assert (Hb : holds_leaf pre b root)
    by apply (encode_fields_leaf_new _ _ _ _ _ _ _ _ Hinb Hpb Hvb).
  assert (Hmeta : forall c, holds_leaf pre c root -> holds_leaf pre c doc).
  { intros c Hc. apply find_or_sub_element_leaf;
      [apply fill_meta_tag_preserving | | exact Hc].
    intros rest m _. apply fill_meta_leaf. }
  split; [|split; [apply Hmeta, Ha | apply Hmeta, Hb]].
  apply (unique_chain_intro _ a); [|apply Hmeta, Ha].
  apply (find_or_sub_element_chain _ _ _ a);
    [apply fill_meta_tag_preserving | | exact Hchain | exact Ha].
  intros rest m -> Hm Hl. apply (fill_meta_chain _ _ _ a); [|exact Hm | exact Hl].
  intros Hs [t Ht]. apply (Hdep Hs). exists t. rewrite Ht. reflexivity.
Qed.

(** C8, witness: the columns "g/a" and "g/b" of a row that fills both. *)
Lemma shared_group_prefix_witness :
  let txt := mkQuestion (Some "text") NoKey None None in
  let doc :=
    row_to_xml (<["g/a" := CStr "1"]> (<["g/b" := CStr "2"]> ∅)) "form"
      [("g/a", txt); ("g/b", txt)] None "0" in
  unique_chain ["g"] doc /\ holds_leaf ["g"] "a" doc /\ holds_leaf ["g"] "b" doc.
Proof.
  apply (shared_group_prefix (<["g/a" := CStr "1"]> (<["g/b" := CStr "2"]> ∅)) "form"
           [("g/a", mkQuestion (Some "text") NoKey None None);
            ("g/b", mkQuestion (Some "text") NoKey None None)]
           None "0" ["g"] "a" "b" "g/a" "g/b"
           (mkQuestion (Some "text") NoKey None None)
           (mkQuestion (Some "text") NoKey None None) "1" "2").
  - apply list_elem_of_here.
  - reflexivity.
  - reflexivity.
  - apply list_elem_of_further, list_elem_of_here.
  - reflexivity.
  - reflexivity.
  - intros l1 path q l2 v Hs Hv [t Ht].
    destruct l1 as [|x1 [|x2 [|x3 l1]]]; simplify_eq/=.
  - discriminate.
Defined.

(** C8, counterexample: with the columns "g/a", "g" and "g/b", all filled,
    the root of the document has two children with tag "g": the group and
    the leaf.  And in an update whose columns lie under meta/deprecatedID,
    [meta] has two children with tag "deprecatedID". *)
Lemma shared_group_prefix_counterexample :
  let txt := mkQuestion (Some "text") NoKey None None in
  let doc :=
    row_to_xml (<["g/a" := CStr "1"]> (<["g" := CStr "2"]> (<["g/b" := CStr "3"]> ∅)))
      "form" [("g/a", txt); ("g", txt); ("g/b", txt)] None "0" in
  let upd :=
    row_to_xml (<["meta/deprecatedID/a" := CStr "1"]>
                  (<["meta/deprecatedID/b" := CStr "2"]> ∅))
      "form" [("meta/deprecatedID/a", txt); ("meta/deprecatedID/b", txt)]
      (Some "abc") "0" in
  doc = Elem "form" [("id", "form")] None
          [Elem "g" [] None [Elem "a" [] (Some "1") []; Elem "b" [] (Some "3") []];
           Elem "g" [] (Some "2") [];
           Elem "meta" [] None [Elem "instanceID" [] (Some "uuid:0") []]]
  /\ count_tag "g" doc = 2
  /\ ~ unique_chain ["g"] doc
  /\ ~ unique_chain ["meta"; "deprecatedID"] upd.
Proof.
  split; [reflexivity|]. split; [reflexivity|]. split.
  - intros [H _]. vm_compute in H. discriminate.
  - intros [_ H]. vm_compute in H. destruct H as [H _]. discriminate.
Qed.

(* ===================================================================== *)
(** * Further properties: identifiers                                     *)
(* ===================================================================== *)

Section MoreIds.
Import PyStr PyStrFacts.

Lemma ensure_uuid_prefix_not_longer_fixed x :
  ensure_uuid_prefix x = x -> x <> "" -> startswith "uuid:" (strip x) = true.
Proof.
  intros Hfix Hx. rewrite (ensure_uuid_prefix_nonempty x Hx) in Hfix.
  destruct (startswith "uuid:" (strip x)) eqn:Hs; [reflexivity|]. exfalso.
  assert (E : strip x = "uuid:" +:+ strip x).
  { rewrite <- Hfix at 1. rewrite strip_uuid_app, strip_rstrip. reflexivity. }
  rewrite E, startswith_app in Hs. discriminate.
Qed.

Lemma cell_eqb_str_not_str s val :
  (forall t, val <> CStr t) -> cell_eqb val (CStr s) = false.
Proof. destruct val; intros H; try reflexivity. exfalso. apply (H s0). reflexivity. Qed.

Lemma filter_none {A} (P : A -> Prop) `{!forall x, Decision (P x)} (l : list A) :
  Forall (fun x => ~ P x) l -> filter P l = [].
Proof.
  induction 1 as [|x l Hx _ IH]; [reflexivity|].
  rewrite filter_cons. destruct (decide (P x)); [contradiction | exact IH].
Qed.

End MoreIds.

(** X1. The normal forms of the identifier normalization are exactly the
    empty string and the trimmed strings that begin with "uuid:": these and
    no others are left unchanged by [ensure_uuid_prefix]. *)
Theorem ensure_uuid_prefix_fixed_points (x : string) :
  ensure_uuid_prefix x = x <->
  x = "" \/ (PyStr.strip x = x /\ PyStr.startswith "uuid:" x = true).
Proof.
  split.
  - intros Hfix. destruct (decide (x = "")) as [-> | Hx]; [left; reflexivity|].
    right. pose proof (ensure_uuid_prefix_not_longer_fixed x Hfix Hx) as Hs.
    rewrite (ensure_uuid_prefix_nonempty x Hx), Hs in Hfix.
    rewrite Hfix in Hs. auto.
  - intros [-> | [Hs Hp]]; [reflexivity|].
    apply ensure_uuid_prefix_fixed; assumption.
Qed.

(** X2. The existing-ID set holds nothing but the two forms of the IDs of
    the table: a string is a member exactly when some record with an ID
    that is not missing has it as the normalized text of that ID or as
    that text with every "uuid:" removed.  No table, an empty table, or
    records with missing IDs only give the empty set. *)
Theorem build_existing_id_set_exact (id_map_df : option (list Entry)) (x : string) :
  x ∈ build_existing_id_set id_map_df <->
  exists df e, id_map_df = Some df /\ e ∈ df /\ notna (e_instanceID e) = true /\
    (x = ensure_uuid_prefix (PyStr.strip (py_str (e_instanceID e)))
     \/ x = PyStr.replace "uuid:" "" (PyStr.strip (py_str (e_instanceID e)))).
Proof.
  destruct id_map_df as [df|].
  - rewrite elem_of_build_existing_id_set. split.
    + intros (e & H). exists df, e. split; [reflexivity | exact H].
    + intros (df' & e & [= <-] & H). exists e. exact H.
  - split; [intros H; inversion H | intros (df & e & H & _); discriminate].
Qed.

(** X3. Whatever [get_submission_id] resolves is already normalized: the
    returned ID is left unchanged by [ensure_uuid_prefix], and begins with
    "uuid:" unless it is the empty string. *)
Theorem get_submission_id_normalized (row : gmap string Cell)
    (id_map_df : option (list Entry)) (s : string) :
  get_submission_id row id_map_df = Ok (Some s) ->
  ensure_uuid_prefix s = s /\ (s <> "" -> PyStr.startswith "uuid:" s = true).
Proof.
  intros H.
  assert (Hs : exists t, s = ensure_uuid_prefix t).
  { destruct (first_notna row ["meta/instanceID"; "_uuid"]) as [val|] eqn:Hf.
    - rewrite (get_submission_id_direct _ _ _ Hf) in H. injection H as <-. eauto.
    - rewrite (get_submission_id_lookup _ _ Hf) in H. cbv zeta in H.
      destruct (filter _ _) as [|e [|e' l]]; try discriminate.
      destruct (notna _); [|discriminate]. injection H as <-. eauto. }
  destruct Hs as [t ->]. split; [apply ensure_uuid_prefix_idempotent|].
  intros Hne. destruct (decide (t = "")) as [-> | Ht]; [contradiction|].
  apply ensure_uuid_prefix_prefixed, Ht.
Qed.

(** X3, witness: a row with a direct ID. *)
Lemma get_submission_id_normalized_witness :
  ensure_uuid_prefix "uuid:abc" = "uuid:abc" /\
  ("uuid:abc" <> "" -> PyStr.startswith "uuid:" "uuid:abc" = true).
Proof.
  exact (get_submission_id_normalized (<["_uuid" := CStr " abc "]> ∅) None "uuid:abc"
           eq_refl).
Defined.

(** X4. The lookup by [_id] compares cells as they are: when the row has no
    direct ID and its [_id] is a text (as every cell of a file read with
    [dtype=str] is) while no [_id] of the table is a text (the data API
    gives numbers), no record matches and the row is unresolved. *)
Theorem get_submission_id_text_id (row : gmap string Cell) (df : list Entry) (s : string) :
  notna (row_get row "meta/instanceID" CNone) = false ->
  notna (row_get row "_uuid" CNone) = false ->
  row_get row "_id" CNone = CStr s ->
  Forall (fun e => forall t, e_id e <> CStr t) df ->
  get_submission_id row (Some df) = Ok None.
Proof.
  intros Hmi Huu Hid Hdf.
  assert (Hf : first_notna row ["meta/instanceID"; "_uuid"] = None).
  { simpl. rewrite Hmi, Huu. reflexivity. }
  rewrite (get_submission_id_lookup _ _ Hf). cbv zeta. rewrite Hid.
  change (default [] (Some df)) with df.
  rewrite filter_none; [reflexivity|].
  eapply Forall_impl; [exact Hdf|]. intros e He.
  rewrite (cell_eqb_str_not_str _ _ He). discriminate.
Qed.

(** X4, witness: the [_id] "5" of a row against the record with the number
    5. *)
Lemma get_submission_id_text_id_witness :
  get_submission_id (<["_id" := CStr "5"]> ∅)
    (Some [mkEntry (CInt 5) (CStr "k1") (CStr "uuid:k1")]) = Ok None.
Proof.
  apply (get_submission_id_text_id (<["_id" := CStr "5"]> ∅)
           [mkEntry (CInt 5) (CStr "k1") (CStr "uuid:k1")] "5").
  - reflexivity.
  - reflexivity.
  - reflexivity.
  - constructor; [|constructor]. intros t. discriminate.
Defined.

(* ===================================================================== *)
(** * Further properties: the flattener and the template                  *)
(* ===================================================================== *)

Section MoreFlattener.
Import PyStr PyStrFacts.

Lemma app_assoc_str (a b c : string) : (a +:+ b) +:+ c = a +:+ (b +:+ c).
Proof. induction a as [|x a IH]; [reflexivity|]. rewrite !app_cons, IH. reflexivity. Qed.

Lemma join_cons_nonempty sep t (ts : list string) :
  ts <> [] -> join sep (t :: ts) = t +:+ sep +:+ join sep ts.
Proof. destruct ts; [contradiction | reflexivity]. Qed.

(** A path under an open group holds a slash. *)
Lemma join_under_group g (stack : list string) name :
  exists r, join "/" ((g :: stack) ++ [name]) = g +:+ "/" +:+ r.
Proof.
  exists (join "/" (stack ++ [name])). apply join_cons_nonempty.
  destruct stack; discriminate.
Qed.

Lemma column_path_not_reserved (stack : list string) name suffix :
  column_name name = true ->
  (suffix = "" \/ suffix ∈ geopoint_suffixes) ->
  not_reserved_path (join "/" (stack ++ [name]) +:+ suffix).
Proof.
  intros Hn Hs. destruct stack as [|g stack].
  - simpl. destruct Hs as [-> | Hs].
    + assert (E : name +:+ "" = name).
      { clear. induction name as [|c n IH]; [reflexivity|]. rewrite app_cons, IH. reflexivity. }
      rewrite E. split; apply column_name_not_reserved, Hn.
    + split; apply column_name_head, Hn.
  - destruct (join_under_group g stack name) as [r ->].
    rewrite app_assoc_str, (app_assoc_str "/").
    split; apply slash_app_neq; simpl; repeat split.
Qed.

Lemma flatten_loop_paths survey :
  forall cols stack r,
    Forall (fun col => not_reserved_path col.1) cols ->
    flatten_loop survey cols stack = Ok r ->
    Forall (fun col => not_reserved_path col.1) r.
Proof.
  induction survey as [|q rest IH]; intros cols stack r Hcols; [intros [= <-]; exact Hcols|].
  cbn [flatten_loop].
  destruct (is_group_marker (default "" (q_type q))).
  - destruct (startswith "begin" (default "" (q_type q))); [apply IH, Hcols|].
    destruct stack as [|g stack]; [apply IH, Hcols|].
    destruct (py_pop (g :: stack)); [apply IH, Hcols | discriminate].
  - destruct (q_name q) as [name|]; [|apply IH, Hcols].
    destruct (negb (nonempty name) || startswith "_" name) eqn:Hname; [apply IH, Hcols|].
    assert (Hn : column_name name = true).
    { unfold column_name. apply orb_false_iff in Hname as [H1 H2].
      apply negb_false_iff in H1. rewrite H1, H2. reflexivity. }
    destruct (py_join "/" (stack ++ [Some name])) as [path|e] eqn:Hj; [|discriminate].
    apply py_join_Ok in Hj as (names & _ & ->).
    assert (Hplain : not_reserved_path (join "/" (names ++ [name]))).
    { pose proof (column_path_not_reserved names name "" Hn (or_introl eq_refl)) as H.
      assert (E : forall s, s +:+ "" = s).
      { clear. intros s. induction s as [|c n IH]; [reflexivity|].
        rewrite app_cons, IH. reflexivity. }
      rewrite E in H. exact H. }
    destruct (str_eqb (default "" (q_type q)) "geopoint").
    + apply IH. apply Forall_app. split; [exact Hcols|].
      apply Forall_fmap, Forall_forall. intros suffix Hs.
      apply (column_path_not_reserved names name suffix Hn). right.
      exact Hs.
    + destruct (str_eqb (default "" (q_type q)) "select_multiple");
        apply IH; apply Forall_app; (split; [exact Hcols|]);
        constructor; [exact Hplain | constructor | exact Hplain | constructor].
Qed.

(** The number of columns grows by what each node gives. *)
Lemma flatten_loop_length survey :
  forall cols stack r,
    flatten_loop survey cols stack = Ok r ->
    length r = length cols + sum_list (columns_of <$> survey).
Proof.
  induction survey as [|q rest IH]; intros cols stack r.
  { intros [= <-]. simpl. lia. }
  cbn [flatten_loop]. rewrite fmap_cons. cbn [sum_list sum_list_with].
  unfold columns_of at 1.
  destruct (is_group_marker (default "" (q_type q))).
  - destruct (startswith "begin" (default "" (q_type q))); [apply IH|].
    destruct stack as [|g stack]; [apply IH|].
    destruct (py_pop (g :: stack)); [apply IH | discriminate].
  - destruct (q_name q) as [name|]; [|apply IH].
    unfold column_name.
    destruct (nonempty name); cbn [negb orb andb]; [|apply IH].
    destruct (startswith "_" name); cbn [negb]; [apply IH|].
    destruct (py_join "/" (stack ++ [Some name])) as [path|e]; [|discriminate].
    destruct (str_eqb (default "" (q_type q)) "geopoint").
    + intros H. apply IH in H. rewrite length_app, length_fmap in H.
      change (length geopoint_suffixes) with 4 in H. unfold id in H |- *. lia.
    + destruct (str_eqb (default "" (q_type q)) "select_multiple");
        intros H; apply IH in H; rewrite length_app in H;
        cbn [length] in H; unfold id in H |- *; lia.
Qed.

(** ** The dict of the schema map *)

Lemma dict_set_keys_nodup {V} (k : string) (v : V) d :
  NoDup d.*1 -> NoDup (dict_set k v d).*1.
Proof.
  induction d as [|[k' v'] d IH]; simpl.
  - intros _. apply NoDup_singleton.
  - intros H. apply NoDup_cons in H as [Hk' Hd].
    destruct (str_eqb k k') eqn:E.
    + apply str_eqb_true in E as ->. simpl. apply NoDup_cons. auto.
    + simpl. apply NoDup_cons. split; [|auto].
      rewrite elem_of_dict_set_keys. intros [-> | H]; [|contradiction].
      rewrite str_eqb_refl in E. discriminate.
Qed.

Lemma dict_get_set {V} (k k' : string) (v : V) d :
  dict_get k' (dict_set k v d) = if str_eqb k' k then Some v else dict_get k' d.
Proof.
  induction d as [|[k0 v0] d IH]; simpl; [reflexivity|].
  destruct (str_eqb k k0) eqn:E; simpl.
  - apply str_eqb_true in E as <-. destruct (str_eqb k' k); reflexivity.
  - rewrite IH. destruct (str_eqb k' k0) eqn:E0; [|reflexivity].
    apply str_eqb_true in E0 as ->.
    destruct (str_eqb k0 k) eqn:E1; [|reflexivity].
    apply str_eqb_true in E1 as ->. rewrite str_eqb_refl in E. discriminate.
Qed.

Lemma dict_fold_invariants {V} (items d : list (string * V)) :
  NoDup d.*1 ->
  let d' := fold_left (fun d kv => dict_set kv.1 kv.2 d) items d in
  NoDup d'.*1 /\
  forall k, dict_get k d' = match dict_get k (reverse items) with
                            | Some v => Some v
                            | None => dict_get k d
                            end.
Proof.
  revert d. induction items as [|[k v] items IH]; intros d Hd; simpl.
  - auto.
  - destruct (IH (dict_set k v d) (dict_set_keys_nodup k v d Hd)) as [Hn Hg].
    split; [exact Hn|]. intros k'. rewrite Hg, reverse_cons, dict_get_set.
    clear. induction (reverse items) as [|[k0 v0] l IHl]; simpl.
    + destruct (str_eqb k' k); reflexivity.
    + destruct (str_eqb k' k0); [reflexivity | exact IHl].
Qed.

End MoreFlattener.

(** X5. The number of columns that the flattener returns depends on the
    leaf nodes of the survey alone: four for each geopoint with a column
    name, one for each other question with a column name, none for group
    markers and for nodes that are skipped - however the groups open and
    close. *)
Theorem flatten_survey_length (survey : list Question) (choice_lists : list Choice)
    (cols : list (string * Question)) :
  flatten_survey survey choice_lists = Ok cols ->
  length cols = sum_list (columns_of <$> survey).
Proof.
  unfold flatten_survey. intros Hcols.
  apply flatten_loop_length in Hcols. exact Hcols.
Qed.

(** X5, witness: a close marker with no open group, a geopoint, a group
    with a text question, and a node with a reserved name. *)
Lemma flatten_survey_length_witness :
  let geo := mkQuestion (Some "geopoint") (Name "loc") None None in
  let txt := mkQuestion (Some "text") (Name "a") None None in
  length [("loc_latitude", geo); ("loc_longitude", geo); ("loc_altitude", geo);
          ("loc_precision", geo); ("grp/a", txt)]
  = sum_list (columns_of
                <$> [mkQuestion (Some "end_group") NoKey None None; geo;
                     mkQuestion (Some "begin_group") (Name "grp") None None; txt;
                     mkQuestion (Some "text") (Name "_version") None None]).
Proof.
  intros geo txt.
  exact (flatten_survey_length
           [mkQuestion (Some "end_group") NoKey None None; geo;
            mkQuestion (Some "begin_group") (Name "grp") None None; txt;
            mkQuestion (Some "text") (Name "_version") None None] []
           [("loc_latitude", geo); ("loc_longitude", geo); ("loc_altitude", geo);
            ("loc_precision", geo); ("grp/a", txt)] eq_refl).
Defined.

(** X6. For every asset, "_uuid" and "_id" are never paths of the survey
    and never keys of the schema map; the template is the flattened
    columns, then "meta/instanceID" unless the survey has a column at that
    path, then "_uuid" and "_id". *)
Theorem build_template_df_system_columns (asset : Asset)
    (template : list string) (schema_map : list (string * Question)) :
  build_template_df asset = Ok (template, schema_map) ->
  exists cols,
    flatten_survey
      (default [] (survey (default (mkContent None None) (content asset))))
      (default [] (choices (default (mkContent None None) (content asset))))
    = Ok cols /\
    template
    = cols.*1 ++ (if bool_decide ("meta/instanceID" ∈ cols.*1) then []
                  else ["meta/instanceID"]) ++ ["_uuid"; "_id"] /\
    ("_uuid" ∉ schema_map.*1) /\ ("_id" ∉ schema_map.*1).
Proof.
  unfold build_template_df.
  destruct (flatten_survey _ _) as [cols|e] eqn:Hflat; [|discriminate].
  intros [= <- <-]. exists cols. split; [reflexivity|].
  assert (Hpaths : Forall (fun col => not_reserved_path col.1) cols).
  { unfold flatten_survey in Hflat.
    apply (flatten_loop_paths _ [] [] cols (Forall_nil_2 _) Hflat). }
  assert (Hno : forall k, k = "_uuid" \/ k = "_id" -> k ∉ cols.*1).
  { intros k Hk Hin. apply list_elem_of_fmap in Hin as (col & -> & Hcol).
    rewrite Forall_forall in Hpaths. destruct (Hpaths col Hcol) as [H1 H2].
    destruct Hk; contradiction. }
  split; [|split].
  - rewrite add_system_columns_spec. f_equal.
    unfold system_columns. rewrite !filter_cons, filter_nil.
    destruct (decide ("_uuid" ∉ cols.*1)) as [_|H]; [|exfalso; apply H, Hno; auto].
    destruct (decide ("_id" ∉ cols.*1)) as [_|H]; [|exfalso; apply H, Hno; auto].
    destruct (decide ("meta/instanceID" ∉ cols.*1)) as [H|H].
    + rewrite bool_decide_eq_false_2 by exact H. reflexivity.
    + apply dec_stable in H. rewrite bool_decide_eq_true_2 by exact H. reflexivity.
  - rewrite elem_of_dict_of_items_keys. apply Hno. auto.
  - rewrite elem_of_dict_of_items_keys. apply Hno. auto.
Qed.

(** X6, witness: an asset with one text question. *)
Lemma build_template_df_system_columns_witness :
  exists cols,
    flatten_survey [mkQuestion (Some "text") (Name "age") None None] [] = Ok cols /\
    ["age"; "meta/instanceID"; "_uuid"; "_id"]
    = cols.*1 ++ (if bool_decide ("meta/instanceID" ∈ cols.*1) then []
                  else ["meta/instanceID"]) ++ ["_uuid"; "_id"] /\
    ("_uuid" ∉ [("age", mkQuestion (Some "text") (Name "age") None None)].*1) /\
    ("_id" ∉ [("age", mkQuestion (Some "text") (Name "age") None None)].*1).
Proof.
  exact (build_template_df_system_columns
           (mkAsset (Some (mkContent
              (Some [mkQuestion (Some "text") (Name "age") None None]) None)))
           ["age"; "meta/instanceID"; "_uuid"; "_id"]
           [("age", mkQuestion (Some "text") (Name "age") None None)] eq_refl).
Defined.

(** X7. The schema map has each path once: when several flattened columns
    share a path, the key keeps the place of the first and holds the
    metadata of the last. *)
Theorem schema_map_keys (flattened : list (string * Question)) :
  NoDup (dict_of_items flattened).*1 /\
  (forall path, path ∈ (dict_of_items flattened).*1 <-> path ∈ flattened.*1) /\
  (forall path, dict_get path (dict_of_items flattened)
                = dict_get path (reverse flattened)).
Proof.
  destruct (dict_fold_invariants flattened [] (NoDup_nil_2 : NoDup ([] : list (string * Question)).*1))
    as [Hn Hg].
  split; [exact Hn|]. split; [apply elem_of_dict_of_items_keys|].
  intros path. unfold dict_of_items. rewrite Hg.
  destruct (dict_get path (reverse flattened)); reflexivity.
Qed.

(* ===================================================================== *)
(** * Further properties: the frame of an edit and its IDs                *)
(* ===================================================================== *)

Section Frames.
Import PyStr PyStrFacts.

Implicit Types (df : list (string * list Cell)) (k label : string) (c : Cell).

Lemma frame_get_dict_get label df : frame_get label df = dict_get label df.
Proof. induction df as [|[c data] df IH]; [reflexivity|]. simpl. rewrite IH. reflexivity. Qed.

Lemma dict_set_set {V} k (v1 v2 : V) d :
  dict_set k v2 (dict_set k v1 d) = dict_set k v2 d.
Proof.
  induction d as [|[k' v'] d IH]; simpl.
  - rewrite str_eqb_refl. reflexivity.
  - destruct (str_eqb k k') eqn:E; simpl.
    + rewrite str_eqb_refl. reflexivity.
    + rewrite E, IH. reflexivity.
Qed.

Lemma dict_set_labels {V} k (v : V) d :
  (dict_set k v d).*1 = if bool_decide (k ∈ d.*1) then d.*1 else d.*1 ++ [k].
Proof.
  induction d as [|[k' v'] d IH]; [reflexivity|]. cbn [dict_set].
  rewrite (fmap_cons fst _ d). cbn [fst].
  destruct (str_eqb k k') eqn:E.
  - apply str_eqb_true in E as ->.
    rewrite bool_decide_eq_true_2 by apply list_elem_of_here. reflexivity.
  - rewrite fmap_cons, IH. cbn [fst]. destruct (bool_decide (k ∈ d.*1)) eqn:Hin.
    + apply bool_decide_eq_true in Hin.
      rewrite bool_decide_eq_true_2 by (apply list_elem_of_further, Hin). reflexivity.
    + apply bool_decide_eq_false in Hin.
      rewrite bool_decide_eq_false_2; [reflexivity|].
      intros H. apply elem_of_cons in H as [-> | H]; [|contradiction].
      rewrite str_eqb_refl in E. discriminate.
Qed.

Lemma dict_get_None {V} k (d : list (string * V)) : dict_get k d = None <-> k ∉ d.*1.
Proof.
  induction d as [|[k' v'] d IH]; simpl.
  - split; [intros _ H; inversion H | reflexivity].
  - destruct (str_eqb k k') eqn:E.
    + apply str_eqb_true in E as ->. split; [discriminate|].
      intros H. exfalso. apply H, list_elem_of_here.
    + rewrite IH, not_elem_of_cons. split; [|tauto].
      intros H. split; [|exact H]. intros ->. rewrite str_eqb_refl in E. discriminate.
Qed.

Lemma dict_get_is_Some {V} k (d : list (string * V)) : k ∈ d.*1 -> is_Some (dict_get k d).
Proof.
  intros H. destruct (dict_get k d) eqn:E; [eauto|].
  apply dict_get_None in E. contradiction.
Qed.

(** ** [ensure_uuid_prefix] on cells *)

Lemma ensure_uuid_prefix_cell_falsy c :
  cell_truthy c = false -> ensure_uuid_prefix_cell c = c.
Proof. unfold ensure_uuid_prefix_cell. intros ->. reflexivity. Qed.

(** A true cell becomes a text: trimmed, not empty, with the prefix. *)
Lemma ensure_uuid_prefix_cell_truthy c :
  cell_truthy c = true ->
  exists s, ensure_uuid_prefix_cell c = CStr s /\
            s <> "" /\ strip s = s /\ startswith "uuid:" s = true.
Proof.
  unfold ensure_uuid_prefix_cell. intros ->. cbn [negb].
  destruct (startswith "uuid:" (strip (py_str c))) eqn:Hs.
  - exists (strip (py_str c)). split; [reflexivity|]. split; [|split].
    + intros E. rewrite E in Hs. discriminate.
    + apply strip_idem.
    + exact Hs.
  - exists ("uuid:" +:+ strip (py_str c)). split; [reflexivity|]. split; [|split].
    + rewrite uuid_app. discriminate.
    + rewrite strip_uuid_app, strip_rstrip. reflexivity.
    + apply startswith_app.
Qed.

Lemma ensure_uuid_prefix_cell_text s :
  s <> "" -> ensure_uuid_prefix_cell (CStr s) = CStr (ensure_uuid_prefix s).
Proof.
  intros Hs. apply nonempty_true in Hs.
  unfold ensure_uuid_prefix_cell, ensure_uuid_prefix. cbn [cell_truthy py_str].
  rewrite Hs. cbn [negb]. destruct (startswith _ _); reflexivity.
Qed.

Lemma ensure_uuid_prefix_cell_idempotent c :
  ensure_uuid_prefix_cell (ensure_uuid_prefix_cell c) = ensure_uuid_prefix_cell c.
Proof.
  destruct (cell_truthy c) eqn:Ht.
  - destruct (ensure_uuid_prefix_cell_truthy c Ht) as (s & -> & Hne & Hstrip & Hpre).
    rewrite (ensure_uuid_prefix_cell_text s Hne). f_equal.
    apply ensure_uuid_prefix_fixed; assumption.
  - rewrite (ensure_uuid_prefix_cell_falsy c Ht). apply ensure_uuid_prefix_cell_falsy, Ht.
Qed.

(** The guard [if pd.notna(x)] of the first pass is undone by the second
    pass, which has none. *)
Lemma ensure_uuid_prefix_cell_guard c :
  ensure_uuid_prefix_cell (if notna c then ensure_uuid_prefix_cell c else c)
  = ensure_uuid_prefix_cell c.
Proof. destruct (notna c); [apply ensure_uuid_prefix_cell_idempotent | reflexivity]. Qed.

(** ** The frame that [normalize_update_ids] returns *)

Lemma first_candidate_elem cands labels cand :
  first_candidate cands labels = Some cand -> cand ∈ cands /\ cand ∈ labels.
Proof.
  induction cands as [|a cands IH]; [discriminate|]. simpl.
  destruct (bool_decide (a ∈ labels)) eqn:Ha.
  - intros [= <-]. apply bool_decide_eq_true in Ha. split; [left | exact Ha].
  - intros H. destruct (IH H). split; [right|]; assumption.
Qed.

Lemma strip_labels_labels df : (strip_labels df).*1 = strip <$> df.*1.
Proof.
  unfold strip_labels. rewrite <- !list_fmap_compose. reflexivity.
Qed.

(** The two passes as one: the labels are trimmed, and the column
    "meta/instanceID" is set to the normalized cells of the ID source. *)
Lemma normalize_update_ids_frame df :
  (normalize_update_ids df).1
  = match id_source (strip_labels df).*1 with
    | Some src =>
        dict_set "meta/instanceID"
          (ensure_uuid_prefix_cell <$> default [] (frame_get src (strip_labels df)))
          (strip_labels df)
    | None => strip_labels df
    end.
Proof.
  unfold normalize_update_ids, id_source. fold (strip_labels df).
  generalize (strip_labels df). clear df. intros df.
  destruct (bool_decide ("meta/instanceID" ∈ df.*1)) eqn:Hmi.
  - cbn [fst snd]. rewrite Hmi. reflexivity.
  - destruct (first_candidate id_candidates df.*1) as [cand|] eqn:Hc; cbn [fst snd].
    + rewrite dict_set_labels, Hmi.
      rewrite bool_decide_eq_true_2
        by (apply elem_of_app; right; apply list_elem_of_here).
      cbn [fst]. rewrite dict_set_set, !frame_get_dict_get, dict_get_set, str_eqb_refl.
      change (default [] (Some ?x)) with x.
      rewrite <- list_fmap_compose. f_equal.
      apply list_fmap_ext. intros _ c _. apply ensure_uuid_prefix_cell_guard.
    + rewrite Hmi. reflexivity.
Qed.

Lemma normalize_update_ids_info df :
  (normalize_update_ids df).2
  = mkNormInfo
      (negb (bool_decide ("meta/instanceID" ∈ (strip_labels df).*1))
       && bool_decide (is_Some (first_candidate id_candidates (strip_labels df).*1)))
      (bool_decide (is_Some (id_source (strip_labels df).*1))).
Proof.
  unfold normalize_update_ids, id_source. fold (strip_labels df).
  generalize (strip_labels df). clear df. intros df.
  destruct (bool_decide ("meta/instanceID" ∈ df.*1)) eqn:Hmi.
  - cbn [fst snd]. rewrite Hmi. reflexivity.
  - destruct (first_candidate id_candidates df.*1) as [cand|] eqn:Hc; cbn [fst snd].
    + rewrite dict_set_labels, Hmi.
      rewrite bool_decide_eq_true_2
        by (apply elem_of_app; right; apply list_elem_of_here).
      reflexivity.
    + rewrite Hmi. reflexivity.
Qed.

Lemma id_source_elem labels src : id_source labels = Some src -> src ∈ labels.
Proof.
  unfold id_source. destruct (bool_decide _) eqn:Hmi.
  - intros [= <-]. apply bool_decide_eq_true in Hmi. exact Hmi.
  - intros H. apply first_candidate_elem in H as [_ H]. exact H.
Qed.

Lemma id_source_candidate labels src :
  id_source labels = Some src -> src ∈ "meta/instanceID" :: id_candidates.
Proof.
  unfold id_source. destruct (bool_decide _).
  - intros [= <-]. left.
  - intros H. apply first_candidate_elem in H as [H _]. right. exact H.
Qed.

Lemma strip_labels_fixed df :
  Forall (fun label => strip label = label) df.*1 -> strip_labels df = df.
Proof.
  unfold strip_labels. induction df as [|[c data] df IH]; [reflexivity|].
  rewrite (fmap_cons fst), Forall_cons. cbn [fst snd]. intros [Hc H].
  rewrite fmap_cons, (IH H). cbn [fst snd]. rewrite Hc. reflexivity.
Qed.

(** ** The rows of a frame *)

Lemma frame_row_cons lbl data df i :
  frame_row ((lbl, data) :: df) i
  = match data !! i with
    | Some val => <[lbl := val]> (frame_row df i)
    | None => frame_row df i
    end.
Proof. unfold frame_row. simpl. destruct (data !! i); reflexivity. Qed.

Lemma frame_row_lookup df i k :
  NoDup df.*1 -> frame_row df i !! k = dict_get k df ≫= (fun data => data !! i).
Proof.
  induction df as [|[lbl data] df IH]; [intros _; apply lookup_empty|].
  rewrite fmap_cons, NoDup_cons. cbn [fst]. intros [Hc Hdf].
  rewrite frame_row_cons. cbn [dict_get].
  destruct (str_eqb k lbl) eqn:E.
  - apply str_eqb_true in E as ->. cbn [mbind option_bind].
    destruct (data !! i) as [val|]; [apply lookup_insert_eq|].
    rewrite (IH Hdf). apply dict_get_None in Hc. rewrite Hc. reflexivity.
  - assert (Hne : lbl <> k) by (intros ->; rewrite str_eqb_refl in E; discriminate).
    destruct (data !! i) as [val|]; [rewrite lookup_insert_ne by exact Hne|]; apply (IH Hdf).
Qed.

Lemma frame_row_keys df i k :
  is_Some (frame_row df i !! k) -> k ∈ df.*1.
Proof.
  induction df as [|[lbl data] df IH].
  - change (frame_row [] i) with (∅ : gmap string Cell).
    rewrite lookup_empty. intros [? ?]. discriminate.
  - rewrite frame_row_cons, fmap_cons. cbn [fst].
    destruct (data !! i) as [val|].
    + destruct (decide (lbl = k)) as [-> | Hne]; [intros _; left|].
      rewrite lookup_insert_ne by exact Hne. intros H. right. apply IH, H.
    + intros H. right. apply IH, H.
Qed.

End Frames.

Section EditFrame.
Import PyStr PyStrFacts.

Implicit Types (df : list (string * list Cell)) (label : string).

Lemma strip_labels_nodup df :
  NoDup (strip <$> df.*1) -> NoDup (strip_labels df).*1.
Proof. rewrite strip_labels_labels. auto. Qed.

Lemma normalize_update_ids_nodup df :
  NoDup (strip <$> df.*1) -> NoDup (normalize_update_ids df).1.*1.
Proof.
  intros H. apply strip_labels_nodup in H. rewrite normalize_update_ids_frame.
  destruct (id_source _); [apply dict_set_keys_nodup|]; exact H.
Qed.

(** The ID column of the frame returned, when there is an ID source. *)
Lemma normalize_update_ids_get df label src :
  id_source (strip_labels df).*1 = Some label ->
  frame_get label (strip_labels df) = Some src ->
  frame_get "meta/instanceID" (normalize_update_ids df).1
  = Some (ensure_uuid_prefix_cell <$> src).
Proof.
  intros Hsrc Hget. rewrite normalize_update_ids_frame, Hsrc, Hget.
  rewrite frame_get_dict_get, dict_get_set, str_eqb_refl. reflexivity.
Qed.

(** A true cell of the ID source is the direct ID of its row. *)
Lemma normalize_update_ids_row_id df label src i c id_map :
  NoDup (strip <$> df.*1) ->
  id_source (strip_labels df).*1 = Some label ->
  frame_get label (strip_labels df) = Some src ->
  src !! i = Some c ->
  cell_truthy c = true ->
  get_submission_id (frame_row (normalize_update_ids df).1 i) id_map
  = Ok (Some (py_str (ensure_uuid_prefix_cell c))).
Proof.
  intros Hnd Hsrc Hget Hi Ht.
  assert (Hrow : frame_row (normalize_update_ids df).1 i !! "meta/instanceID"
                 = Some (ensure_uuid_prefix_cell c)).
  { rewrite (frame_row_lookup _ _ _ (normalize_update_ids_nodup df Hnd)).
    rewrite <- frame_get_dict_get, (normalize_update_ids_get df label src Hsrc Hget).
    cbn [mbind option_bind]. rewrite list_lookup_fmap, Hi. reflexivity. }
  destruct (ensure_uuid_prefix_cell_truthy c Ht) as (s & Hs & Hne & Hstrip & Hpre).
  rewrite Hs in Hrow |- *.
  rewrite (get_submission_id_direct _ _ (CStr s)).
  - cbn [py_str]. rewrite Hstrip, (ensure_uuid_prefix_fixed s Hstrip Hpre). reflexivity.
  - cbn [first_notna]. unfold row_get. rewrite Hrow. reflexivity.
Qed.

End EditFrame.

(** X8. After [normalize_update_ids] the column "meta/instanceID" holds the
    normalized cells of the ID source - the column "meta/instanceID" of the
    file, else the first candidate column that the file has - whatever the
    guard of the first pass left alone: a text gets trimmed and prefixed,
    an empty cell (NaN) becomes the text "uuid:nan", and only a false value
    (None, the empty string, 0) stays as it is.  Without an ID source the
    frame has no such column and only its labels are trimmed. *)
Theorem normalize_update_ids_column (df : list (string * list Cell)) :
  NoDup (PyStr.strip <$> df.*1) ->
  match id_source (strip_labels df).*1 with
  | Some label =>
      exists src,
        frame_get label (strip_labels df) = Some src /\
        frame_get "meta/instanceID" (normalize_update_ids df).1
        = Some (ensure_uuid_prefix_cell <$> src)
  | None =>
      frame_get "meta/instanceID" (normalize_update_ids df).1 = None /\
      (normalize_update_ids df).1 = strip_labels df
  end.
Proof.
  intros _. destruct (id_source (strip_labels df).*1) as [label|] eqn:Hsrc.
  - destruct (dict_get_is_Some label (strip_labels df) (id_source_elem _ _ Hsrc))
      as [src Hget].
    rewrite <- frame_get_dict_get in Hget. exists src. split; [exact Hget|].
    apply (normalize_update_ids_get df label src Hsrc Hget).
  - rewrite normalize_update_ids_frame, Hsrc. split; [|reflexivity].
    rewrite frame_get_dict_get. apply dict_get_None.
    unfold id_source in Hsrc.
    destruct (bool_decide ("meta/instanceID" ∈ (strip_labels df).*1)) eqn:Hmi;
      [discriminate|].
    apply bool_decide_eq_false in Hmi. exact Hmi.
Qed.

(** X8, witness: a file whose IDs stand in the column " _uuid ", the second
    one empty. *)
Lemma normalize_update_ids_column_witness :
  frame_get "meta/instanceID"
    (normalize_update_ids [("name", [CStr "Ann"; CStr "Bob"]);
                           (" _uuid ", [CStr " abc"; CNaN])]).1
  = Some [CStr "uuid:abc"; CStr "uuid:nan"].
Proof.
  pose proof (normalize_update_ids_column
                [("name", [CStr "Ann"; CStr "Bob"]); (" _uuid ", [CStr " abc"; CNaN])])
    as H.
  assert (Hnd : NoDup (PyStr.strip <$> [("name", [CStr "Ann"; CStr "Bob"]);
                                        (" _uuid ", [CStr " abc"; CNaN])].*1)).
  { apply NoDup_cons. split; [|apply NoDup_singleton].
    intros Hin. apply list_elem_of_singleton in Hin. discriminate. }
  specialize (H Hnd). destruct H as (src & Hsrc & H).
  injection Hsrc as <-. exact H.
Defined.

(** X9. [normalize_update_ids] is idempotent on the frame: normalizing the
    frame it returned changes nothing. *)
Theorem normalize_update_ids_idempotent (df : list (string * list Cell)) :
  NoDup (PyStr.strip <$> df.*1) ->
  (normalize_update_ids (normalize_update_ids df).1).1 = (normalize_update_ids df).1.
Proof.
  intros _.
  assert (Hlabels : Forall (fun label => PyStr.strip label = label) (strip_labels df).*1).
  { rewrite strip_labels_labels. apply Forall_fmap, Forall_forall.
    intros label _. apply PyStrFacts.strip_idem. }
  rewrite (normalize_update_ids_frame (normalize_update_ids df).1).
  rewrite (normalize_update_ids_frame df).
  destruct (id_source (strip_labels df).*1) as [label|] eqn:Hsrc.
  - set (v := ensure_uuid_prefix_cell <$> default [] (frame_get label (strip_labels df))).
    assert (Hin : "meta/instanceID" ∈ (dict_set "meta/instanceID" v (strip_labels df)).*1).
    { apply elem_of_dict_set_keys. auto. }
    rewrite strip_labels_fixed.
    + unfold id_source at 1. rewrite bool_decide_eq_true_2 by exact Hin.
      rewrite frame_get_dict_get, dict_get_set, str_eqb_refl, dict_set_set.
      change (default [] (Some v)) with v. f_equal.
      unfold v. rewrite <- list_fmap_compose. apply list_fmap_ext.
      intros _ c _. apply ensure_uuid_prefix_cell_idempotent.
    + rewrite dict_set_labels. destruct (bool_decide _); [exact Hlabels|].
      apply Forall_app. split; [exact Hlabels|]. constructor; [reflexivity | constructor].
  - rewrite (strip_labels_fixed _ Hlabels), Hsrc. reflexivity.
Qed.

(** X9, witness. *)
Lemma normalize_update_ids_idempotent_witness :
  (normalize_update_ids (normalize_update_ids [(" _uuid ", [CStr " abc"; CNaN])]).1).1
  = (normalize_update_ids [(" _uuid ", [CStr " abc"; CNaN])]).1.
Proof.
  apply (normalize_update_ids_idempotent [(" _uuid ", [CStr " abc"; CNaN])]).
  apply NoDup_singleton.
Defined.

(** X10. [normalize_update_ids] touches nothing but the labels and the ID
    column: the columns keep their order and their cells under the trimmed
    labels, and "meta/instanceID" is added as the last column exactly when
    it was created from a candidate.  Of the two flags,
    [created_from_uuid] is set only together with [standardized_prefix],
    which tells whether the frame returned has the column. *)
Theorem normalize_update_ids_other_columns (df : list (string * list Cell)) :
  NoDup (PyStr.strip <$> df.*1) ->
  let out := normalize_update_ids df in
  out.1.*1 = (PyStr.strip <$> df.*1)
             ++ (if created_from_uuid out.2 then ["meta/instanceID"] else []) /\
  (forall label, label <> "meta/instanceID" ->
     frame_get label out.1 = frame_get label (strip_labels df)) /\
  (created_from_uuid out.2 = true -> standardized_prefix out.2 = true) /\
  standardized_prefix out.2 = bool_decide ("meta/instanceID" ∈ out.1.*1).
Proof.
  intros _ out. unfold out.
  rewrite normalize_update_ids_frame, normalize_update_ids_info.
  cbn [created_from_uuid standardized_prefix]. rewrite <- strip_labels_labels.
  unfold id_source.
  destruct (bool_decide ("meta/instanceID" ∈ (strip_labels df).*1)) eqn:Hmi.
  - cbn [negb andb]. rewrite dict_set_labels, Hmi, app_nil_r.
    split; [reflexivity|]. split; [|split; [discriminate|]].
    + intros label Hne. rewrite !frame_get_dict_get, dict_get_set.
      rewrite (str_eqb_neq _ _ Hne). reflexivity.
    + rewrite Hmi. reflexivity.
  - cbn [negb andb].
    destruct (first_candidate id_candidates (strip_labels df).*1) as [cand|] eqn:Hc.
    + rewrite dict_set_labels, Hmi.
      rewrite !bool_decide_eq_true_2; eauto;
        try (apply elem_of_app; right; apply list_elem_of_here).
      split; [reflexivity|]. split; [|split; reflexivity].
      intros label Hne. rewrite !frame_get_dict_get, dict_get_set.
      rewrite (str_eqb_neq _ _ Hne). reflexivity.
    + rewrite app_nil_r, Hmi.
      rewrite !bool_decide_eq_false_2 by (intros [? ?]; discriminate).
      split; [reflexivity|]. split; [reflexivity|]. split; [discriminate | reflexivity].
Qed.

(** X10, witness. *)
Lemma normalize_update_ids_other_columns_witness :
  (normalize_update_ids [(" name", [CStr "Ann"]); ("uuid", [CStr "abc"])]).1.*1
  = ["name"; "uuid"; "meta/instanceID"].
Proof.
  assert (Hnd : NoDup (PyStr.strip <$> [(" name", [CStr "Ann"]); ("uuid", [CStr "abc"])].*1)).
  { apply NoDup_cons. split; [|apply NoDup_singleton].
    intros Hin. apply list_elem_of_singleton in Hin. discriminate. }
  exact (proj1 (normalize_update_ids_other_columns
                  [(" name", [CStr "Ann"]); ("uuid", [CStr "abc"])] Hnd)).
Defined.

(** X11. After [normalize_update_ids], a row whose cell in the ID source is
    a true value is resolved by [get_submission_id] to the normalized text
    of that cell, whatever the other columns and the table of known records
    hold.  An empty cell (NaN) is such a value: its row is resolved to
    "uuid:nan", and neither its [_uuid] nor its [_id] is looked at. *)
Theorem normalize_update_ids_then_resolve (df : list (string * list Cell))
    (label : string) (src : list Cell) (i : nat) (c : Cell)
    (id_map : option (list Entry)) :
  NoDup (PyStr.strip <$> df.*1) ->
  id_source (strip_labels df).*1 = Some label ->
  frame_get label (strip_labels df) = Some src ->
  src !! i = Some c ->
  cell_truthy c = true ->
  get_submission_id (frame_row (normalize_update_ids df).1 i) id_map
  = Ok (Some (py_str (ensure_uuid_prefix_cell c))) /\
  (c = CNaN ->
   get_submission_id (frame_row (normalize_update_ids df).1 i) id_map
   = Ok (Some "uuid:nan")).
Proof.
  intros Hnd Hsrc Hget Hi Ht.
  pose proof (normalize_update_ids_row_id df label src i c id_map Hnd Hsrc Hget Hi Ht) as H.
  split; [exact H|]. intros ->. exact H.
Qed.

(** X11, witness: the second row of a file has an empty ID cell, a [_uuid]
    and an [_id]. *)
Lemma normalize_update_ids_then_resolve_witness :
  get_submission_id
    (frame_row
       (normalize_update_ids
          [("meta/instanceID", [CStr "uuid:a"; CNaN]);
           ("_uuid", [CStr "a"; CStr "b"]);
           ("_id", [CStr "1"; CStr "2"])]).1 1)
    (Some [mkEntry (CInt 2) (CStr "b") (CStr "uuid:b")])
  = Ok (Some "uuid:nan").
Proof.
  refine (proj1 (normalize_update_ids_then_resolve
            [("meta/instanceID", [CStr "uuid:a"; CNaN]);
             ("_uuid", [CStr "a"; CStr "b"]);
             ("_id", [CStr "1"; CStr "2"])]
            "meta/instanceID" [CStr "uuid:a"; CNaN] 1 CNaN
            (Some [mkEntry (CInt 2) (CStr "b") (CStr "uuid:b")])
            _ eq_refl eq_refl eq_refl eq_refl)).
  apply (bool_decide_unpack _). vm_compute. exact I.
Defined.

(** X12. In an edit, a row with an empty ID cell is not reported as having
    no target: unless "uuid:nan" is a known ID, [process_submissions] skips
    it with the detail "ID not found: nan...". *)
Theorem blank_id_cell_not_found (df : list (string * list Cell))
    (label : string) (src : list Cell) (i : nat)
    (id_map : option (list Entry)) (existing_ids : gset string)
    (form_id : string) (schema_map : list (string * Question)) (uuid4 : string) :
  NoDup (PyStr.strip <$> df.*1) ->
  id_source (strip_labels df).*1 = Some label ->
  frame_get label (strip_labels df) = Some src ->
  src !! i = Some CNaN ->
  "uuid:nan" ∉ existing_ids ->
  process_row true (frame_row (normalize_update_ids df).1 i) id_map existing_ids
    form_id schema_map uuid4
  = Skipped "ID not found: nan...".
Proof.
  intros Hnd Hsrc Hget Hi Hex. unfold process_row.
  rewrite (normalize_update_ids_row_id df label src i CNaN id_map Hnd Hsrc Hget Hi eq_refl).
  change (py_str (ensure_uuid_prefix_cell CNaN)) with "uuid:nan".
  cbn [PyStr.nonempty negb]. rewrite bool_decide_eq_false_2 by exact Hex.
  reflexivity.
Qed.

(** X12, witness. *)
Lemma blank_id_cell_not_found_witness :
  process_row true
    (frame_row (normalize_update_ids [("_uuid", [CStr "a"; CNaN])]).1 1)
    None {[ "uuid:a"; "a" ]} "form" [] "0"
  = Skipped "ID not found: nan...".
Proof.
  apply (blank_id_cell_not_found [("_uuid", [CStr "a"; CNaN])] "_uuid" [CStr "a"; CNaN] 1).
  - apply NoDup_singleton.
  - reflexivity.
  - reflexivity.
  - reflexivity.
  - apply (bool_decide_unpack _). vm_compute. exact I.
Defined.

(* ===================================================================== *)
(** * Further properties: the table of known records and the edit loop    *)
(* ===================================================================== *)

Section KnownRecords.
Import PyStr PyStrFacts.

Lemma drop_duplicates_spec (l : list Entry) :
  forall seen,
    drop_duplicates seen l `sublist_of` l /\
    NoDup (e_instanceID <$> drop_duplicates seen l) /\
    (forall e, e ∈ drop_duplicates seen l -> e_instanceID e ∉ seen) /\
    (forall e, e ∈ l ->
       e_instanceID e ∈ seen \/ e_instanceID e ∈ e_instanceID <$> drop_duplicates seen l).
Proof.
  induction l as [|e l IH]; intros seen.
  - simpl. split; [reflexivity|]. split; [apply NoDup_nil_2|].
    split; intros e H; inversion H.
  - cbn [drop_duplicates]. destruct (bool_decide (e_instanceID e ∈ seen)) eqn:Hin.
    + apply bool_decide_eq_true in Hin.
      destruct (IH seen) as (Hsub & Hnd & Hout & Hall).
      split; [apply sublist_cons, Hsub|]. split; [exact Hnd|]. split; [exact Hout|].
      intros e' He'. apply elem_of_cons in He' as [-> | He']; [left; exact Hin | auto].
    + apply bool_decide_eq_false in Hin.
      destruct (IH (e_instanceID e :: seen)) as (Hsub & Hnd & Hout & Hall).
      split; [apply sublist_skip, Hsub|]. split; [|split].
      * rewrite fmap_cons. apply NoDup_cons. split; [|exact Hnd].
        intros H. apply list_elem_of_fmap in H as (e' & Heq & He').
        apply (Hout e' He'). rewrite Heq. left.
      * intros e' He'. apply elem_of_cons in He' as [-> | He']; [exact Hin|].
        intros H. apply (Hout e' He'). right. exact H.
      * intros e' He'. rewrite fmap_cons.
        apply elem_of_cons in He' as [-> | He']; [right; left|].
        destruct (Hall e' He') as [H | H].
        -- apply elem_of_cons in H as [-> | H]; [right; left | left; exact H].
        -- right. right. exact H.
Qed.

Lemma fetch_submission_map_eq na results :
  fetch_submission_map na results = drop_duplicates [] (normalized_record na <$> results).
Proof.
  unfold fetch_submission_map. destruct results as [|rec results]; [reflexivity|].
  rewrite <- !list_fmap_compose. reflexivity.
Qed.

(** The ID of a record that has one, once normalized: the frame holds the
    text as it is. *)
Lemma normalized_record_id na rec s :
  cell_or (e_instanceID rec) (e_uuid rec) = CStr s -> s <> "" ->
  e_instanceID (normalized_record na rec) = CStr (ensure_uuid_prefix s) /\
  strip (ensure_uuid_prefix s) = ensure_uuid_prefix s /\
  startswith "uuid:" (ensure_uuid_prefix s) = true.
Proof.
  intros Hid Hs. cbn [normalized_record e_instanceID]. rewrite Hid. cbn [frame_cell].
  pose proof (proj2 (nonempty_true s) Hs) as Hs'.
  destruct (ensure_uuid_prefix_cell_truthy (CStr s) Hs') as (t & Ht & _ & H1 & H2).
  rewrite (ensure_uuid_prefix_cell_text s Hs) in Ht |- *. injection Ht as ->. auto.
Qed.

(** A known ID that is a normalized text is a member of the existing-ID
    set. *)
Lemma known_id_in_existing_set (table : list Entry) s :
  CStr s ∈ e_instanceID <$> table ->
  strip s = s -> startswith "uuid:" s = true ->
  s ∈ build_existing_id_set (Some table).
Proof.
  intros Hin Hstrip Hpre. apply list_elem_of_fmap in Hin as (e & He & Hin).
  apply elem_of_build_existing_id_set. exists e. split; [exact Hin|].
  rewrite <- He. split; [reflexivity|]. left. cbn [py_str].
  rewrite Hstrip. symmetry. apply ensure_uuid_prefix_fixed; assumption.
Qed.

(** The [deprecatedID] that an update adds is among the elements that
    [findall("meta/deprecatedID")] gives. *)
Lemma deprecated_element_in_document row form_id schema_map dep uuid4 e :
  e ∈ deprecated_element dep ->
  e ∈ findall2 (row_to_xml row form_id schema_map dep uuid4) "meta" "deprecatedID".
Proof.
  intros He.
  assert (H : findall2 (row_to_xml row form_id schema_map dep uuid4) "meta" "deprecatedID"
              ≡ₚ findall2 (row_to_xml row form_id schema_map None uuid4)
                   "meta" "deprecatedID" ++ deprecated_element dep).
  { apply findall2_find_or_sub_element; try apply fill_meta_tag_preserving.
    intros m. rewrite fill_meta_children, filter_app, filter_deprecated_element.
    reflexivity. }
  rewrite H. apply elem_of_app. right. exact He.
Qed.

(** What [get_submission_id] returns is a normal form. *)
Lemma get_submission_id_fixed row id_map_df d :
  get_submission_id row id_map_df = Ok (Some d) -> ensure_uuid_prefix d = d.
Proof.
  intros H.
  destruct (first_notna row ["meta/instanceID"; "_uuid"]) as [val|] eqn:Hf.
  - rewrite (get_submission_id_direct _ _ _ Hf) in H. injection H as <-.
    apply ensure_uuid_prefix_idempotent.
  - rewrite (get_submission_id_lookup _ _ Hf) in H. cbv zeta in H.
    destruct (filter _ _) as [|e [|e' l]]; try discriminate.
    destruct (notna _); [|discriminate]. injection H as <-.
    apply ensure_uuid_prefix_idempotent.
Qed.

End KnownRecords.

(** X13. The table that [fetch_submission_map] makes of the records of the
    data API, when each of them has an ID (an instance ID or else a UUID
    that is a text and not empty): it holds the normalized records in their
    order, one for each ID - the first -, so that no two of its records
    share an ID and no ID of the server is left out; and each of its IDs
    is a trimmed text that begins with "uuid:". *)
Theorem fetch_submission_map_ids (na : string -> Cell) (results : list Entry) :
  Forall has_id results ->
  let table := fetch_submission_map na results in
  table `sublist_of` (normalized_record na <$> results) /\
  NoDup (e_instanceID <$> table) /\
  (forall rec, rec ∈ results ->
     e_instanceID (normalized_record na rec) ∈ e_instanceID <$> table) /\
  (forall e, e ∈ table ->
     exists s, e_instanceID e = CStr s /\
               PyStr.strip s = s /\ PyStr.startswith "uuid:" s = true).
Proof.
  intros Hids table. unfold table. rewrite fetch_submission_map_eq.
  destruct (drop_duplicates_spec (normalized_record na <$> results) [])
    as (Hsub & Hnd & _ & Hall).
  split; [exact Hsub|]. split; [exact Hnd|]. split.
  - intros rec Hrec.
    destruct (Hall (normalized_record na rec)) as [H | H]; [|inversion H | exact H].
    apply list_elem_of_fmap. eauto.
  - intros e He. apply (fun H => elem_of_sublist _ _ _ H Hsub) in He.
    apply list_elem_of_fmap in He as (rec & -> & Hrec).
    rewrite Forall_forall in Hids. destruct (Hids rec Hrec) as (s & Hid & Hs).
    destruct (normalized_record_id na rec s Hid Hs) as (H1 & H2 & H3). eauto.
Qed.

(** X13, witness: two records of one submission, the second without
    instance ID. *)
Lemma fetch_submission_map_ids_witness :
  NoDup (e_instanceID
           <$> fetch_submission_map (fun _ => CNaN)
                 [mkEntry (CInt 1) (CStr "abc") (CStr "uuid:abc");
                  mkEntry (CInt 2) (CStr "abc") CNone]).
Proof.
  refine (proj1 (proj2 (fetch_submission_map_ids (fun _ => CNaN)
            [mkEntry (CInt 1) (CStr "abc") (CStr "uuid:abc");
             mkEntry (CInt 2) (CStr "abc") CNone] _))).
  constructor; [|constructor; [|constructor]].
  - exists "uuid:abc". split; [reflexivity | discriminate].
  - exists "abc". split; [reflexivity | discriminate].
Defined.

(** X14. An edit reaches the submission it names.  Let the table of known
    records and the existing-ID set be made from the records of the data
    API, and let a row have an ID cell - "meta/instanceID", or else
    "_uuid" - that is not blank and that names, with or without the prefix
    "uuid:" and whatever the whitespace around it, the ID of a record of
    the server.  Then the loop of [process_submissions] posts the row, as
    the update of that ID. *)
Theorem edit_row_reaches_known_record (na : string -> Cell) (results : list Entry)
    (rec : Entry) (row : gmap string Cell) (x s : string)
    (form_id : string) (schema_map : list (string * Question)) (uuid4 : string) :
  Forall (fun rec => text_or_missing (e_instanceID rec) /\ text_or_missing (e_uuid rec))
         results ->
  rec ∈ results ->
  cell_or (e_instanceID rec) (e_uuid rec) = CStr s -> s <> "" ->
  first_notna row ["meta/instanceID"; "_uuid"] = Some (CStr x) ->
  PyStr.strip x <> "" ->
  ensure_uuid_prefix x = ensure_uuid_prefix s ->
  let table := fetch_submission_map na results in
  process_row true row (Some table) (build_existing_id_set (Some table))
    form_id schema_map uuid4
  = Post (row_to_xml row form_id schema_map (Some (ensure_uuid_prefix s)) uuid4).
Proof.
  intros _ Hrec Hid Hs Hrow Hx Heq table. unfold process_row.
  rewrite (get_submission_id_direct _ _ _ Hrow). cbn [py_str].
  rewrite (ensure_uuid_prefix_strip x Hx), Heq.
  destruct (normalized_record_id na rec s Hid Hs) as (Hcell & Hstrip & Hpre).
  assert (Hne : PyStr.nonempty (ensure_uuid_prefix s) = true).
  { apply PyStrFacts.nonempty_true. intros E. rewrite E in Hpre. discriminate. }
  rewrite Hne. cbn [negb].
  rewrite bool_decide_eq_true_2; [reflexivity|].
  apply known_id_in_existing_set; [|exact Hstrip | exact Hpre].
  unfold table. rewrite fetch_submission_map_eq.
  destruct (drop_duplicates_spec (normalized_record na <$> results) [])
    as (_ & _ & _ & Hall).
  destruct (Hall (normalized_record na rec)) as [H | H].
  - apply list_elem_of_fmap. eauto.
  - inversion H.
  - rewrite <- Hcell. exact H.
Qed.

(** X14, witness: the server has the submission "uuid:abc"; the row names
    it as " abc ". *)
Lemma edit_row_reaches_known_record_witness :
  process_row true (<["_uuid" := CStr " abc "]> ∅)
    (Some (fetch_submission_map (fun _ => CNone)
             [mkEntry (CInt 1) (CStr "abc") (CStr "uuid:abc")]))
    (build_existing_id_set
       (Some (fetch_submission_map (fun _ => CNone)
                [mkEntry (CInt 1) (CStr "abc") (CStr "uuid:abc")])))
    "form" [] "0"
  = Post (row_to_xml (<["_uuid" := CStr " abc "]> ∅) "form" []
            (Some (ensure_uuid_prefix "uuid:abc")) "0").
Proof.
  apply (edit_row_reaches_known_record (fun _ => CNone)
           [mkEntry (CInt 1) (CStr "abc") (CStr "uuid:abc")]
           (mkEntry (CInt 1) (CStr "abc") (CStr "uuid:abc"))
           (<["_uuid" := CStr " abc "]> ∅) " abc " "uuid:abc").
  - repeat constructor.
  - apply list_elem_of_here.
  - reflexivity.
  - discriminate.
  - reflexivity.
  - discriminate.
  - reflexivity.
Defined.

(** X15. In an edit nothing is posted without a known target: a document
    that the loop of [process_submissions] posts is the encoding of the row
    with the ID that [get_submission_id] resolved, that ID begins with
    "uuid:" and is a member of the existing-ID set, and the document
    carries it, unchanged, as a meta/deprecatedID. *)
Theorem process_row_posts_known_id (row : gmap string Cell)
    (id_map : option (list Entry)) (existing_ids : gset string)
    (form_id : string) (schema_map : list (string * Question)) (uuid4 : string)
    (xml : Element) :
  process_row true row id_map existing_ids form_id schema_map uuid4 = Post xml ->
  exists d,
    get_submission_id row id_map = Ok (Some d) /\
    PyStr.startswith "uuid:" d = true /\
    d ∈ existing_ids /\
    xml = row_to_xml row form_id schema_map (Some d) uuid4 /\
    Elem "deprecatedID" [] (Some d) [] ∈ findall2 xml "meta" "deprecatedID".
Proof.
  unfold process_row.
  destruct (get_submission_id row id_map) as [[d|]|] eqn:Hget; try discriminate.
  destruct (PyStr.nonempty d) eqn:Hne; cbn [negb]; [|discriminate].
  destruct (bool_decide (d ∈ existing_ids)) eqn:Hin; [|discriminate].
  intros [= <-]. apply bool_decide_eq_true in Hin.
  pose proof (get_submission_id_fixed _ _ _ Hget) as Hfix.
  exists d. split; [reflexivity|]. split; [|split; [exact Hin|split; [reflexivity|]]].
  - rewrite <- Hfix. apply ensure_uuid_prefix_prefixed.
    apply PyStrFacts.nonempty_true, Hne.
  - apply deprecated_element_in_document. unfold deprecated_element.
    rewrite Hne, Hfix. apply list_elem_of_here.
Qed.

(** X15, witness. *)
Lemma process_row_posts_known_id_witness :
  exists d,
    get_submission_id (<["_uuid" := CStr "abc"]> ∅) None = Ok (Some d) /\
    PyStr.startswith "uuid:" d = true /\
    d ∈ ({[ "uuid:abc" ]} : gset string) /\
    row_to_xml (<["_uuid" := CStr "abc"]> ∅) "form" [] (Some "uuid:abc") "0"
    = row_to_xml (<["_uuid" := CStr "abc"]> ∅) "form" [] (Some d) "0" /\
    Elem "deprecatedID" [] (Some d) []
      ∈ findall2 (row_to_xml (<["_uuid" := CStr "abc"]> ∅) "form" []
                    (Some "uuid:abc") "0") "meta" "deprecatedID".
Proof.
  apply (process_row_posts_known_id (<["_uuid" := CStr "abc"]> ∅) None
           {[ "uuid:abc" ]} "form" [] "0").
  reflexivity.
Defined.

(* ===================================================================== *)
(** * Further properties: URLs and the form ID ([kobo_api.py])            *)
(* ===================================================================== *)

Section Api.
Import PyStr PyStrFacts.

Lemma rstrip_char_cons ch c s :
  rstrip_char ch (String c s)
  = match rstrip_char ch s with
    | "" => if Ascii.eqb c ch then "" else String c ""
    | r => String c r
    end.
Proof. reflexivity. Qed.

Lemma rstrip_char_slash base : rstrip_char "/" (base +:+ "/") = rstrip_char "/" base.
Proof.
  induction base as [|c base IH]; [reflexivity|].
  rewrite app_cons, !rstrip_char_cons, IH. reflexivity.
Qed.

Lemma lstrip_char_slash path : lstrip_char "/" ("/" +:+ path) = lstrip_char "/" path.
Proof. reflexivity. Qed.

Lemma rstrip_char_idempotent ch s : rstrip_char ch (rstrip_char ch s) = rstrip_char ch s.
Proof.
  induction s as [|c s IH]; [reflexivity|]. rewrite rstrip_char_cons.
  destruct (rstrip_char ch s) as [|c' r] eqn:E.
  - destruct (Ascii.eqb c ch) eqn:Hc; [reflexivity|].
    rewrite rstrip_char_cons. cbn [rstrip_char]. rewrite Hc. reflexivity.
  - rewrite rstrip_char_cons, IH. reflexivity.
Qed.

Lemma lstrip_char_idempotent ch s : lstrip_char ch (lstrip_char ch s) = lstrip_char ch s.
Proof.
  induction s as [|c s IH]; [reflexivity|]. cbn [lstrip_char].
  destruct (Ascii.eqb c ch) eqn:Hc; [exact IH|]. cbn [lstrip_char]. rewrite Hc.
  reflexivity.
Qed.

End Api.

(** X16. [kf_join] puts one slash between the base and the path however
    many either of them brings: a slash more at the end of the base or at
    the head of the path gives the same URL, and so does joining the base
    and the path with these slashes already taken away. *)
Theorem kf_join_slashes (base path : string) :
  kf_join (base +:+ "/") path = kf_join base path /\
  kf_join base ("/" +:+ path) = kf_join base path /\
  kf_join (rstrip_char "/" base) (lstrip_char "/" path) = kf_join base path.
Proof.
  unfold kf_join. split; [|split].
  - rewrite rstrip_char_slash. reflexivity.
  - rewrite lstrip_char_slash. reflexivity.
  - rewrite rstrip_char_idempotent, lstrip_char_idempotent. reflexivity.
Qed.

(** X17. When the settings of the asset hold a form ID, a non-empty
    [id_string], [resolve_form_id] returns it whatever KC answers: the same
    when KC lists it, when KC does not list it, and when the call of KC
    raises. *)
Theorem resolve_form_id_settings (id_string name : option string) (reply : KcReply) :
  opt_truthy id_string = true ->
  resolve_form_id id_string name reply = Returned id_string.
Proof.
  intros H. unfold resolve_form_id. rewrite H. cbn [negb].
  destruct reply as [forms|]; [|reflexivity].
  destruct (bool_decide _); reflexivity.
Qed.

(** X17, witness: KC does not list the form. *)
Lemma resolve_form_id_settings_witness :
  resolve_form_id (Some "a1") (Some "Survey") (KcForms [mkKcForm (Some "Other") (Some "b2")])
  = Returned (Some "a1").
Proof. apply resolve_form_id_settings. reflexivity. Defined.

(** X18. Without a form ID in the settings, [resolve_form_id] asks KC: it
    raises exactly when the call of KC raises; and the ID it returns, when
    it returns one, is never empty and is the [id_string] of a form that KC
    lists - the only listed form with an ID and the title of the asset, or
    else the only listed form. *)
Theorem resolve_form_id_lookup (id_string name : option string) (reply : KcReply) :
  opt_truthy id_string = false ->
  match resolve_form_id id_string name reply with
  | Raised => reply = KcRaises
  | Returned None => reply <> KcRaises
  | Returned (Some s) =>
      s <> "" /\
      exists forms f,
        reply = KcForms forms /\ f ∈ forms /\ f_id_string f = Some s /\
        (filter (fun f => f_title f = Some (default "(untitled)" name)
                          /\ opt_truthy (f_id_string f) = true) forms = [f]
         \/ forms = [f])
  end.
Proof.
  intros H. unfold resolve_form_id. rewrite H. cbn [negb].
  destruct reply as [forms|]; [|reflexivity].
  destruct (filter _ forms) as [|f [|f' l]] eqn:Hm.
  - destruct forms as [|f [|f' l]]; try discriminate.
    destruct (opt_truthy (f_id_string f)) eqn:Hf; [|discriminate].
    destruct (f_id_string f) as [s|] eqn:Hs; [|discriminate].
    split; [apply PyStrFacts.nonempty_true, Hf|].
    exists [f], f. split; [reflexivity|]. split; [apply list_elem_of_here|]. auto.
  - assert (Hin : f ∈ filter (fun f => f_title f = Some (default "(untitled)" name)
                                       /\ opt_truthy (f_id_string f) = true) forms).
    { rewrite Hm. apply list_elem_of_here. }
    apply list_elem_of_filter in Hin as [[_ Hf] Hin].
    destruct (f_id_string f) as [s|] eqn:Hs; [|discriminate].
    split; [apply PyStrFacts.nonempty_true, Hf|].
    exists forms, f. split; [reflexivity|]. split; [exact Hin|]. auto.
  - destruct forms as [|f0 [|f1 l0]]; try discriminate.
    destruct (opt_truthy (f_id_string f0)) eqn:Hf; [|discriminate].
    destruct (f_id_string f0) as [s|] eqn:Hs; [|discriminate].
    split; [apply PyStrFacts.nonempty_true, Hf|].
    exists [f0], f0. split; [reflexivity|]. split; [apply list_elem_of_here|]. auto.
Qed.

(** X18, witness: two forms are listed, one has the title of the asset. *)
Lemma resolve_form_id_lookup_witness :
  "a1" <> "" /\
  exists forms f,
    KcForms [mkKcForm (Some "Other") (Some "b2"); mkKcForm (Some "Survey") (Some "a1")]
    = KcForms forms /\ f ∈ forms /\ f_id_string f = Some "a1" /\
    (filter (fun f => f_title f = Some (default "(untitled)" (Some "Survey"))
                      /\ opt_truthy (f_id_string f) = true) forms = [f]
     \/ forms = [f]).
Proof.
  exact (resolve_form_id_lookup None (Some "Survey")
           (KcForms [mkKcForm (Some "Other") (Some "b2");
                     mkKcForm (Some "Survey") (Some "a1")]) eq_refl).
Defined.

(* ===================================================================== *)
(** * Further properties: the encoded document                            *)
(* ===================================================================== *)

Section Document.

Implicit Types (p s a : string) (path pre : list string) (k f : Element -> Element).

(** ** The node that [ensure_nested] returns *)

Lemma alter_first_fixed p f cs c :
  find_first p cs = Some c -> f c = c -> alter_first p f cs = cs.
Proof.
  induction cs as [|c' cs IH]; [reflexivity|]. simpl.
  destruct (str_eqb (tag c') p).
  - intros [= ->] ->. reflexivity.
  - intros H Hf. rewrite (IH H Hf). reflexivity.
Qed.

Lemma set_children_children e : set_children e (children e) = e.
Proof. destruct e; reflexivity. Qed.

Lemma id_tag_preserving : tag_preserving (fun e => e).
Proof. intros e. reflexivity. Qed.

Lemma ensure_nested_descend path k node :
  tag_preserving k ->
  descend path (ensure_nested path k node)
  = Some (k (default (Elem (List.last path "") [] None []) (descend path node))).
Proof.
  intros Hk. revert node. induction path as [|p rest IH]; intros node; [reflexivity|].
  pose proof (ensure_nested_tag_preserving rest k Hk) as Hk'.
  assert (Hlast : forall c, default (Elem (List.last (p :: rest) "") [] None [])
                              (descend rest c)
                            = default (Elem (List.last rest "") [] None [])
                                (descend rest c)).
  { intros c. destruct rest as [|r rest']; reflexivity. }
  cbn [ensure_nested descend]. destruct (find node p) as [c|] eqn:Hc.
  - unfold find in *. rewrite children_set_children, find_first_alter_same, Hc by exact Hk'.
    cbn [fmap option_fmap option_map]. rewrite IH, Hlast. reflexivity.
  - rewrite (find_sub_element _ _ _ _ Hk'), Hc, str_eqb_refl, IH.
    destruct rest as [|r rest']; [reflexivity|]. reflexivity.
Qed.

Lemma ensure_nested_present path node :
  is_Some (descend path node) -> ensure_nested path (fun e => e) node = node.
Proof.
  revert node. induction path as [|p rest IH]; intros node; [reflexivity|].
  cbn [ensure_nested descend]. destruct (find node p) as [c|] eqn:Hc.
  - intros H. rewrite (alter_first_fixed _ _ _ c Hc (IH c H)).
    apply set_children_children.
  - intros [? ?]. discriminate.
Qed.

(** ** What lies outside the children of the root *)

Lemma set_children_shell e cs : same_shell e (set_children e cs).
Proof. destruct e. repeat split. Qed.

Lemma same_shell_trans e1 e2 e3 : same_shell e1 e2 -> same_shell e2 e3 -> same_shell e1 e3.
Proof. unfold same_shell. intros (-> & -> & ->) (-> & -> & ->). auto. Qed.

Lemma ensure_nested_shell path leaf k node :
  same_shell node (ensure_nested path (sub_element leaf k) node).
Proof.
  destruct path as [|p rest]; cbn [ensure_nested]; [apply set_children_shell|].
  destruct (find node p); apply set_children_shell.
Qed.

Lemma encode_fields_shell row schema root :
  same_shell root (encode_fields row schema root).
Proof.
  unfold encode_fields. revert root.
  induction schema as [|item schema IH]; intros root; [repeat split|].
  simpl. eapply same_shell_trans; [|apply IH].
  unfold encode_field. destruct (field_value row item.1 item.2);
    [apply ensure_nested_shell | repeat split].
Qed.

Lemma find_or_sub_element_shell p k node :
  same_shell node (find_or_sub_element p k node).
Proof.
  unfold find_or_sub_element.
  destruct (find node p) as [c|]; [destruct (truthy c)|]; apply set_children_shell.
Qed.

(** ** Columns without a value *)

Lemma encode_fields_valued row schema root :
  encode_fields row schema root
  = encode_fields row (filter (valued row) schema) root.
Proof.
  unfold encode_fields. revert root.
  induction schema as [|item schema IH]; intros root; [reflexivity|].
  rewrite filter_cons. cbn [fold_left].
  destruct (decide (valued row item)) as [Hv | Hv].
  - cbn [fold_left]. apply IH.
  - rewrite IH. f_equal. unfold encode_field, valued in *.
    destruct (field_value row item.1 item.2); [|reflexivity].
    exfalso. apply Hv. eauto.
Qed.

Lemma fill_meta_new dep u :
  fill_meta dep u (Elem "meta" [] None [])
  = Elem "meta" [] None
      (Elem "instanceID" [] (Some ("uuid:" +:+ u)) [] :: deprecated_element dep).
Proof.
  unfold fill_meta, deprecated_element.
  destruct dep as [d|]; [destruct (PyStr.nonempty d)|]; reflexivity.
Qed.

(** ** The elements of the document *)

Lemma holds_leaf_descend pre a node :
  holds_leaf pre a node -> is_Some (descend (pre ++ [a]) node).
Proof.
  revert node. induction pre as [|s rest IH]; intros node; simpl.
  - intros H. destruct (find node a) as [c|] eqn:Hc; [eauto|].
    apply find_first_None in Hc. contradiction.
  - destruct (find node s) as [c|]; [apply IH | contradiction].
Qed.

Lemma descend_altered p f path node node' :
  altered p f node node' ->
  is_Some (descend path node') ->
  is_Some (descend path node) \/
  exists rest c, path = p :: rest /\ find node p = Some c /\ is_Some (descend rest (f c)).
Proof.
  intros (c & Hc & _ & Hp & Hs). destruct path as [|s rest]; [left; eauto|].
  cbn [descend]. destruct (decide (s = p)) as [-> | Hne].
  - rewrite Hp. intros H. right. exists rest, c. auto.
  - rewrite (Hs _ Hne). auto.
Qed.

Lemma descend_appended p e path node node' :
  appended p e node node' ->
  is_Some (descend path node') ->
  is_Some (descend path node) \/
  exists rest, path = p :: rest /\ is_Some (descend rest e).
Proof.
  intros [_ Hfind]. destruct path as [|s rest]; [left; eauto|].
  cbn [descend]. rewrite Hfind. destruct (find node s) as [c|]; [auto|].
  destruct (str_eqb p s) eqn:E; [|intros [? ?]; discriminate].
  apply str_eqb_true in E as ->. intros H. right. exists rest. auto.
Qed.

Lemma descend_set_text v path e :
  is_Some (descend path (set_text v e)) -> is_Some (descend path e).
Proof.
  destruct path as [|s rest]; [eauto|]. cbn [descend]. unfold find.
  rewrite children_set_text. auto.
Qed.

Lemma descend_fill_meta dep u path m :
  is_Some (descend path (fill_meta dep u m)) ->
  is_Some (descend path m) \/ path = ["instanceID"]
  \/ (supplied dep = true /\ path = ["deprecatedID"]).
Proof.
  assert (H1 : is_Some (descend path
                 (find_or_sub_element "instanceID" (set_text ("uuid:" +:+ u)) m)) ->
               is_Some (descend path m) \/ path = ["instanceID"]).
  { destruct (find_or_sub_element_step "instanceID" (set_text ("uuid:" +:+ u)) m
                (set_text_tag_preserving _)) as [[Halt _] | [Happ _]]; intros H.
    - apply (descend_altered _ _ _ _ _ Halt) in H as [H | (rest & c & -> & Hc & H)];
        [auto|].
      left. cbn [descend]. rewrite Hc. apply (descend_set_text _ _ _ H).
    - apply (descend_appended _ _ _ _ _ Happ) in H as [H | (rest & -> & H)]; [auto|].
      right. apply descend_leaf in H as ->. reflexivity. }
  unfold fill_meta, supplied.
  destruct dep as [d|]; [destruct (PyStr.nonempty d)|];
    try (intros H; destruct (H1 H); auto).
  intros H.
  apply (descend_appended _ _ _ _ _
           (sub_element_appended "deprecatedID" (set_text (ensure_uuid_prefix d)) _
              (set_text_tag_preserving _))) in H as [H | (rest & -> & H)].
  - destruct (H1 H); auto.
  - right. right. split; [reflexivity|]. apply descend_leaf in H as ->. reflexivity.
Qed.

Lemma descend_meta dep u path root :
  is_Some (descend path (find_or_sub_element "meta" (fill_meta dep u) root)) ->
  is_Some (descend path root) \/ path = ["meta"] \/ path = ["meta"; "instanceID"]
  \/ (supplied dep = true /\ path = ["meta"; "deprecatedID"]).
Proof.
  destruct (find_or_sub_element_step "meta" (fill_meta dep u) root
              (fill_meta_tag_preserving _ _)) as [[Halt _] | [Happ _]]; intros H.
  - apply (descend_altered _ _ _ _ _ Halt) in H as [H | (rest & c & -> & Hc & H)];
      [auto|].
    apply descend_fill_meta in H as [H | [-> | [Hs ->]]]; [|auto|auto].
    left. cbn [descend]. rewrite Hc. exact H.
  - apply (descend_appended _ _ _ _ _ Happ) in H as [H | (rest & -> & H)]; [auto|].
    apply descend_fill_meta in H as [H | [-> | [Hs ->]]]; [|auto|auto].
    right. left. apply descend_leaf in H as ->. reflexivity.
Qed.

Lemma filter_tag_nil p (cs : list Element) :
  p ∉ tag <$> cs -> filter (fun e => tag e = p) cs = [].
Proof.
  induction cs as [|c cs IH]; [reflexivity|].
  rewrite fmap_cons, not_elem_of_cons, filter_cons. intros [Hne H].
  destruct (decide (tag c = p)); [congruence | apply IH, H].
Qed.

End Document.

(** X19. [ensure_nested] returns the element that stands at the path, the
    one reached by taking at each segment the first child with that tag:
    what the caller does with the returned node is done to that element.
    It is the element that stood there before when the whole path was
    there, and a new empty element named by the last segment otherwise; and
    when the whole path is there, [ensure_nested] changes nothing. *)
Theorem ensure_nested_returns_path_node (path : list string)
    (k : Element -> Element) (node : Element) :
  tag_preserving k ->
  descend path (ensure_nested path k node)
  = Some (k (default (Elem (List.last path "") [] None []) (descend path node))) /\
  (is_Some (descend path node) -> ensure_nested path (fun e => e) node = node).
Proof.
  intros Hk. split; [apply ensure_nested_descend, Hk | apply ensure_nested_present].
Qed.

(** X19, witness: under a root with the group "g", the path g/h is made
    and the text is set on the new "h". *)
Lemma ensure_nested_returns_path_node_witness :
  descend ["g"; "h"]
    (ensure_nested ["g"; "h"] (set_text "v") (Elem "r" [] None [Elem "g" [] None []]))
  = Some (set_text "v"
            (default (Elem (List.last ["g"; "h"] "") [] None [])
               (descend ["g"; "h"] (Elem "r" [] None [Elem "g" [] None []])))).
Proof.
  exact (proj1 (ensure_nested_returns_path_node ["g"; "h"] (set_text "v")
                  (Elem "r" [] None [Elem "g" [] None []])
                  (set_text_tag_preserving "v"))).
Defined.

(** X20. The root of every encoded document is the element named by the
    form ID, with the form ID as its only attribute "id" and without text,
    whatever the row and the schema map hold. *)
Theorem row_to_xml_root (row : gmap string Cell) (form_id : string)
    (schema_map : list (string * Question)) (deprecated_id : option string)
    (uuid4 : string) :
  let doc := row_to_xml row form_id schema_map deprecated_id uuid4 in
  tag doc = form_id /\ attrib doc = [("id", form_id)] /\ text doc = None.
Proof.
  intros doc.
  assert (H : same_shell (Elem form_id [("id", form_id)] None []) doc).
  { eapply same_shell_trans; [apply encode_fields_shell|].
    apply find_or_sub_element_shell. }
  exact H.
Qed.

(** X21. The document is made from the columns that yield a value, and
    from nothing else of the schema map: the columns without a value can
    be left out of the schema map.  A row in which no column yields a
    value is still encoded, as the root with the meta element alone. *)
Theorem row_to_xml_valued_columns (row : gmap string Cell) (form_id : string)
    (schema_map : list (string * Question)) (deprecated_id : option string)
    (uuid4 : string) :
  row_to_xml row form_id schema_map deprecated_id uuid4
  = row_to_xml row form_id (filter (valued row) schema_map) deprecated_id uuid4 /\
  ((forall path q, (path, q) ∈ schema_map -> field_value row path q = None) ->
   row_to_xml row form_id schema_map deprecated_id uuid4
   = Elem form_id [("id", form_id)] None
       [Elem "meta" [] None
          (Elem "instanceID" [] (Some ("uuid:" +:+ uuid4)) []
           :: deprecated_element deprecated_id)]).
Proof.
  split.
  - unfold row_to_xml. rewrite encode_fields_valued. reflexivity.
  - intros Hnone. unfold row_to_xml. rewrite encode_fields_valued.
    assert (Hf : filter (valued row) schema_map = []).
    { apply filter_none. apply Forall_forall. intros [path q] Hin [v Hv].
      cbn [fst snd] in Hv. rewrite (Hnone path q Hin) in Hv. discriminate. }
    rewrite Hf. cbn [encode_fields fold_left].
    unfold find_or_sub_element, find, sub_element. cbn [children find_first set_children app].
    rewrite fill_meta_new. reflexivity.
Qed.

(** X22. When no column that yields a value lies at or under "meta", the
    document has one meta element, its last child; and under it one
    instanceID, with the fresh identifier, and the deprecatedID of the
    update, if any, and nothing else. *)
Theorem row_to_xml_meta_block (row : gmap string Cell) (form_id : string)
    (schema_map : list (string * Question)) (deprecated_id : option string)
    (uuid4 : string) :
  (forall path q v, (path, q) ∈ schema_map -> field_value row path q = Some v ->
     head (PyStr.split_on "/" path) <> Some "meta") ->
  let doc := row_to_xml row form_id schema_map deprecated_id uuid4 in
  let fields := encode_fields row schema_map (Elem form_id [("id", form_id)] None []) in
  children doc
  = children fields
    ++ [Elem "meta" [] None
          (Elem "instanceID" [] (Some ("uuid:" +:+ uuid4)) []
           :: deprecated_element deprecated_id)] /\
  count_tag "meta" doc = 1 /\
  findall2 doc "meta" "instanceID"
  = [Elem "instanceID" [] (Some ("uuid:" +:+ uuid4)) []] /\
  findall2 doc "meta" "deprecatedID" = deprecated_element deprecated_id.
Proof.
  intros Hschema doc fields.
  destruct (row_to_xml_fresh_meta row form_id schema_map deprecated_id uuid4 Hschema)
    as [Hno Heq].
  fold fields in Hno, Heq. fold doc in Heq.
  assert (Hchildren : children doc
                      = children fields
                        ++ [Elem "meta" [] None
                              (Elem "instanceID" [] (Some ("uuid:" +:+ uuid4)) []
                               :: deprecated_element deprecated_id)]).
  { rewrite Heq. apply children_set_children. }
  assert (Hfilter : filter (fun e => tag e = "meta") (children doc)
                    = [Elem "meta" [] None
                         (Elem "instanceID" [] (Some ("uuid:" +:+ uuid4)) []
                          :: deprecated_element deprecated_id)]).
  { rewrite Hchildren, filter_app, (filter_tag_nil _ _ Hno). reflexivity. }
  split; [exact Hchildren|]. split; [|split].
  - rewrite (count_tag_appended "meta" "meta" fields doc).
    + rewrite count_tag_find_None; [reflexivity|]. apply find_first_None, Hno.
    + unfold child_tags. rewrite Hchildren, fmap_app. reflexivity.
  - unfold findall2. rewrite Hfilter. cbn [mbind list_bind children].
    rewrite app_nil_r, filter_cons. cbn [tag].
    destruct (decide ("instanceID" = "instanceID")); [|contradiction].
    f_equal. apply filter_tag_nil. unfold deprecated_element.
    destruct deprecated_id as [d|]; [destruct (PyStr.nonempty d)|];
      cbn; intros H; repeat (apply elem_of_cons in H as [H | H]; [discriminate|]);
      inversion H.
  - unfold findall2. rewrite Hfilter. cbn [mbind list_bind children].
    rewrite app_nil_r, filter_cons. cbn [tag].
    destruct (decide ("instanceID" = "deprecatedID")); [discriminate|].
    apply filter_deprecated_element.
Qed.

(** X22, witness: a create with one text column. *)
Lemma row_to_xml_meta_block_witness :
  count_tag "meta"
    (row_to_xml (<["name" := CStr "Ann"]> ∅) "form"
       [("name", mkQuestion (Some "text") (Name "name") None None)] None "0") = 1.
Proof.
  refine (proj1 (proj2 (row_to_xml_meta_block (<["name" := CStr "Ann"]> ∅) "form"
            [("name", mkQuestion (Some "text") (Name "name") None None)] None "0" _))).
  intros path q v Hin _. apply list_elem_of_singleton in Hin. injection Hin as -> _.
  discriminate.
Defined.

(** X23. The elements of the document are those of the columns that yield
    a value, and the meta block.  Every column that yields a value has an
    element at its path; and an element stands at a path only if the path
    is the root, or meta, meta/instanceID or - in an update -
    meta/deprecatedID, or leads to a column that yields a value.  A cell
    without a value leaves no element, nor does a group all of whose
    columns are without value. *)
Theorem row_to_xml_elements (row : gmap string Cell) (form_id : string)
    (schema_map : list (string * Question)) (deprecated_id : option string)
    (uuid4 : string) :
  let doc := row_to_xml row form_id schema_map deprecated_id uuid4 in
  (forall col q v, (col, q) ∈ schema_map -> field_value row col q = Some v ->
     is_Some (descend (PyStr.split_on "/" col) doc)) /\
  (forall path, is_Some (descend path doc) ->
     path = [] \/ path = ["meta"] \/ path = ["meta"; "instanceID"]
     \/ (supplied deprecated_id = true /\ path = ["meta"; "deprecatedID"])
     \/ exists col q v, (col, q) ∈ schema_map /\ field_value row col q = Some v
                        /\ path `prefix_of` PyStr.split_on "/" col).
Proof.
  intros doc. split.
  - intros col q v Hin Hv. rewrite (split_on_parts "/" col).
    apply holds_leaf_descend.
    apply find_or_sub_element_leaf; [apply fill_meta_tag_preserving | |].
    + intros rest m _. apply fill_meta_leaf.
    + apply (encode_fields_leaf_new _ _ _ _ _ col q v Hin); [|exact Hv].
      apply split_on_parts.
  - intros path H. apply descend_meta in H as [H | [H | [H | H]]]; auto.
    apply encode_fields_descend in H as [H | H]; [left; exact H|].
    do 4 right. exact H.
Qed.

(* ===================================================================== *)
(** * Further properties: a file read against the template                *)
(* ===================================================================== *)

Section TemplateFile.

Lemma filter_cols_labels expected (df : list (string * list Cell)) label :
  expected <> [] ->
  label ∈ (filter_cols (Some expected) df).*1 -> label ∈ expected /\ label ∈ df.*1.
Proof.
  intros Hne. unfold filter_cols. destruct expected as [|e0 expected]; [contradiction|].
  intros H. apply list_elem_of_fmap in H as (col & -> & H).
  apply list_elem_of_filter in H as [H1 H2]. split; [exact H1|].
  apply list_elem_of_fmap. eauto.
Qed.

Lemma field_value_geopoint_absent row path q :
  q_type q = Some "geopoint" ->
  row !! (path +:+ "_latitude") = None ->
  field_value row path q = None.
Proof.
  intros Hq Hrow. unfold field_value. rewrite bool_decide_eq_true_2 by exact Hq.
  unfold row_get. rewrite Hrow. reflexivity.
Qed.

Lemma encode_fields_skip row (P : string * Question -> Prop)
    `{!forall item, Decision (P item)} schema root :
  (forall item, item ∈ schema -> ~ P item -> field_value row item.1 item.2 = None) ->
  encode_fields row schema root = encode_fields row (filter P schema) root.
Proof.
  unfold encode_fields. revert root.
  induction schema as [|item schema IH]; intros root Hskip; [reflexivity|].
  rewrite filter_cons. cbn [fold_left].
  assert (Hrest : forall item', item' ∈ schema -> ~ P item' ->
                    field_value row item'.1 item'.2 = None).
  { intros item' Hin. apply Hskip. right. exact Hin. }
  destruct (decide (P item)) as [HP | HP].
  - cbn [fold_left]. apply IH, Hrest.
  - rewrite (IH _ Hrest). f_equal. unfold encode_field.
    rewrite (Hskip item (list_elem_of_here _ _) HP). reflexivity.
Qed.

Lemma template_columns asset template schema_map :
  build_template_df asset = Ok (template, schema_map) ->
  template <> [] /\ forall path, path ∈ schema_map.*1 -> path ∈ template.
Proof.
  unfold build_template_df.
  destruct (flatten_survey _ _) as [cols|e]; [|discriminate].
  intros [= <- <-]. split.
  - intros H.
    assert (Hin : "_uuid" ∈ add_system_columns cols.*1)
      by (apply system_columns_in_template; right; left).
    rewrite H in Hin. inversion Hin.
  - intros path H. apply (proj1 (elem_of_dict_of_items_keys _ _)) in H.
    rewrite add_system_columns_spec. apply elem_of_app. left. exact H.
Qed.

End TemplateFile.

(** X24. The answers to a geopoint question that are typed into the
    template are not sent.  The template and the schema map have, for a
    geopoint, the four columns with the suffixes, and the encoder, at each
    of these keys, reads the columns with the suffixes added once more;
    [read_table] keeps the columns of the template only.  So, unless the
    template happens to have a column named like another one followed by
    "_latitude", no item of the schema map of type geopoint yields a value
    for a row of the file read, and the document is the one of the schema
    map without its geopoint items. *)
Theorem template_geopoint_not_encoded (asset : Asset) (template : list string)
    (schema_map : list (string * Question)) (df : list (string * list Cell)) (i : nat)
    (form_id : string) (uuid4 : string) :
  build_template_df asset = Ok (template, schema_map) ->
  (forall label, label ∈ template -> label +:+ "_latitude" ∉ template) ->
  let row := frame_row (filter_cols (Some template) df) i in
  (forall path q, (path, q) ∈ schema_map -> q_type q = Some "geopoint" ->
     field_value row path q = None) /\
  row_to_xml row form_id schema_map None uuid4
  = row_to_xml row form_id (filter not_geopoint schema_map) None uuid4.
Proof.
  intros Hbuild Hlabels row.
  destruct (template_columns asset template schema_map Hbuild) as [Hne Hkeys].
  assert (Hgeo : forall path q, (path, q) ∈ schema_map -> q_type q = Some "geopoint" ->
                   field_value row path q = None).
  { intros path q Hin Hq. apply (field_value_geopoint_absent _ _ _ Hq).
    destruct (row !! (path +:+ "_latitude")) as [val|] eqn:Hrow; [|reflexivity].
    exfalso. apply (Hlabels path).
    - apply Hkeys. apply list_elem_of_fmap. exists (path, q). auto.
    - assert (Hk : path +:+ "_latitude" ∈ (filter_cols (Some template) df).*1).
      { apply (frame_row_keys _ i). unfold row in Hrow. rewrite Hrow. eauto. }
      apply (filter_cols_labels _ _ _ Hne) in Hk as [Hk _]. exact Hk. }
  split; [exact Hgeo|].
  unfold row_to_xml. rewrite (encode_fields_skip row not_geopoint).
  - reflexivity.
  - intros [path q] Hin HP. cbn [fst snd]. apply (Hgeo path q Hin).
    unfold not_geopoint in HP. cbn [snd] in HP.
    destruct (decide (q_type q = Some "geopoint")) as [E|E]; [exact E | contradiction].
Qed.

(** X24, witness: a form with the geopoint question "loc", and a file with
    the coordinates in the columns of the template: the document holds the
    meta element alone. *)
Lemma template_geopoint_not_encoded_witness :
  let geo := mkQuestion (Some "geopoint") (Name "loc") None None in
  let schema := [("loc_latitude", geo); ("loc_longitude", geo);
                 ("loc_altitude", geo); ("loc_precision", geo)] in
  let row := frame_row
               (filter_cols
                  (Some ["loc_latitude"; "loc_longitude"; "loc_altitude"; "loc_precision";
                         "meta/instanceID"; "_uuid"; "_id"])
                  [("loc_latitude", [CStr "1.5"]); ("loc_longitude", [CStr "2.5"]);
                   ("loc_altitude", [CStr "0"]); ("loc_precision", [CStr "0"]);
                   ("meta/instanceID", [CNaN]); ("_uuid", [CNaN]); ("_id", [CNaN])]) 0 in
  row_to_xml row "form" schema None "0"
  = row_to_xml row "form" (filter not_geopoint schema) None "0".
Proof.
  intros geo schema row.
  refine (proj2 (template_geopoint_not_encoded
            (mkAsset (Some (mkContent (Some [geo]) None)))
            ["loc_latitude"; "loc_longitude"; "loc_altitude"; "loc_precision";
             "meta/instanceID"; "_uuid"; "_id"]
            schema
            [("loc_latitude", [CStr "1.5"]); ("loc_longitude", [CStr "2.5"]);
             ("loc_altitude", [CStr "0"]); ("loc_precision", [CStr "0"]);
             ("meta/instanceID", [CNaN]); ("_uuid", [CNaN]); ("_id", [CNaN])] 0 "form" "0"
            eq_refl _)).
  intros label Hin.
  repeat (apply elem_of_cons in Hin as [-> | Hin];
          [apply (bool_decide_unpack _); vm_compute; exact I|]).
  inversion Hin.
Defined.

(* ===================================================================== *)
(** * Further properties: the values written                              *)
(* ===================================================================== *)

Section Values.
Import PyStr PyStrFacts.

Lemma fields_free_single sep t : free_of sep t -> fields sep t = [t].
Proof.
  induction t as [|c t IH]; [reflexivity|]. intros [Hc Ht].
  cbn [fields]. rewrite Hc, (IH Ht). reflexivity.
Qed.

Lemma fields_app_sep sep t c rest :
  free_of sep t -> sep c = true ->
  fields sep (t +:+ String c rest) = t :: fields sep rest.
Proof.
  intros Ht Hc. induction t as [|a t IH].
  - rewrite app_empty_l. cbn [fields]. rewrite Hc. reflexivity.
  - destruct Ht as [Ha Ht]. rewrite app_cons. cbn [fields].
    rewrite Ha, (IH Ht). reflexivity.
Qed.

(** Splitting what was joined with single spaces gives the tokens back. *)
Lemma fields_join sep (tokens : list string) :
  sep " "%char = true -> tokens <> [] -> Forall (free_of sep) tokens ->
  fields sep (join " " tokens) = tokens.
Proof.
  intros Hsp Hne Hfree. induction Hfree as [|t ts Ht Hts IH]; [contradiction|].
  destruct ts as [|t' ts].
  - apply fields_free_single, Ht.
  - change (join " " (t :: t' :: ts)) with (t +:+ String " " (join " " (t' :: ts))).
    rewrite (fields_app_sep _ _ _ _ Ht Hsp), IH by discriminate. reflexivity.
Qed.

Lemma app_nonempty_l s t : s <> "" -> s +:+ t <> "".
Proof. destruct s; [contradiction|]. rewrite app_cons. discriminate. Qed.

Lemma rstrip_app a b : rstrip b <> "" -> rstrip (a +:+ b) = a +:+ rstrip b.
Proof.
  intros Hb. induction a as [|c a IH]; [rewrite !app_empty_l; reflexivity|].
  rewrite !app_cons. cbn [rstrip]. rewrite IH.
  destruct (a +:+ rstrip b) eqn:E; [|reflexivity].
  exfalso. destruct a; [rewrite app_empty_l in E; contradiction|].
  rewrite app_cons in E. discriminate.
Qed.

(** The tokens of a select_multiple cell: not empty, and free of commas
    and whitespace. *)
Lemma select_multiple_tokens s :
  Forall (fun t => free_of is_separator t /\ nonempty t = true)
    (filter (fun t => nonempty t = true) (strip <$> fields is_separator s)).
Proof.
  apply Forall_forall. intros t Ht. apply list_elem_of_filter in Ht as [Hn Ht].
  split; [|exact Hn]. apply list_elem_of_fmap in Ht as (t' & -> & Ht').
  pose proof (fields_free is_separator s) as Hfree. rewrite Forall_forall in Hfree.
  specialize (Hfree t' Ht').
  rewrite strip_free; [exact Hfree|].
  eapply free_of_weaken; [|exact Hfree]. apply is_separator_space.
Qed.

Lemma join_tokens_nonempty (tokens : list string) :
  tokens <> [] -> Forall (fun t => free_of is_separator t /\ nonempty t = true) tokens ->
  join " " tokens <> "".
Proof.
  intros Hne H. destruct H as [|t ts [_ Ht] _]; [contradiction|].
  apply nonempty_true in Ht. destruct ts as [|t' ts]; [exact Ht|].
  change (join " " (t :: t' :: ts)) with (t +:+ " " +:+ join " " (t' :: ts)).
  apply app_nonempty_l, Ht.
Qed.

Lemma join_tokens_rstrip (tokens : list string) :
  tokens <> [] -> Forall (fun t => free_of is_separator t /\ nonempty t = true) tokens ->
  rstrip (join " " tokens) = join " " tokens.
Proof.
  intros Hne H. induction H as [|t ts [Hfree Ht] Hts IH]; [contradiction|].
  destruct ts as [|t' ts].
  - apply rstrip_free. eapply free_of_weaken; [|exact Hfree]. apply is_separator_space.
  - change (join " " (t :: t' :: ts)) with (t +:+ (" " +:+ join " " (t' :: ts))).
    assert (Hrest : rstrip (join " " (t' :: ts)) = join " " (t' :: ts))
      by (apply IH; discriminate).
    assert (Hrest' : rstrip (" " +:+ join " " (t' :: ts)) = " " +:+ join " " (t' :: ts)).
    { rewrite rstrip_app, Hrest; [reflexivity|]. rewrite Hrest.
      apply join_tokens_nonempty; [discriminate | exact Hts]. }
    rewrite rstrip_app, Hrest'; [reflexivity|]. rewrite Hrest'. discriminate.
Qed.

Lemma join_tokens_head (tokens : list string) :
  Forall (fun t => free_of is_separator t /\ nonempty t = true) tokens ->
  head_nonspace (join " " tokens).
Proof.
  intros H. destruct H as [|t ts [Hfree Ht] _]; [exact I|].
  assert (Hhead : forall r, head_nonspace (t +:+ r)).
  { intros r. destruct t as [|c t]; [discriminate|]. rewrite app_cons.
    destruct Hfree as [Hc _]. unfold is_separator in Hc.
    apply orb_false_iff in Hc as [_ Hc]. exact Hc. }
  destruct ts as [|t' ts]; [|apply Hhead].
  specialize (Hhead ""). destruct t as [|c t]; [discriminate|].
  rewrite app_cons in Hhead. exact Hhead.
Qed.

Lemma spec_select_multiple_normal_form s v :
  spec_select_multiple s = Some v ->
  spec_select_multiple v = Some v /\ v <> "" /\ strip v = v.
Proof.
  unfold spec_select_multiple at 1.
  pose proof (select_multiple_tokens s) as Htok.
  destruct (filter _ (strip <$> fields is_separator s)) as [|t ts] eqn:E; [discriminate|].
  intros Hv. set (tokens := t :: ts) in *.
  assert (Hv' : v = join " " tokens) by (injection Hv as <-; reflexivity).
  clear Hv. subst v.
  assert (Hne : tokens <> []) by discriminate.
  split; [|split].
  - unfold spec_select_multiple. rewrite (fields_join is_separator tokens eq_refl Hne).
    + assert (Hstrip : strip <$> tokens = tokens).
      { clear -Htok. induction Htok as [|t' ts' [Hf _] _ IH]; [reflexivity|].
        rewrite fmap_cons, IH, strip_free; [reflexivity|].
        eapply free_of_weaken; [|exact Hf]. apply is_separator_space. }
      rewrite Hstrip.
      assert (Hfilter : filter (fun t => nonempty t = true) tokens = tokens).
      { clear -Htok. induction Htok as [|t' ts' [_ Hn] _ IH]; [reflexivity|].
        rewrite filter_cons, IH. destruct (decide (nonempty t' = true));
          [reflexivity | contradiction]. }
      rewrite Hfilter. reflexivity.
    + eapply Forall_impl; [exact Htok|]. intros t' [H _]. exact H.
  - apply join_tokens_nonempty; assumption.
  - unfold strip. rewrite lstrip_id by (apply join_tokens_head, Htok).
    apply join_tokens_rstrip; assumption.
Qed.

Lemma field_value_plain row path q :
  q_type q <> Some "geopoint" -> q_type q <> Some "select_multiple" ->
  field_value row path q = cell_text (row !! path).
Proof.
  intros H1 H2. unfold field_value, cell_text, blank.
  rewrite !bool_decide_eq_false_2 by assumption.
  destruct (row !! path) as [val|]; [|reflexivity].
  destruct (notna val); [|reflexivity]. cbn [negb orb].
  destruct (nonempty (strip (py_str val))); reflexivity.
Qed.

End Values.

(** X25. The value written for a select_multiple cell is a normal form:
    it is not empty, has no whitespace at its ends, and encoding it again
    gives the same value. *)
Theorem select_multiple_normal_form (row : gmap string Cell) (path : string)
    (q_info : Question) (v : string) :
  q_type q_info = Some "select_multiple" ->
  field_value row path q_info = Some v ->
  field_value (<[path := CStr v]> row) path q_info = Some v /\
  v <> "" /\ PyStr.strip v = v.
Proof.
  intros Hq Hv. rewrite (field_value_select_multiple _ _ _ Hq) in Hv.
  rewrite (field_value_select_multiple _ _ _ Hq), lookup_insert_eq.
  destruct (row !! path) as [[s| | |]|]; try discriminate.
  apply (spec_select_multiple_normal_form s v Hv).
Qed.

(** X25, witness: the cell " b,,a  c " is written as "b a c". *)
Lemma select_multiple_normal_form_witness :
  field_value (<["sel" := CStr "b a c"]> (<["sel" := CStr " b,,a  c "]> ∅)) "sel"
    (mkQuestion (Some "select_multiple") (Name "sel") None None)
  = Some "b a c".
Proof.
  exact (proj1 (select_multiple_normal_form (<["sel" := CStr " b,,a  c "]> ∅) "sel"
                  (mkQuestion (Some "select_multiple") (Name "sel") None None)
                  "b a c" eq_refl eq_refl)).
Defined.

(** X26. No empty text is written: whatever the type of the column, a
    value that [row_to_xml] computes for a cell is not the empty string;
    and for every type but geopoint it has no whitespace at its ends.  A
    cell that is empty or blank gives no value at all. *)
Theorem field_value_not_empty (row : gmap string Cell) (path : string)
    (q_info : Question) (v : string) :
  field_value row path q_info = Some v ->
  v <> "" /\ (q_type q_info <> Some "geopoint" -> PyStr.strip v = v).
Proof.
  intros Hv.
  destruct (decide (q_type q_info = Some "geopoint")) as [Hg | Hg].
  - split; [|contradiction].
    unfold field_value in Hv. rewrite bool_decide_eq_true_2 in Hv by exact Hg.
    destruct (PyStr.nonempty (PyStr.strip (py_str
                (row_get row (path +:+ "_latitude") (CStr ""))))) eqn:Hlat;
      [|discriminate].
    destruct (PyStr.nonempty (PyStr.strip (py_str
                (row_get row (path +:+ "_longitude") (CStr ""))))); [|discriminate].
    cbn [andb] in Hv. injection Hv as <-.
    apply app_nonempty_l, PyStrFacts.nonempty_true, Hlat.
  - destruct (decide (q_type q_info = Some "select_multiple")) as [Hs | Hs].
    + rewrite (field_value_select_multiple _ _ _ Hs) in Hv.
      destruct (row !! path) as [[s| | |]|]; try discriminate.
      destruct (spec_select_multiple_normal_form s v Hv) as (_ & H1 & H2). auto.
    + rewrite (field_value_plain _ _ _ Hg Hs) in Hv. unfold cell_text in Hv.
      destruct (row !! path) as [val|]; [|discriminate].
      destruct (blank val) eqn:Hb; [discriminate|]. injection Hv as <-.
      apply blank_false in Hb as [_ Hb]. split; [exact Hb|].
      intros _. apply PyStrFacts.strip_idem.
Qed.

(** X26, witness: a text cell with whitespace around. *)
Lemma field_value_not_empty_witness :
  "Ann" <> "" /\
  (q_type (mkQuestion (Some "text") (Name "name") None None) <> Some "geopoint" ->
   PyStr.strip "Ann" = "Ann").
Proof.
  exact (field_value_not_empty (<["name" := CStr " Ann "]> ∅) "name"
           (mkQuestion (Some "text") (Name "name") None None) "Ann" eq_refl).
Defined.

(* ===================================================================== *)
(** * Further properties: the lookup by [_id] in an edit                  *)
(* ===================================================================== *)

Section EditFlow.
Import PyStr PyStrFacts.

Lemma dict_get_elem {V} k (d : list (string * V)) v : dict_get k d = Some v -> (k, v) ∈ d.
Proof.
  induction d as [|[k' v'] d IH]; [discriminate|]. simpl.
  destruct (str_eqb k k') eqn:E.
  - apply str_eqb_true in E as ->. intros [= ->]. left.
  - intros H. right. apply IH, H.
Qed.

Lemma first_candidate_None cands labels cand :
  first_candidate cands labels = None -> cand ∈ cands -> cand ∉ labels.
Proof.
  induction cands as [|a cands IH]; [intros _ H; inversion H|]. simpl.
  destruct (bool_decide (a ∈ labels)) eqn:Ha; [discriminate|].
  apply bool_decide_eq_false in Ha. intros H Hin.
  apply elem_of_cons in Hin as [-> | Hin]; [exact Ha | apply (IH H Hin)].
Qed.

Lemma frame_row_cell (df : list (string * list Cell)) i k val :
  frame_row df i !! k = Some val -> exists col, col ∈ df /\ col.2 !! i = Some val.
Proof.
  induction df as [|[lbl data] df IH].
  - change (frame_row [] i) with (∅ : gmap string Cell). rewrite lookup_empty. discriminate.
  - rewrite frame_row_cons. destruct (data !! i) as [val'|] eqn:Hd.
    + destruct (decide (lbl = k)) as [-> | Hne].
      * rewrite lookup_insert_eq. intros [= ->]. exists (k, data). split; [left | exact Hd].
      * rewrite lookup_insert_ne by exact Hne. intros H.
        destruct (IH H) as (col & Hcol & Hc). exists col. split; [right|]; assumption.
    + intros H. destruct (IH H) as (col & Hcol & Hc). exists col.
      split; [right|]; assumption.
Qed.

Lemma frame_row_absent (df : list (string * list Cell)) i k :
  k ∉ df.*1 -> frame_row df i !! k = None.
Proof.
  intros H. destruct (frame_row df i !! k) eqn:E; [|reflexivity].
  exfalso. apply H, (frame_row_keys _ i). rewrite E. eauto.
Qed.

Lemma file_cell_truthy c : file_cell c -> cell_truthy c = true.
Proof. destruct c as [s| | |]; try contradiction; [|reflexivity]. apply nonempty_true. Qed.

Lemma strip_labels_cells (df : list (string * list Cell)) (P : list Cell -> Prop) :
  Forall (fun col => P col.2) df -> Forall (fun col => P col.2) (strip_labels df).
Proof. unfold strip_labels. intros H. apply Forall_fmap. exact H. Qed.

End EditFlow.

(** X27. In an edit of a file, the lookup by [_id] resolves no row.  The
    frame is read with [dtype=str], so its cells are non-empty texts or
    NaN, and it goes through [normalize_update_ids]; the known records have
    the [_id] that the data API gives, not a text.  Then a row is resolved
    to the normalized text of its cell in the ID source when the file has
    one - an empty cell to "uuid:nan" -, and is unresolved when it has
    none, whatever its [_id]. *)
Theorem edit_file_no_lookup_by_id (df : list (string * list Cell))
    (table : list Entry) (i : nat) :
  NoDup (PyStr.strip <$> df.*1) ->
  Forall (fun col => Forall file_cell col.2 /\ i < length col.2) df ->
  Forall (fun e => forall t, e_id e <> CStr t) table ->
  let row := frame_row (normalize_update_ids df).1 i in
  match id_source (strip_labels df).*1 with
  | Some label =>
      exists src c,
        frame_get label (strip_labels df) = Some src /\ src !! i = Some c /\
        get_submission_id row (Some table)
        = Ok (Some (py_str (ensure_uuid_prefix_cell c)))
  | None => get_submission_id row (Some table) = Ok None
  end.
Proof.
  intros Hnd Hcells Htable row.
  pose proof (strip_labels_cells df (fun data => Forall file_cell data /\ i < length data)
                Hcells) as Hcells'.
  rewrite Forall_forall in Hcells'.
  destruct (id_source (strip_labels df).*1) as [label|] eqn:Hsrc.
  - destruct (dict_get_is_Some label (strip_labels df) (id_source_elem _ _ Hsrc))
      as [src Hget].
    destruct (Hcells' _ (dict_get_elem _ _ _ Hget)) as [Hfile Hlen]. cbn [snd] in *.
    destruct (lookup_lt_is_Some_2 src i Hlen) as [c Hc].
    rewrite <- frame_get_dict_get in Hget.
    exists src, c. split; [exact Hget|]. split; [exact Hc|].
    apply (normalize_update_ids_row_id df label src i c _ Hnd Hsrc Hget Hc).
    apply file_cell_truthy. rewrite Forall_forall in Hfile.
    apply Hfile, (list_elem_of_lookup_2 _ _ _ Hc).
  - unfold row. rewrite normalize_update_ids_frame, Hsrc.
    unfold id_source in Hsrc.
    destruct (bool_decide ("meta/instanceID" ∈ (strip_labels df).*1)) eqn:Hmi;
      [discriminate|].
    apply bool_decide_eq_false in Hmi.
    assert (Huuid : "_uuid" ∉ (strip_labels df).*1).
    { apply (first_candidate_None _ _ _ Hsrc). unfold id_candidates.
      do 4 right. left. }
    assert (Hf : first_notna (frame_row (strip_labels df) i) ["meta/instanceID"; "_uuid"]
                 = None).
    { cbn [first_notna]. unfold row_get.
      rewrite (frame_row_absent _ _ _ Hmi), (frame_row_absent _ _ _ Huuid). reflexivity. }
    rewrite (get_submission_id_lookup _ _ Hf). cbv zeta.
    change (default [] (Some table)) with table. f_equal.
    unfold row_get.
    destruct (frame_row (strip_labels df) i !! "_id") as [rid|] eqn:Hid.
    + destruct (frame_row_cell _ _ _ _ Hid) as (col & Hcol & Hc).
      destruct (Hcells' col Hcol) as [Hfile _]. rewrite Forall_forall in Hfile.
      pose proof (Hfile rid (list_elem_of_lookup_2 _ _ _ Hc)) as Hrid.
      destruct rid as [s| | |]; try contradiction.
      * rewrite filter_none; [reflexivity|].
        eapply Forall_impl; [exact Htable|]. intros e He.
        rewrite (cell_eqb_str_not_str _ _ He). discriminate.
      * destruct (filter _ table) as [|e [|e' l]]; reflexivity.
    + destruct (filter _ table) as [|e [|e' l]]; reflexivity.
Qed.

(** X27, witness: a file without ID column whose [_id] is that of a known
    record. *)
Lemma edit_file_no_lookup_by_id_witness :
  get_submission_id
    (frame_row (normalize_update_ids [("name", [CStr "Ann"]); ("_id", [CStr "5"])]).1 0)
    (Some [mkEntry (CInt 5) (CStr "k1") (CStr "uuid:k1")])
  = Ok None.
Proof.
  refine (edit_file_no_lookup_by_id [("name", [CStr "Ann"]); ("_id", [CStr "5"])]
            [mkEntry (CInt 5) (CStr "k1") (CStr "uuid:k1")] 0 _ _ _).
  - apply (bool_decide_unpack _). vm_compute. exact I.
  - repeat constructor; discriminate.
  - repeat constructor. intros t. discriminate.
Defined.
